(** * geopandas.tools.clip: a shallow embedding and its verified properties

    The module under study is [geopandas/tools/clip.py].  Its functions are
    embedded as computations in a small monad [Py] that threads

    - a store of pandas objects (GeoDataFrame / GeoSeries values live in the
      store and are passed around by reference, as in Python),
    - a log of the observable effects (warnings and calls into the geometry
      engine and the spatial index), and
    - Python exceptions.

    The geometry engine (shapely) is abstracted as an interface; the pandas
    container operations used by the module are modelled on tables of rows. *)

From Stdlib Require Import QArith.
From stdpp Require Import gmap strings list fin_maps sorting.


(** ** Geometry kinds and families *)

(** The values of [geom_type]: the eight type names, and [NoType] for
    Python's [None], the type name of a missing geometry. *)
Inductive geom_kind :=
  | Point | MultiPoint
  | LineString | MultiLineString | LinearRing
  | Polygon | MultiPolygon
  | GeometryCollection
  | NoType.

#[global] Instance geom_kind_eq_dec : EqDecision geom_kind.
Proof. solve_decision. Defined.

Definition _POINT_TYPES : list geom_kind := [Point; MultiPoint].
Definition _LINE_TYPES : list geom_kind := [LineString; MultiLineString; LinearRing].
Definition _POLYGON_TYPES : list geom_kind := [Polygon; MultiPolygon].
Definition _GEOMETRY_TYPES : list (list geom_kind) :=
  [_POINT_TYPES; _LINE_TYPES; _POLYGON_TYPES].

(** Python's [x in xs] on a list of type names. *)
Definition isin (k : geom_kind) (ks : list geom_kind) : bool :=
  bool_decide (k ∈ ks).

(** ** Coordinates and bounding boxes

    Coordinates are floating point numbers in the source.  Only their
    comparison is used by the module, so a coordinate is either a finite
    number or NaN; every comparison involving NaN is false. *)

Inductive coord := Num (q : Q) | NaN.

Definition coord_le (a b : coord) : bool :=
  match a, b with
  | Num x, Num y => Qle_bool x y
  | _, _ => false
  end.

Definition qmin (x y : Q) : Q := if Qle_bool x y then x else y.
Definition qmax (x y : Q) : Q := if Qle_bool x y then y else x.

(** numpy's [nanmin] / [nanmax] on two values: NaN is ignored when the other
    value is a number. *)
Definition nanmin (a b : coord) : coord :=
  match a, b with
  | NaN, c | c, NaN => c
  | Num x, Num y => Num (qmin x y)
  end.

Definition nanmax (a b : coord) : coord :=
  match a, b with
  | NaN, c | c, NaN => c
  | Num x, Num y => Num (qmax x y)
  end.

(** A box is indexed as in the source: [box[0]] = minx, [box[1]] = miny,
    [box[2]] = maxx, [box[3]] = maxy. *)
Record bbox := BBox { minx : coord; miny : coord; maxx : coord; maxy : coord }.

Definition nan_box : bbox := BBox NaN NaN NaN NaN.

Definition box_union (a b : bbox) : bbox :=
  BBox (nanmin (minx a) (minx b)) (nanmin (miny a) (miny b))
       (nanmax (maxx a) (maxx b)) (nanmax (maxy a) (maxy b)).

(** ** The geometry engine *)

(** The positions, in row order, of the geometries of [gs] that satisfy the
    exact "intersects" predicate against [poly]. *)
Definition intersecting_positions {G : Type} (intersects : G → G → bool)
    (gs : list G) (poly : G) : list nat :=
  filter (λ i, from_option (λ g, intersects g poly) false (gs !! i) = true)
         (seq 0 (length gs)).

(** Modelled from the spec: the geometry engine (shapely) and the spatial
    index ([gdf.sindex.query]) are not under src/.  Section 6 of the spec
    lists what the module consumes: [family] ([geom_type]), [bounds],
    [intersects], [intersection], [union] ([unary_union]), [explode]
    ([parts]: the constituents of a multi-part or collection geometry) and
    [spatial_query].  The spatial query returns the positions of exactly the
    rows whose geometry intersects the query geometry, in an order of the
    index's choosing (Section 4.3, step 1 and Section 4.5).

    The entries of a geometry column are geometries or Python's [None];
    [missing] is that entry.  The array operations of the engine pass it
    through: it has no type name and no bounds, intersects nothing, and its
    intersection with anything is missing again. *)
Class GeometryEngine := {
  BaseGeometry : Type;
  missing : BaseGeometry;
  geom_type : BaseGeometry → geom_kind;
  bounds : BaseGeometry → bbox;
  intersects : BaseGeometry → BaseGeometry → bool;
  intersection : BaseGeometry → BaseGeometry → BaseGeometry;
  unary_union : list BaseGeometry → BaseGeometry;
  parts : BaseGeometry → list BaseGeometry;
  sindex_query : list BaseGeometry → BaseGeometry → list nat;
  sindex_query_spec : ∀ gs poly,
    sindex_query gs poly ≡ₚ intersecting_positions intersects gs poly;
  geom_type_missing : geom_type missing = NoType;
  bounds_missing : bounds missing = nan_box;
  intersects_missing : ∀ g, intersects missing g = false;
  intersection_missing : ∀ g, intersection missing g = missing
}.

Section Clip.
Context `{GeometryEngine}.


(** ** The container model *)

(** The value of a non-geometry column in one row. *)
Inductive cell := CInt (z : Z) | CStr (s : string) | CNaN.

(** One record of a collection: its index label, the entry of its geometry
    column (a geometry, or [missing]) and the values of its attribute
    columns, by column name. *)
Record row := Row {
  label : Z;
  geometry : BaseGeometry;
  attrs : gmap string cell
}.

Inductive pandas_class := GeoDataFrame | GeoSeries.

#[global] Instance pandas_class_eq_dec : EqDecision pandas_class.
Proof. solve_decision. Defined.

(** A GeoDataFrame or GeoSeries object.  [name] is the name of the active
    geometry column of a frame, or the name of a series; [columns] are the
    attribute columns (none for a series); [sindex_built] records whether
    the lazily built spatial index is cached on the object. *)
Record table := Table {
  cls : pandas_class;
  name : option string;
  crs : option string;
  columns : list string;
  rows : list row;
  sindex_built : bool
}.

Definition with_rows (t : table) (rs : list row) : table :=
  Table (cls t) (name t) (crs t) (columns t) rs false.

(** The same collection with its spatial index built and cached. *)
Definition with_sindex (t : table) : table :=
  Table (cls t) (name t) (crs t) (columns t) (rows t) true.

Definition with_geometry (r : row) (g : BaseGeometry) : row :=
  Row (label r) g (attrs r).

(** What a caller can observe of a collection: everything but the cache. *)
Definition same_data (t u : table) : Prop :=
  cls t = cls u ∧ name t = name u ∧ crs t = crs u ∧
  columns t = columns u ∧ rows t = rows u.

(** The schema of a collection: its class, geometry name, CRS and columns. *)
Definition same_schema (t u : table) : Prop :=
  cls t = cls u ∧ name t = name u ∧ crs t = crs u ∧ columns t = columns u.

(** [t.geom_type]: the type name of every row's geometry. *)
Definition geom_types (t : table) : list geom_kind :=
  (λ r, geom_type (geometry r)) <$> rows t.

(** Modelled from the spec: [total_bounds] (a GeoSeries / GeoDataFrame
    property, not under src/) is the union of all row bounds and is
    undefined on the empty collection; the undefined box is the all-NaN box. *)
Definition total_bounds (t : table) : bbox :=
  foldr (λ r acc, box_union (bounds (geometry r)) acc) nan_box (rows t).

(** [t.iloc[idx]] for a list of positions: the rows at these positions, in
    the order given; a position out of range raises IndexError ([None]). *)
Definition iloc (t : table) (idx : list nat) : option table :=
  with_rows t <$> mapM (λ i, rows t !! i) idx.

(** [t.intersection(poly)]: a GeoSeries with the index of [t] holding the
    intersection of every geometry with [poly]. *)
Definition intersection_series (t : table) (poly : BaseGeometry) : table :=
  Table GeoSeries None (crs t) []
        ((λ r, Row (label r) (intersection (geometry r) poly) ∅) <$> rows t)
        false.

(** [t[geometry column] = s] where [s] has the index of [t]: the geometries
    of [t] are replaced, row by row, by those of [s]. *)
Definition set_geometries (t s : table) : table :=
  Table (cls t) (name t) (crs t) (columns t)
        (zip_with (λ r r', with_geometry r (geometry r')) (rows t) (rows s))
        (sindex_built t).

(** Modelled from the spec: [explode] (a GeoDataFrame / GeoSeries method, not
    under src/) replaces each row by one row per constituent geometry, in
    the order of the constituents, duplicating the attribute values and the
    row identity. *)
Definition explode_row (r : row) : list row :=
  with_geometry r <$> parts (geometry r).

Definition explode (t : table) : table :=
  with_rows t (rows t ≫= explode_row).

(** [t.loc[t.geom_type.isin(kinds)]] *)
Definition loc_isin (t : table) (kinds : list geom_kind) : table :=
  with_rows t (filter (λ r, isin (geom_type (geometry r)) kinds = true) (rows t)).

(** [GeoDataFrame(geometry=s)] *)
Definition frame_of_series (s : table) : table :=
  Table GeoDataFrame (Some "geometry") (crs s) []
        ((λ r, Row (label r) (geometry r) ∅) <$> rows s) false.

(** [t.geometry] *)
Definition geometry_of (t : table) : table :=
  Table GeoSeries (name t) (crs t) []
        ((λ r, Row (label r) (geometry r) ∅) <$> rows t) false.

(** [pd.Series(range(len(t)), index=t.index)]: label and rank of each row. *)
Definition order_series (t : table) : list (Z * Z) :=
  zip (label <$> rows t) (Z.of_nat <$> seq 0 (length (rows t))).

(** [s.reindex(...)] at one label, for a series [s] whose index labels are
    unique: the value [s] has at [l]; pandas fills a label that is missing
    from the series with NaN. *)
Definition series_at (s : list (Z * Z)) (l : Z) : cell :=
  match list_find (λ p, p.1 = l) s with
  | Some (_, (_, v)) => CInt v
  | None => CNaN
  end.

(** The entries pandas fills the attribute columns of a new row with. *)
Definition nan_attrs (cols : list string) : gmap string cell :=
  list_to_map ((λ c, (c, CNaN)) <$> cols).

(** pandas' [DataFrame._ensure_valid_index], the first step of
    [t[col] = s]: a frame without rows takes over the index of a non-empty
    series that is assigned to it.  The frame then has one row per label of
    the series, and every column it already had, the geometry column
    included, holds missing values. *)
Definition adopt_index (t : table) (s : list (Z * Z)) : table :=
  match rows t, s with
  | [], _ :: _ =>
      Table (cls t) (name t) (crs t) (columns t)
            ((λ p, Row p.1 missing (nan_attrs (columns t))) <$> s)
            (sindex_built t)
  | _, _ => t
  end.

(** pandas' [_reindex_for_setitem], the second step: the values the new
    column gets, row by row.  When the series has the very index of the
    frame its values are taken by position.  Otherwise the series is
    reindexed by the labels of the frame, which pandas refuses ([None]:
    ValueError) when the index of the series holds a label twice. *)
Definition aligned (t : table) (s : list (Z * Z)) : option (list cell) :=
  if bool_decide (s.*1 = label <$> rows t) then Some (CInt <$> s.*2)
  else if bool_decide (NoDup s.*1) then Some ((λ r, series_at s (label r)) <$> rows t)
  else None.

(** The frame with [vs] as its column [col]: the column is added when
    absent and overwritten otherwise. *)
Definition set_values (t : table) (col : string) (vs : list cell) : table :=
  Table (cls t) (name t) (crs t)
        (if bool_decide (col ∈ columns t) then columns t else columns t ++ [col])
        (zip_with (λ r v, Row (label r) (geometry r) (<[col := v]> (attrs r)))
                  (rows t) vs)
        (sindex_built t).

(** [t[col] = s] for an attribute column [col] and a series [s] of numbers
    (pandas' [DataFrame.__setitem__]); [None] when pandas raises
    ValueError. *)
Definition set_column (t : table) (col : string) (s : list (Z * Z)) : option table :=
  set_values (adopt_index t s) col <$> aligned (adopt_index t s) s.

(** [t.drop(columns=col)] for an attribute column [col]. *)
Definition drop_column (t : table) (col : string) : table :=
  Table (cls t) (name t) (crs t)
        (filter (λ c, c ≠ col) (columns t))
        ((λ r, Row (label r) (geometry r) (delete col (attrs r))) <$> rows t)
        false.

(** The sort key of a row: the number in column [col], if any. *)
Definition sort_key (col : string) (r : row) : option Z :=
  match attrs r !! col with
  | Some (CInt z) => Some z
  | _ => None
  end.

(** Ascending order on keys with missing values last. *)
Definition key_le (a b : option Z) : bool :=
  match a, b with
  | Some x, Some y => bool_decide (x ≤ y)%Z
  | _, None => true
  | None, Some _ => false
  end.

Fixpoint insert_by (col : string) (x : row) (l : list row) : list row :=
  match l with
  | [] => [x]
  | y :: l' =>
      if key_le (sort_key col x) (sort_key col y) then x :: y :: l'
      else y :: insert_by col x l'
  end.

(** Modelled from the spec: [sort_values(by=col)] (pandas) sorts the rows by
    the rank column; rows of equal rank keep their relative order (Section
    4.5: "stable, not re-ordered"). *)
Definition sort_rows (col : string) (l : list row) : list row :=
  foldr (insert_by col) [] l.

Definition sort_values (t : table) (col : string) : table :=
  with_rows t (sort_rows col (rows t)).

(** ** Python values, the object store and effects *)

(** A Python value handed to the module: a reference to a GeoDataFrame or
    GeoSeries object in the store, a shapely geometry (immutable, held by
    value), or an object of any other type, given by the text Python prints
    for its type. *)
Inductive value := Ref (r : nat) | Shape (g : BaseGeometry) | Other (ty : string).

Inductive pytype := TGeoDataFrame | TGeoSeries | TPolygon | TMultiPolygon | TOther.

#[global] Instance pytype_eq_dec : EqDecision pytype.
Proof. solve_decision. Defined.

(** What the module does that its caller can observe besides the result:
    warnings, and calls into the geometry engine and the spatial index. *)
Inductive event :=
  | Warn (msg : string)
  | CallTotalBounds
  | CallBounds
  | CallUnaryUnion
  | CallSindexQuery
  | CallIntersection
  | CallExplode.

Inductive exn :=
  | TypeError (msg : string)
  | ValueError (msg : string)
  | AttributeError
  | IndexError.

Record state := State { heap : list table; log : list event }.

(** How a computation ends: with a value, with a Python exception, or
    [Unmodelled], at a step whose effect the tables of this development
    cannot hold: the assignment of numbers to the geometry column of a
    frame, and the removal of that column.  What happens there is decided
    by [GeoDataFrame.__setitem__], which is not part of the module; nothing
    is stated about a run from that step on. *)
Inductive outcome (A : Type) := Ok (a : A) | Raise (e : exn) | Unmodelled.
Arguments Ok {A} a.
Arguments Raise {A} e.
Arguments Unmodelled {A}.

Definition Py (A : Type) : Type := state → outcome A * state.

Definition ret {A : Type} (a : A) : Py A := λ s, (Ok a, s).

(** Sequencing: an exception raised by the first computation ends the
    whole computation, keeping the effects that happened before it. *)
Definition bind {A B : Type} (m : Py A) (f : A → Py B) : Py B :=
  λ s, match m s with
       | (Ok a, s') => f a s'
       | (Raise e, s') => (Raise e, s')
       | (Unmodelled, s') => (Unmodelled, s')
       end.

Declare Scope py_scope.
Delimit Scope py_scope with py.
Notation "x ← y ; z" := (bind y (λ x, z))
  (at level 20, y at level 100, z at level 200, only parsing) : py_scope.
Notation "x ;; z" := (bind x (λ _, z))
  (at level 100, z at level 200, only parsing, right associativity) : py_scope.
Local Open Scope py_scope.

Definition raise {A : Type} (e : exn) : Py A := λ s, (Raise e, s).

Definition unmodelled {A : Type} : Py A := λ s, (Unmodelled, s).

Definition emit (e : event) : Py unit :=
  λ s, (Ok (), State (heap s) (log s ++ [e])).

Definition warn (msg : string) : Py unit := emit (Warn msg).

(** A new object is placed at the end of the store. *)
Definition alloc (t : table) : Py value :=
  λ s, (Ok (Ref (length (heap s))), State (heap s ++ [t]) (log s)).

(** Reading through a value that is not a collection fails as attribute
    access does in Python. *)
Definition deref (v : value) : Py table :=
  λ s, match v with
       | Ref r => match heap s !! r with
                  | Some t => (Ok t, s)
                  | None => (Raise AttributeError, s)
                  end
       | _ => (Raise AttributeError, s)
       end.

(** In-place update of the object behind a reference. *)
Definition update (v : value) (t : table) : Py unit :=
  λ s, match v with
       | Ref r => (Ok (), State (<[r := t]> (heap s)) (log s))
       | _ => (Raise AttributeError, s)
       end.

Definition as_shape (v : value) : Py BaseGeometry :=
  λ s, match v with
       | Shape g => (Ok g, s)
       | _ => (Raise AttributeError, s)
       end.

Definition type_of (s : state) (v : value) : pytype :=
  match v with
  | Ref r => match heap s !! r with
             | Some t => match cls t with
                         | GeoDataFrame => TGeoDataFrame
                         | GeoSeries => TGeoSeries
                         end
             | None => TOther
             end
  | Shape g => match geom_type g with
               | Polygon => TPolygon
               | MultiPolygon => TMultiPolygon
               | _ => TOther
               end
  | Other _ => TOther
  end.

(** The class of shapely that carries a type name. *)
Definition shapely_class (k : geom_kind) : string :=
  match k with
  | Point => "<class 'shapely.geometry.point.Point'>"
  | MultiPoint => "<class 'shapely.geometry.multipoint.MultiPoint'>"
  | LineString => "<class 'shapely.geometry.linestring.LineString'>"
  | MultiLineString => "<class 'shapely.geometry.multilinestring.MultiLineString'>"
  | LinearRing => "<class 'shapely.geometry.polygon.LinearRing'>"
  | Polygon => "<class 'shapely.geometry.polygon.Polygon'>"
  | MultiPolygon => "<class 'shapely.geometry.multipolygon.MultiPolygon'>"
  | GeometryCollection => "<class 'shapely.geometry.collection.GeometryCollection'>"
  | NoType => "<class 'NoneType'>"
  end.

(** [str(type(v))], the text [format] puts in place of the braces.  A
    reference that is not in the store stands for an object of which
    nothing is known. *)
Definition type_text (s : state) (v : value) : string :=
  match v with
  | Ref r => match heap s !! r with
             | Some t => match cls t with
                         | GeoDataFrame => "<class 'geopandas.geodataframe.GeoDataFrame'>"
                         | GeoSeries => "<class 'geopandas.geoseries.GeoSeries'>"
                         end
             | None => "<class 'object'>"
             end
  | Shape g => shapely_class (geom_type g)
  | Other ty => ty
  end.

Definition type_text_of (v : value) : Py string :=
  λ s, (Ok (type_text s v), s).

Definition isinstance (v : value) (tys : list pytype) : Py bool :=
  λ s, (Ok (bool_decide (type_of s v ∈ tys)), s).

(** *** The container and engine operations as effects *)

Definition total_bounds_of (v : value) : Py bbox :=
  t ← deref v; emit CallTotalBounds;; ret (total_bounds t).

Definition bounds_of (v : value) : Py bbox :=
  g ← as_shape v; emit CallBounds;; ret (bounds g).

Definition geom_type_of (v : value) : Py (list geom_kind) :=
  t ← deref v; ret (geom_types t).

(** [v.sindex.query(poly, predicate="intersects")]: the index is built on
    first use and cached on the object. *)
Definition sindex_query_of (v poly : value) : Py (list nat) :=
  t ← deref v;
  g ← as_shape poly;
  update v (with_sindex t);;
  emit CallSindexQuery;;
  ret (sindex_query (geometry <$> rows t) g).

Definition iloc_of (v : value) (idx : list nat) : Py value :=
  t ← deref v;
  match iloc t idx with
  | Some t' => alloc t'
  | None => raise IndexError
  end.

(** [v.iloc[:n]] *)
Definition iloc_head_of (v : value) (n : nat) : Py value :=
  t ← deref v; alloc (with_rows t (take n (rows t))).

Definition copy_of (v : value) : Py value :=
  t ← deref v; alloc (with_rows t (rows t)).

Definition intersection_of (v poly : value) : Py value :=
  t ← deref v;
  g ← as_shape poly;
  emit CallIntersection;;
  alloc (intersection_series t g).

Definition geometry_name_of (v : value) : Py (option string) :=
  t ← deref v; ret (name t).

(** [v[col] = w] for the geometry column [col] of [v] and a GeoSeries [w]. *)
Definition setitem_geometry (v : value) (col : option string) (w : value) : Py unit :=
  t ← deref v;
  s ← deref w;
  if bool_decide (col = name t) then update v (set_geometries t s)
  else raise AttributeError.

Definition unary_union_of (v : value) : Py value :=
  t ← deref v;
  emit CallUnaryUnion;;
  ret (Shape (unary_union (geometry <$> rows t))).

Definition explode_of (v : value) : Py value :=
  t ← deref v; emit CallExplode;; alloc (explode t).

Definition loc_isin_of (v : value) (kinds : list geom_kind) : Py value :=
  t ← deref v; alloc (loc_isin t kinds).

Definition order_series_of (v : value) : Py (list (Z * Z)) :=
  t ← deref v; ret (order_series t).

Definition duplicate_axis_message : string :=
  "cannot reindex from a duplicate axis".

(** [v[col] = s] for a series [s] of numbers: the frame is changed in
    place.  When [col] is the geometry column of the frame the assignment
    goes beyond the tables of this development. *)
Definition setitem (v : value) (col : string) (s : list (Z * Z)) : Py unit :=
  t ← deref v;
  if bool_decide (name t = Some col) then unmodelled
  else match set_column t col s with
       | Some t' => update v t'
       | None => raise (ValueError duplicate_axis_message)
       end.

Definition sort_values_of (v : value) (col : string) : Py value :=
  t ← deref v; alloc (sort_values t col).

(** [v.drop(columns=col)]: a new frame.  Dropping the geometry column goes
    beyond the tables of this development. *)
Definition drop_of (v : value) (col : string) : Py value :=
  t ← deref v;
  if bool_decide (name t = Some col) then unmodelled
  else alloc (drop_column t col).

Definition geometry_attr (v : value) : Py value :=
  t ← deref v; alloc (geometry_of t).

Definition GeoDataFrame_of_geometry (v : value) : Py value :=
  t ← deref v; alloc (frame_of_series t).

Definition empty_of (v : value) : Py bool :=
  t ← deref v; ret (bool_decide (rows t = [])).

(** [xs.iloc[0]] *)
Definition iloc0 {A : Type} (xs : list A) : Py A :=
  match xs with
  | x :: _ => ret x
  | [] => raise IndexError
  end.

(** [(xs == k).any()] and [xs.isin(ks).any()] *)
Definition any_eq (xs : list geom_kind) (k : geom_kind) : bool :=
  existsb (λ x, bool_decide (x = k)) xs.

Definition any_isin (xs : list geom_kind) (ks : list geom_kind) : bool :=
  existsb (λ x, isin x ks) xs.

(** Modelled from the spec: [_check_crs] and [_crs_mismatch_warn] live in
    geopandas.array, not under src/.  Section 7 (CrsMismatch): when input and
    mask carry different coordinate-reference metadata a diagnostic is
    emitted and the operation proceeds. *)
Definition _check_crs (gdf mask : value) : Py bool :=
  g ← deref gdf; m ← deref mask; ret (bool_decide (crs g = crs m)).

Definition crs_mismatch_message : string :=
  "CRS mismatch between the CRS of left geometries and the CRS of right geometries.".

Definition _crs_mismatch_warn (gdf mask : value) : Py unit :=
  warn crs_mismatch_message.

(** ** The functions of clip.py *)

Definition _clip_gdf_with_polygon (gdf poly : value) : Py value :=
  idx ← sindex_query_of gdf poly;
  gdf_sub ← iloc_of gdf idx;
  is_frame ← isinstance gdf_sub [TGeoDataFrame];
  if is_frame then
    clipped ← copy_of gdf_sub;
    col ← geometry_name_of gdf;
    inter ← intersection_of gdf_sub poly;
    setitem_geometry clipped col inter;;
    ret clipped
  else
    intersection_of gdf_sub poly.

(** ["... got {}".format(x)]: the text with [x] in place of the braces. *)
Definition format_got (prefix x : string) : string := prefix +:+ x.

Definition _validate_input_gdf (gdf : value) : Py unit :=
  ok ← isinstance gdf [TGeoDataFrame; TGeoSeries];
  if negb ok then
    ty ← type_text_of gdf;
    raise (TypeError (format_got "'gdf' should be GeoDataFrame or GeoSeries, got " ty))
  else ret ().

Definition _validate_input_mask (mask : value) : Py unit :=
  ok ← isinstance mask [TGeoDataFrame; TGeoSeries; TPolygon; TMultiPolygon];
  if negb ok then
    ty ← type_text_of mask;
    raise (TypeError
             (format_got "'mask' should be GeoDataFrame, GeoSeries or(Multi)Polygon, got "
                         ty))
  else ret ().

Definition _warn_if_crs_mismatch (gdf mask : value) : Py unit :=
  is_coll ← isinstance mask [TGeoDataFrame; TGeoSeries];
  if is_coll then
    same ← _check_crs gdf mask;
    if negb same then _crs_mismatch_warn gdf mask else ret ()
  else ret ().

Definition _validate_inputs (gdf mask : value) : Py unit :=
  _validate_input_gdf gdf;;
  _validate_input_mask mask;;
  _warn_if_crs_mismatch gdf mask.

Definition _contains_geometrycollection (gdf : value) : Py bool :=
  ts ← geom_type_of gdf; ret (any_eq ts GeometryCollection).

Definition count_families (ts : list geom_kind) : nat :=
  sum_list ((λ fam, if any_isin ts fam then 1 else 0) <$> _GEOMETRY_TYPES).

Definition _get_number_of_unique_geometry_types (gdf : value) : Py nat :=
  ts ← geom_type_of gdf; ret (count_families ts).

Definition geometrycollection_message : string :=
  "keep_geom_type can not be called on a GeoDataFrame with GeometryCollection.".

Definition mixed_type_message : string :=
  "keep_geom_type can not be called on a mixed type GeoDataFrame.".

Definition _keeping_geometry_type_is_possible (gdf : value) : Py bool :=
  has_collection ← _contains_geometrycollection gdf;
  if has_collection then
    warn geometrycollection_message;; ret false
  else
    number_of_unique_geometry_types ← _get_number_of_unique_geometry_types gdf;
    if bool_decide (1 < number_of_unique_geometry_types) then
      warn mixed_type_message;; ret false
    else ret true.

Definition _get_mask_bounding_box (mask : value) : Py bbox :=
  is_coll ← isinstance mask [TGeoDataFrame; TGeoSeries];
  if is_coll then total_bounds_of mask else bounds_of mask.

(** The closed-interval overlap test of the two boxes. *)
Definition boxes_overlap (box_gdf box_mask : bbox) : bool :=
  let x_overlaps :=
    coord_le (minx box_mask) (maxx box_gdf) && coord_le (minx box_gdf) (maxx box_mask) in
  let y_overlaps :=
    coord_le (miny box_mask) (maxy box_gdf) && coord_le (miny box_gdf) (maxy box_mask) in
  x_overlaps && y_overlaps.

Definition _input_bounding_boxes_intersect (gdf mask : value) : Py bool :=
  box_gdf ← total_bounds_of gdf;
  box_mask ← _get_mask_bounding_box mask;
  ret (boxes_overlap box_gdf box_mask).

Definition _empty_from_gdf (gdf : value) : Py value :=
  iloc_head_of gdf 0.

Definition _create_mask_polygon (mask : value) : Py value :=
  is_coll ← isinstance mask [TGeoDataFrame; TGeoSeries];
  if is_coll then unary_union_of mask else ret mask.

Definition _keep_only_original_geom_type
    (clipped_gdf : value) (original_type : geom_kind) : Py value :=
  ts ← geom_type_of clipped_gdf;
  let new_collections_were_created := any_eq ts GeometryCollection in
  unique_geom_count_clipped ← _get_number_of_unique_geometry_types clipped_gdf;
  let type_count_has_increased := bool_decide (1 < unique_geom_count_clipped) in
  if new_collections_were_created || type_count_has_increased then
    clipped_gdf ← (if new_collections_were_created return Py value
                   then explode_of clipped_gdf else ret clipped_gdf);
    if isin original_type _LINE_TYPES then loc_isin_of clipped_gdf _LINE_TYPES
    else if isin original_type _POLYGON_TYPES then loc_isin_of clipped_gdf _POLYGON_TYPES
    else ret clipped_gdf
  else ret clipped_gdf.

Definition _recreate_initial_order (original_gdf clipped_gdf : value) : Py value :=
  order ← order_series_of original_gdf;
  is_frame ← isinstance clipped_gdf [TGeoDataFrame];
  if is_frame then
    setitem clipped_gdf "_order" order;;
    sorted ← sort_values_of clipped_gdf "_order";
    drop_of sorted "_order"
  else
    clipped_gdf ← GeoDataFrame_of_geometry clipped_gdf;
    setitem clipped_gdf "_order" order;;
    sorted ← sort_values_of clipped_gdf "_order";
    geometry_attr sorted.

Definition clip (gdf mask : value) (keep_geom_type : bool) : Py value :=
  _validate_inputs gdf mask;;
  overlap ← _input_bounding_boxes_intersect gdf mask;
  if negb overlap then _empty_from_gdf gdf
  else
    mask_polygon ← _create_mask_polygon mask;
    clipped_gdf ← _clip_gdf_with_polygon gdf mask_polygon;
    is_empty ← empty_of clipped_gdf;
    if is_empty then _empty_from_gdf gdf
    else
      keeping_geometry_type_is_possible ←
        (if keep_geom_type then _keeping_geometry_type_is_possible gdf
         else ret false);
      clipped_gdf ←
        (if keeping_geometry_type_is_possible then
           ts ← geom_type_of gdf;
           original_type ← iloc0 ts;
           _keep_only_original_geom_type clipped_gdf original_type
         else ret clipped_gdf);
      _recreate_initial_order gdf clipped_gdf.

(** ** What the functions compute

    The definitions below describe, as plain functions of the collections
    involved, what each function of the module returns, which objects it
    creates and which events it logs.  The lemmas of the second part prove
    that the functions of the module compute exactly these. *)

(** *** Accepted arguments *)

(** The input is accepted when it is a GeoDataFrame or a GeoSeries. *)
Definition valid_gdf (s : state) (gdf : value) : Prop :=
  type_of s gdf ∈ [TGeoDataFrame; TGeoSeries].

(** The mask is accepted when it is a GeoDataFrame, a GeoSeries, a Polygon
    or a MultiPolygon. *)
Definition valid_mask (s : state) (mask : value) : Prop :=
  type_of s mask ∈ [TGeoDataFrame; TGeoSeries; TPolygon; TMultiPolygon].

Definition is_collection (s : state) (v : value) : bool :=
  bool_decide (type_of s v ∈ [TGeoDataFrame; TGeoSeries]).

(** The warnings of input validation: the CRS of a mask collection is
    compared with the CRS of the input. *)
Definition crs_warnings (s : state) (t : table) (mask : value) : list event :=
  match mask with
  | Ref m => match heap s !! m with
             | Some tm => if bool_decide (crs t = crs tm) then []
                          else [Warn crs_mismatch_message]
             | None => []
             end
  | _ => []
  end.

(** The bounding box of an accepted mask. *)
Definition mask_bounds (s : state) (mask : value) : bbox :=
  match mask with
  | Ref m => from_option total_bounds nan_box (heap s !! m)
  | Shape g => bounds g
  | Other _ => nan_box
  end.

(** The engine call that yields the bounding box of the mask. *)
Definition mask_bounds_event (mask : value) : event :=
  match mask with
  | Ref _ => CallTotalBounds
  | _ => CallBounds
  end.

(** The polygon an accepted mask resolves to. *)
Definition resolved_mask (s : state) (mask : value) : option BaseGeometry :=
  match mask with
  | Ref m => (λ tm, unary_union (geometry <$> rows tm)) <$> heap s !! m
  | Shape g => Some g
  | Other _ => None
  end.

Definition mask_union_events (mask : value) : list event :=
  match mask with
  | Ref _ => [CallUnaryUnion]
  | _ => []
  end.

(** *** The clipping step *)

(** The positions returned by the spatial index and the rows they select,
    in the order of the index. *)
Definition candidates (t : table) (poly : BaseGeometry) : list nat :=
  sindex_query (geometry <$> rows t) poly.

Definition selected_rows (t : table) (poly : BaseGeometry) : list row :=
  omap (λ i, rows t !! i) (candidates t poly).

Definition selected (t : table) (poly : BaseGeometry) : table :=
  with_rows t (selected_rows t poly).

(** The collection [_clip_gdf_with_polygon] returns. *)
Definition clipped_table (t : table) (poly : BaseGeometry) : table :=
  match cls t with
  | GeoDataFrame =>
      set_geometries (with_rows (selected t poly) (rows (selected t poly)))
                     (intersection_series (selected t poly) poly)
  | GeoSeries => intersection_series (selected t poly) poly
  end.

(** The objects [_clip_gdf_with_polygon] creates, in order of creation. *)
Definition clip_objects (t : table) (poly : BaseGeometry) : list table :=
  match cls t with
  | GeoDataFrame =>
      [selected t poly; clipped_table t poly;
       intersection_series (selected t poly) poly]
  | GeoSeries => [selected t poly; clipped_table t poly]
  end.

(** *** The type-keeping check *)

Definition has_collection (t : table) : bool :=
  any_eq (geom_types t) GeometryCollection.

Definition is_mixed (t : table) : bool :=
  bool_decide (1 < count_families (geom_types t)).

Definition keeping_possible (t : table) : bool :=
  negb (has_collection t) && negb (is_mixed t).

Definition keeping_warnings (t : table) : list event :=
  if has_collection t then [Warn geometrycollection_message]
  else if is_mixed t then [Warn mixed_type_message]
  else [].

(** *** Type reconciliation *)

Definition needs_reconciliation (tc : table) : bool :=
  has_collection tc || is_mixed tc.

Definition exploded (tc : table) : table :=
  if has_collection tc then explode tc else tc.

Definition filtered (tc : table) (original_type : geom_kind) : table :=
  if isin original_type _LINE_TYPES then loc_isin (exploded tc) _LINE_TYPES
  else if isin original_type _POLYGON_TYPES then loc_isin (exploded tc) _POLYGON_TYPES
  else exploded tc.

(** The collection [_keep_only_original_geom_type] returns. *)
Definition reconciled (tc : table) (original_type : geom_kind) : table :=
  if needs_reconciliation tc then filtered tc original_type else tc.

(** The objects it creates, in order of creation. *)
Definition keep_objects (tc : table) (original_type : geom_kind) : list table :=
  if needs_reconciliation tc then
    (if has_collection tc then [explode tc] else []) ++
    (if isin original_type _LINE_TYPES || isin original_type _POLYGON_TYPES
     then [filtered tc original_type] else [])
  else [].

Definition keep_events (tc : table) : list event :=
  if has_collection tc then [CallExplode] else [].

(** *** Restoring the initial order *)

(** The frame that receives the helper column: the clipped frame itself, or
    a new frame built around a clipped series. *)
Definition framed (tc : table) : table :=
  match cls tc with
  | GeoDataFrame => tc
  | GeoSeries => frame_of_series tc
  end.

(** The frame with the values of [s] as its column [col], every row taking
    the value [s] has at its label. *)
Definition assign_by_label (t : table) (col : string) (s : list (Z * Z)) : table :=
  Table (cls t) (name t) (crs t)
        (if bool_decide (col ∈ columns t) then columns t else columns t ++ [col])
        ((λ r, Row (label r) (geometry r) (<[col := series_at s (label r)]> (attrs r)))
           <$> rows t)
        (sindex_built t).

(** That frame with the helper column, when the index labels of the
    original collection are unique: a frame without rows has taken over
    the index of the original collection, and every row carries the rank
    of its label. *)
Definition ranked (t tc : table) : table :=
  assign_by_label (adopt_index (framed tc) (order_series t)) "_order" (order_series t).

(** The collection [_recreate_initial_order] returns. *)
Definition restored (t tc : table) : table :=
  match cls tc with
  | GeoDataFrame => drop_column (sort_values (ranked t tc) "_order") "_order"
  | GeoSeries => geometry_of (sort_values (ranked t tc) "_order")
  end.

(** The store after [_recreate_initial_order]: a clipped frame is updated
    in place and two objects are created; for a clipped series three
    objects are created. *)
Definition restore_heap (h : list table) (c : nat) (t tc : table) : list table :=
  match cls tc with
  | GeoDataFrame =>
      <[c := ranked t tc]> h ++ [sort_values (ranked t tc) "_order"; restored t tc]
  | GeoSeries =>
      h ++ [ranked t tc; sort_values (ranked t tc) "_order"; restored t tc]
  end.

Definition restore_ref (h : list table) (tc : table) : nat :=
  match cls tc with
  | GeoDataFrame => S (length h)
  | GeoSeries => S (S (length h))
  end.

(** *** The whole pipeline *)

(** Whether the total bounds of the input and of the mask overlap. *)
Definition overlap (s : state) (t : table) (mask : value) : bool :=
  boxes_overlap (total_bounds t) (mask_bounds s mask).

(** The events of validation and of the bounding-box test. *)
Definition front_events (s : state) (t : table) (mask : value) : list event :=
  crs_warnings s t mask ++ [CallTotalBounds; mask_bounds_event mask].

(** The events up to and including the clipping step. *)
Definition clipping_events (s : state) (t : table) (mask : value) : list event :=
  front_events s t mask ++ mask_union_events mask ++
  [CallSindexQuery; CallIntersection].

(** [gdf.geom_type.iloc[0]] on a collection that has a first row. *)
Definition original_type (t : table) : geom_kind :=
  default GeometryCollection (head (geom_types t)).

(** *** What the pipeline leaves of the store it was given *)

(** Every object of [h] is still in [h'], at the same reference and with
    the same data. *)
Definition preserves (h h' : list table) : Prop :=
  ∀ i u, h !! i = Some u → ∃ u', h' !! i = Some u' ∧ same_data u u'.

(** The collection the pipeline hands to [_recreate_initial_order]. *)
Definition kept (t : table) (poly : BaseGeometry) (keep_geom_type : bool) : table :=
  if keep_geom_type && keeping_possible t
  then reconciled (clipped_table t poly) (original_type t)
  else clipped_table t poly.

(** The events of the type-keeping stage. *)
Definition keeping_events (t : table) (poly : BaseGeometry) (keep_geom_type : bool)
    : list event :=
  if keep_geom_type then
    keeping_warnings t ++
    (if keeping_possible t then keep_events (clipped_table t poly) else [])
  else [].

(** The collection [clip] returns on accepted arguments. *)
Definition clip_table (s : state) (t : table) (mask : value) (keep_geom_type : bool)
    : table :=
  match resolved_mask s mask with
  | Some poly =>
      if overlap s t mask && negb (bool_decide (rows (clipped_table t poly) = []))
      then restored t (kept t poly keep_geom_type)
      else with_rows t []
  | None => with_rows t []
  end.

(** *** The order of the sort keys *)

Definition key_rel (col : string) (x y : row) : Prop :=
  key_le (sort_key col x) (sort_key col y) = true.

(** One candidate row after intersection with the mask polygon. *)
Definition clip_row (c : pandas_class) (poly : BaseGeometry) (r : row) : row :=
  match c with
  | GeoDataFrame => with_geometry r (intersection (geometry r) poly)
  | GeoSeries => Row (label r) (intersection (geometry r) poly) ∅
  end.

(** The rank pandas aligns to a label, as a sort key. *)
Definition rank_of (t : table) (l : Z) : option Z :=
  match series_at (order_series t) l with
  | CInt v => Some v
  | _ => None
  end.

Definition rank_row (t : table) (r : row) : row :=
  Row (label r) (geometry r)
      (<["_order" := series_at (order_series t) (label r)]> (attrs r)).

Definition strip_order (r : row) : row :=
  Row (label r) (geometry r) (delete "_order" (attrs r)).

Definition bare (r : row) : row := Row (label r) (geometry r) ∅.

(** The rows that are sorted: the rows of the frame that receives the
    helper column, with their rank attached. *)
Definition ranked_rows (t tc : table) : list row :=
  rank_row t <$> rows (adopt_index (framed tc) (order_series t)).

(** The rows a clipping result without rows comes back with: one row per
    original row, without geometry and without attribute values. *)
Definition hollow_rows (t : table) : list row :=
  (λ o, Row (label o) missing
            (match cls t with
             | GeoDataFrame => delete "_order" (nan_attrs (columns t))
             | GeoSeries => ∅
             end)) <$> rows t.

Definition unrank (c : pandas_class) : row → row :=
  match c with
  | GeoDataFrame => strip_order
  | GeoSeries => bare
  end.

(** *** Acceptance is decidable *)

#[global] Instance valid_gdf_dec (s : state) (v : value) : Decision (valid_gdf s v).
Proof. unfold valid_gdf. apply _. Defined.

#[global] Instance valid_mask_dec (s : state) (v : value) : Decision (valid_mask s v).
Proof. unfold valid_mask. apply _. Defined.

(** The geometry types of the raw intersection result, row by row. *)
Definition raw_types (t : table) (poly : BaseGeometry) : list geom_kind :=
  (λ x, geom_type (intersection (geometry x) poly)) <$>
    filter (λ x, intersects (geometry x) poly = true) (rows t).

(** What one original row becomes in the result when nothing is exploded
    or filtered: its label, its intersection with the mask polygon, and its
    attributes without the helper column (none for a series). *)
Definition clipped_row_of (c : pandas_class) (poly : BaseGeometry) (o : row) : row :=
  Row (label o) (intersection (geometry o) poly)
      (match c with
       | GeoDataFrame => delete "_order" (attrs o)
       | GeoSeries => ∅
       end).

(** The rows of the collection a run returned (none when it raised). *)
Definition result_rows (res : outcome value * state) : list row :=
  match res.1 with
  | Ok (Ref n) => from_option rows [] (heap res.2 !! n)
  | _ => []
  end.

End Clip.


Arguments Ok {A} a.
Arguments Raise {A} e.
Arguments Unmodelled {A}.

(** ** A concrete geometry engine: unions of axis-aligned boxes

    Geometries are finite unions of closed axis-aligned boxes with integer
    corners.  A box of zero width and height is a point, a box that is flat
    in one direction is a segment, any other box is a rectangle.  The
    intersection of two such geometries is computed box by box.  The entry
    of a geometry column is such a union or nothing at all.  The engine
    instantiates the interface above and is used to run the module on
    concrete inputs. *)
Module Boxes.

Record box := Box { x0 : Z; y0 : Z; x1 : Z; y1 : Z }.

Definition region : Type := list box.

(** A geometry, or [None] for the missing geometry. *)
Definition shape : Type := option region.

Definition box_meet (a b : box) : option box :=
  let lx := Z.max (x0 a) (x0 b) in
  let ly := Z.max (y0 a) (y0 b) in
  let hx := Z.min (x1 a) (x1 b) in
  let hy := Z.min (y1 a) (y1 b) in
  if bool_decide (lx ≤ hx)%Z && bool_decide (ly ≤ hy)%Z
  then Some (Box lx ly hx hy) else None.

Definition region_meet (g h : region) : region :=
  g ≫= λ a, omap (box_meet a) h.

Definition meet (g h : shape) : shape :=
  match g, h with
  | Some a, Some b => Some (region_meet a b)
  | _, _ => None
  end.

Definition dim (b : box) : nat :=
  (if bool_decide (x0 b = x1 b) then 0 else 1) +
  (if bool_decide (y0 b = y1 b) then 0 else 1).

Definition single_kind (b : box) : geom_kind :=
  match dim b with
  | 0 => Point
  | 1 => LineString
  | _ => Polygon
  end.

Definition region_kind (g : region) : geom_kind :=
  match g with
  | [] => GeometryCollection
  | [b] => single_kind b
  | _ =>
      if forallb (λ b, bool_decide (dim b = 2)) g then MultiPolygon
      else if forallb (λ b, bool_decide (dim b = 1)) g then MultiLineString
      else if forallb (λ b, bool_decide (dim b = 0)) g then MultiPoint
      else GeometryCollection
  end.

Definition kind_of (g : shape) : geom_kind :=
  from_option region_kind NoType g.

Definition box_bounds (b : box) : bbox :=
  BBox (Num (inject_Z (x0 b))) (Num (inject_Z (y0 b)))
       (Num (inject_Z (x1 b))) (Num (inject_Z (y1 b))).

Definition region_bounds (g : region) : bbox :=
  foldr (λ b acc, box_union (box_bounds b) acc) nan_box g.

Definition shape_bounds (g : shape) : bbox :=
  from_option region_bounds nan_box g.

Definition meets (g h : shape) : bool :=
  match g, h with
  | Some a, Some b => bool_decide (region_meet a b ≠ [])
  | _, _ => false
  end.

(** The union of the geometries that are not missing. *)
Definition union (gs : list shape) : shape :=
  Some (concat (omap id gs)).

(** The constituents of a geometry; a missing geometry has none. *)
Definition pieces (g : shape) : list shape :=
  match g with
  | Some a => (λ b, Some [b]) <$> a
  | None => []
  end.

Definition query (gs : list shape) (poly : shape) : list nat :=
  reverse (intersecting_positions meets gs poly).

Definition engine : GeometryEngine := {|
  BaseGeometry := shape;
  missing := None;
  geom_type := kind_of;
  bounds := shape_bounds;
  intersects := meets;
  intersection := meet;
  unary_union := union;
  parts := pieces;
  sindex_query := query;
  sindex_query_spec := λ gs poly,
    reverse_Permutation (intersecting_positions meets gs poly);
  geom_type_missing := eq_refl;
  bounds_missing := eq_refl;
  intersects_missing := λ _, eq_refl;
  intersection_missing := λ _, eq_refl
|}.

End Boxes.

(** ** Concrete collections and runs of the module on them *)
Module Scenarios.
Import Boxes.
#[local] Existing Instance engine.

Definition rect (a b c d : Z) : shape := Some [Box a b c d].

Definition named (s : string) : gmap string cell := {[ "name"%string := CStr s ]}.

(** Three parcels with a name column. *)
Definition parcels : table :=
  Table GeoDataFrame (Some "geometry"%string) (Some "EPSG:4326"%string)
        ["name"%string]
        [Row 10 (rect 0 0 2 2) (named "A");
         Row 20 (rect 5 5 6 6) (named "B");
         Row 30 (rect 1 1 3 3) (named "C")]
        false.

(** One square parcel. *)
Definition square : table :=
  Table GeoDataFrame (Some "geometry"%string) None ["name"%string]
        [Row 0 (rect 0 0 2 2) (named "A")] false.

(** A point and a square: two geometry families. *)
Definition mixed : table :=
  Table GeoDataFrame (Some "geometry"%string) None ["name"%string]
        [Row 0 (rect 1 1 1 1) (named "P"); Row 1 (rect 0 0 2 2) (named "Q")]
        false.

(** A frame and a series without rows. *)
Definition no_parcels : table :=
  Table GeoDataFrame (Some "geometry"%string) None ["name"%string] [] false.

Definition no_features : table :=
  Table GeoSeries None None [] [] false.

(** A mask collection far away from the parcels, in another CRS. *)
Definition far_mask : table :=
  Table GeoSeries None (Some "EPSG:3857"%string) []
        [Row 0 (rect 10 10 11 11) ∅] false.

(** Two disjoint rectangles: one touches the square along its left edge,
    the other overlaps its right half. *)
Definition two_strips : shape := Some [Box (-1) 0 0 2; Box 1 0 3 2].

(** A rectangle that shares only the right edge of the square. *)
Definition neighbour : shape := rect 2 0 3 2.

(** Two fences: horizontal segments. *)
Definition fences : table :=
  Table GeoDataFrame (Some "geometry"%string) None ["name"%string]
        [Row 0 (rect 0 1 4 1) (named "north"); Row 1 (rect 0 0 4 0) (named "south")]
        false.

(** Two disjoint rectangles: one touches the fences at their left end, the
    other covers their right half. *)
Definition two_blocks : shape := Some [Box (-1) (-1) 0 2; Box 2 (-1) 5 2].

(** A mask collection of one rectangle, in the CRS of the parcels. *)
Definition strip_series : table :=
  Table GeoSeries None (Some "EPSG:4326"%string) [] [Row 0 (rect 1 0 3 2) ∅] false.

(** Two parcels that carry the same index label. *)
Definition twins : table :=
  Table GeoDataFrame (Some "geometry"%string) None ["name"%string]
        [Row 5 (rect 0 0 2 2) (named "A"); Row 5 (rect 5 5 6 6) (named "B")]
        false.

(** Two squares and a mask between them: the mask shares an edge with the
    first square and a corner with the second. *)
Definition touching : table :=
  Table GeoDataFrame (Some "geometry"%string) None ["name"%string]
        [Row 0 (rect 0 0 2 2) (named "A"); Row 1 (rect 3 2 5 4) (named "B")]
        false.

Definition between : shape := rect 2 0 3 2.

(** The square, with its geometry column named as the helper column. *)
Definition order_named : table :=
  Table GeoDataFrame (Some "_order"%string) None ["name"%string]
        [Row 0 (rect 0 0 2 2) (named "A")] false.

(** Two of the parcels, clipped and in the order of a spatial index. *)
Definition picked : table :=
  Table GeoDataFrame (Some "geometry"%string) (Some "EPSG:4326"%string)
        ["name"%string]
        [Row 30 (rect 1 1 3 2) (named "C"); Row 10 (rect 1 0 2 2) (named "A")]
        false.

End Scenarios.

(** * The module computes what the definitions describe *)

Section ClipProofs.
Context `{GeometryEngine}.

(** ** Running computations: the equations of the primitives *)

Lemma bind_ret {A B : Type} (a : A) (f : A → Py B) (s : state) :
  bind (ret a) f s = f a s.
Proof. reflexivity. Qed.

Lemma bind_ok {A B : Type} (m : Py A) (f : A → Py B) (s s' : state) (a : A) :
  m s = (Ok a, s') → bind m f s = f a s'.
Proof. unfold bind. intros ->. reflexivity. Qed.

Lemma bind_raise {A B : Type} (m : Py A) (f : A → Py B) (s s' : state) (e : exn) :
  m s = (Raise e, s') → bind m f s = (Raise e, s').
Proof. unfold bind. intros ->. reflexivity. Qed.

Lemma bind_assoc {A B C : Type} (m : Py A) (f : A → Py B) (g : B → Py C) (s : state) :
  bind (bind m f) g s = bind m (λ a, bind (f a) g) s.
Proof. unfold bind. destruct (m s) as [[a|e|] s']; reflexivity. Qed.

Lemma bind_unmodelled {A B : Type} (m : Py A) (f : A → Py B) (s s' : state) :
  m s = (Unmodelled, s') → bind m f s = (Unmodelled, s').
Proof. unfold bind. intros ->. reflexivity. Qed.

Lemma deref_run (r : nat) (t : table) (s : state) :
  heap s !! r = Some t → deref (Ref r) s = (Ok t, s).
Proof. unfold deref. intros ->. reflexivity. Qed.

Lemma type_of_ref (r : nat) (t : table) (s : state) :
  heap s !! r = Some t →
  type_of s (Ref r) = match cls t with
                      | GeoDataFrame => TGeoDataFrame
                      | GeoSeries => TGeoSeries
                      end.
Proof. unfold type_of. intros ->. reflexivity. Qed.

Lemma total_bounds_of_run (r : nat) (t : table) (s : state) :
  heap s !! r = Some t →
  total_bounds_of (Ref r) s =
    (Ok (total_bounds t), State (heap s) (log s ++ [CallTotalBounds])).
Proof.
  intros Hr. unfold total_bounds_of.
  rewrite (bind_ok _ _ _ _ _ (deref_run _ _ _ Hr)). reflexivity.
Qed.

Lemma bounds_of_run (g : BaseGeometry) (s : state) :
  bounds_of (Shape g) s = (Ok (bounds g), State (heap s) (log s ++ [CallBounds])).
Proof. reflexivity. Qed.

Lemma geom_type_of_run (r : nat) (t : table) (s : state) :
  heap s !! r = Some t → geom_type_of (Ref r) s = (Ok (geom_types t), s).
Proof.
  intros Hr. unfold geom_type_of.
  rewrite (bind_ok _ _ _ _ _ (deref_run _ _ _ Hr)). reflexivity.
Qed.

Lemma sindex_query_of_run (r : nat) (t : table) (g : BaseGeometry) (s : state) :
  heap s !! r = Some t →
  sindex_query_of (Ref r) (Shape g) s =
    (Ok (sindex_query (geometry <$> rows t) g),
     State (<[r := with_sindex t]> (heap s)) (log s ++ [CallSindexQuery])).
Proof.
  intros Hr. unfold sindex_query_of.
  rewrite (bind_ok _ _ _ _ _ (deref_run _ _ _ Hr)). reflexivity.
Qed.

Lemma iloc_of_run (r : nat) (t t' : table) (idx : list nat) (s : state) :
  heap s !! r = Some t → iloc t idx = Some t' →
  iloc_of (Ref r) idx s =
    (Ok (Ref (length (heap s))), State (heap s ++ [t']) (log s)).
Proof.
  intros Hr Hi. unfold iloc_of.
  rewrite (bind_ok _ _ _ _ _ (deref_run _ _ _ Hr)), Hi. reflexivity.
Qed.

Lemma iloc_head_of_run (r : nat) (t : table) (n : nat) (s : state) :
  heap s !! r = Some t →
  iloc_head_of (Ref r) n s =
    (Ok (Ref (length (heap s))),
     State (heap s ++ [with_rows t (take n (rows t))]) (log s)).
Proof.
  intros Hr. unfold iloc_head_of.
  rewrite (bind_ok _ _ _ _ _ (deref_run _ _ _ Hr)). reflexivity.
Qed.

Lemma copy_of_run (r : nat) (t : table) (s : state) :
  heap s !! r = Some t →
  copy_of (Ref r) s =
    (Ok (Ref (length (heap s))), State (heap s ++ [with_rows t (rows t)]) (log s)).
Proof.
  intros Hr. unfold copy_of.
  rewrite (bind_ok _ _ _ _ _ (deref_run _ _ _ Hr)). reflexivity.
Qed.

Lemma intersection_of_run (r : nat) (t : table) (g : BaseGeometry) (s : state) :
  heap s !! r = Some t →
  intersection_of (Ref r) (Shape g) s =
    (Ok (Ref (length (heap s))),
     State (heap s ++ [intersection_series t g]) (log s ++ [CallIntersection])).
Proof.
  intros Hr. unfold intersection_of.
  rewrite (bind_ok _ _ _ _ _ (deref_run _ _ _ Hr)). reflexivity.
Qed.

Lemma geometry_name_of_run (r : nat) (t : table) (s : state) :
  heap s !! r = Some t → geometry_name_of (Ref r) s = (Ok (name t), s).
Proof.
  intros Hr. unfold geometry_name_of.
  rewrite (bind_ok _ _ _ _ _ (deref_run _ _ _ Hr)). reflexivity.
Qed.

Lemma setitem_geometry_run (r w : nat) (t u : table) (col : option string) (s : state) :
  heap s !! r = Some t → heap s !! w = Some u → col = name t →
  setitem_geometry (Ref r) col (Ref w) s =
    (Ok (), State (<[r := set_geometries t u]> (heap s)) (log s)).
Proof.
  intros Hr Hw ->. unfold setitem_geometry.
  rewrite (bind_ok _ _ _ _ _ (deref_run _ _ _ Hr)).
  rewrite (bind_ok _ _ _ _ _ (deref_run _ _ _ Hw)).
  rewrite bool_decide_eq_true_2 by reflexivity. reflexivity.
Qed.

Lemma unary_union_of_run (r : nat) (t : table) (s : state) :
  heap s !! r = Some t →
  unary_union_of (Ref r) s =
    (Ok (Shape (unary_union (geometry <$> rows t))),
     State (heap s) (log s ++ [CallUnaryUnion])).
Proof.
  intros Hr. unfold unary_union_of.
  rewrite (bind_ok _ _ _ _ _ (deref_run _ _ _ Hr)). reflexivity.
Qed.

Lemma explode_of_run (r : nat) (t : table) (s : state) :
  heap s !! r = Some t →
  explode_of (Ref r) s =
    (Ok (Ref (length (heap s))),
     State (heap s ++ [explode t]) (log s ++ [CallExplode])).
Proof.
  intros Hr. unfold explode_of.
  rewrite (bind_ok _ _ _ _ _ (deref_run _ _ _ Hr)). reflexivity.
Qed.

Lemma loc_isin_of_run (r : nat) (t : table) (ks : list geom_kind) (s : state) :
  heap s !! r = Some t →
  loc_isin_of (Ref r) ks s =
    (Ok (Ref (length (heap s))), State (heap s ++ [loc_isin t ks]) (log s)).
Proof.
  intros Hr. unfold loc_isin_of.
  rewrite (bind_ok _ _ _ _ _ (deref_run _ _ _ Hr)). reflexivity.
Qed.

Lemma order_series_of_run (r : nat) (t : table) (s : state) :
  heap s !! r = Some t → order_series_of (Ref r) s = (Ok (order_series t), s).
Proof.
  intros Hr. unfold order_series_of.
  rewrite (bind_ok _ _ _ _ _ (deref_run _ _ _ Hr)). reflexivity.
Qed.

Lemma setitem_run (r : nat) (t t' : table) (col : string) (o : list (Z * Z))
    (s : state) :
  heap s !! r = Some t → name t ≠ Some col → set_column t col o = Some t' →
  setitem (Ref r) col o s = (Ok (), State (<[r := t']> (heap s)) (log s)).
Proof.
  intros Hr Hname Hset. unfold setitem.
  rewrite (bind_ok _ _ _ _ _ (deref_run _ _ _ Hr)).
  rewrite bool_decide_eq_false_2 by done. rewrite Hset. reflexivity.
Qed.

Lemma setitem_raise (r : nat) (t : table) (col : string) (o : list (Z * Z))
    (s : state) :
  heap s !! r = Some t → name t ≠ Some col → set_column t col o = None →
  setitem (Ref r) col o s = (Raise (ValueError duplicate_axis_message), s).
Proof.
  intros Hr Hname Hset. unfold setitem.
  rewrite (bind_ok _ _ _ _ _ (deref_run _ _ _ Hr)).
  rewrite bool_decide_eq_false_2 by done. rewrite Hset. reflexivity.
Qed.

Lemma setitem_unmodelled (r : nat) (t : table) (col : string) (o : list (Z * Z))
    (s : state) :
  heap s !! r = Some t → name t = Some col →
  setitem (Ref r) col o s = (Unmodelled, s).
Proof.
  intros Hr Hname. unfold setitem.
  rewrite (bind_ok _ _ _ _ _ (deref_run _ _ _ Hr)).
  rewrite bool_decide_eq_true_2 by done. reflexivity.
Qed.

Lemma sort_values_of_run (r : nat) (t : table) (col : string) (s : state) :
  heap s !! r = Some t →
  sort_values_of (Ref r) col s =
    (Ok (Ref (length (heap s))), State (heap s ++ [sort_values t col]) (log s)).
Proof.
  intros Hr. unfold sort_values_of.
  rewrite (bind_ok _ _ _ _ _ (deref_run _ _ _ Hr)). reflexivity.
Qed.

Lemma drop_of_run (r : nat) (t : table) (col : string) (s : state) :
  heap s !! r = Some t → name t ≠ Some col →
  drop_of (Ref r) col s =
    (Ok (Ref (length (heap s))), State (heap s ++ [drop_column t col]) (log s)).
Proof.
  intros Hr Hname. unfold drop_of.
  rewrite (bind_ok _ _ _ _ _ (deref_run _ _ _ Hr)).
  rewrite bool_decide_eq_false_2 by done. reflexivity.
Qed.

Lemma geometry_attr_run (r : nat) (t : table) (s : state) :
  heap s !! r = Some t →
  geometry_attr (Ref r) s =
    (Ok (Ref (length (heap s))), State (heap s ++ [geometry_of t]) (log s)).
Proof.
  intros Hr. unfold geometry_attr.
  rewrite (bind_ok _ _ _ _ _ (deref_run _ _ _ Hr)). reflexivity.
Qed.

Lemma GeoDataFrame_of_geometry_run (r : nat) (t : table) (s : state) :
  heap s !! r = Some t →
  GeoDataFrame_of_geometry (Ref r) s =
    (Ok (Ref (length (heap s))), State (heap s ++ [frame_of_series t]) (log s)).
Proof.
  intros Hr. unfold GeoDataFrame_of_geometry.
  rewrite (bind_ok _ _ _ _ _ (deref_run _ _ _ Hr)). reflexivity.
Qed.

Lemma empty_of_run (r : nat) (t : table) (s : state) :
  heap s !! r = Some t →
  empty_of (Ref r) s = (Ok (bool_decide (rows t = [])), s).
Proof.
  intros Hr. unfold empty_of.
  rewrite (bind_ok _ _ _ _ _ (deref_run _ _ _ Hr)). reflexivity.
Qed.

(** ** Accepted arguments and validation *)

(** Membership of a concrete type in a concrete list of types. *)
Ltac elem_dec :=
  match goal with
  | H : _ ∈ _ |- _ =>
      exfalso; apply (bool_decide_pack _) in H; vm_compute in H; exact H
  | |- _ => compute_done
  end.

Lemma valid_gdf_inv (s : state) (gdf : value) :
  valid_gdf s gdf ↔ ∃ r t, gdf = Ref r ∧ heap s !! r = Some t.
Proof.
  unfold valid_gdf, type_of. split.
  - destruct gdf as [r|g|]; [|destruct (geom_type g)|]; intros Hv; try elem_dec.
    destruct (heap s !! r) as [t|] eqn:E; [eauto|elem_dec].
  - intros (r & t & -> & ->). destruct (cls t); elem_dec.
Qed.

Lemma valid_mask_inv (s : state) (mask : value) :
  valid_mask s mask ↔
    (∃ m tm, mask = Ref m ∧ heap s !! m = Some tm) ∨
    (∃ g, mask = Shape g ∧ isin (geom_type g) _POLYGON_TYPES = true).
Proof.
  unfold valid_mask, type_of, isin, _POLYGON_TYPES. split.
  - destruct mask as [r|g|].
    + destruct (heap s !! r) as [t|] eqn:E; [eauto|intros Hv; elem_dec].
    + intros Hg. right. exists g. split; [done|].
      apply bool_decide_eq_true. destruct (geom_type g); elem_dec.
    + intros Hv. elem_dec.
  - intros [(m & tm & -> & ->)|(g & -> & Hg)].
    + destruct (cls tm); elem_dec.
    + apply bool_decide_eq_true in Hg. destruct (geom_type g); elem_dec.
Qed.

Lemma is_collection_ref (s : state) (m : nat) (tm : table) :
  heap s !! m = Some tm → is_collection s (Ref m) = true.
Proof.
  intros Hm. unfold is_collection. rewrite (type_of_ref _ _ _ Hm).
  apply bool_decide_eq_true. destruct (cls tm); elem_dec.
Qed.

Lemma is_collection_shape (s : state) (g : BaseGeometry) :
  is_collection s (Shape g) = false.
Proof.
  unfold is_collection, type_of. apply bool_decide_eq_false.
  destruct (geom_type g); elem_dec.
Qed.

Lemma type_of_heap_irrel (h : list table) (l l' : list event) (v : value) :
  type_of (State h l) v = type_of (State h l') v.
Proof. reflexivity. Qed.

Lemma _validate_inputs_run (h : list table) (l : list event)
    (r : nat) (t : table) (mask : value) :
  h !! r = Some t → valid_mask (State h l) mask →
  _validate_inputs (Ref r) mask (State h l) =
    (Ok (), State h (l ++ crs_warnings (State h l) t mask)).
Proof.
  intros Hr Hm.
  assert (Hg : valid_gdf (State h l) (Ref r)) by (apply valid_gdf_inv; eauto).
  unfold _validate_inputs, _validate_input_gdf, _validate_input_mask.
  rewrite bind_assoc.
  erewrite bind_ok by reflexivity.
  rewrite (bool_decide_eq_true_2 _ Hg). cbn [negb]. rewrite bind_ret.
  rewrite bind_assoc.
  erewrite bind_ok by reflexivity.
  rewrite (bool_decide_eq_true_2 _ Hm). cbn [negb]. rewrite bind_ret.
  unfold _warn_if_crs_mismatch.
  erewrite bind_ok by reflexivity.
  fold (is_collection (State h l) mask).
  apply valid_mask_inv in Hm as [(m & tm & -> & Hm)|(g & -> & Hp)].
  - rewrite (is_collection_ref _ _ _ Hm). unfold _check_crs.
    rewrite bind_assoc, (bind_ok _ _ _ _ _ (deref_run r t (State h l) Hr)).
    rewrite bind_assoc, (bind_ok _ _ _ _ _ (deref_run m tm (State h l) Hm)).
    rewrite bind_ret. unfold crs_warnings. cbn [heap] in *. rewrite Hm.
    destruct (bool_decide (crs t = crs tm)); cbn [negb].
    + rewrite app_nil_r. reflexivity.
    + reflexivity.
  - rewrite is_collection_shape. unfold crs_warnings.
    rewrite app_nil_r. reflexivity.
Qed.

(** *** Executing a chain of binds

    [py_run lem] executes the first computation of the chain with the run
    lemma [lem]; [py_pure] executes a primitive that has no premise. *)
Ltac py_run lem :=
  rewrite ?bind_assoc;
  erewrite bind_ok by (eapply lem; cbn [heap log]; eauto);
  cbn [heap log].

Ltac py_pure :=
  rewrite ?bind_assoc;
  first [ rewrite bind_ret | erewrite bind_ok by reflexivity ];
  cbn [heap log].

Lemma lookup_snoc {A : Type} (l : list A) (x : A) : (l ++ [x]) !! length l = Some x.
Proof. by apply list_lookup_middle. Qed.

Lemma _get_mask_bounding_box_run (h : list table) (l : list event) (mask : value) :
  valid_mask (State h l) mask →
  _get_mask_bounding_box mask (State h l) =
    (Ok (mask_bounds (State h l) mask), State h (l ++ [mask_bounds_event mask])).
Proof.
  intros Hm. unfold _get_mask_bounding_box.
  py_pure. fold (is_collection (State h l) mask).
  apply valid_mask_inv in Hm as [(m & tm & -> & Hm)|(g & -> & Hp)].
  - rewrite (is_collection_ref _ _ _ Hm).
    rewrite (total_bounds_of_run m tm (State h l) Hm).
    cbn [heap log mask_bounds mask_bounds_event] in *. rewrite Hm. reflexivity.
  - rewrite is_collection_shape. reflexivity.
Qed.

Lemma _input_bounding_boxes_intersect_run (h : list table) (l : list event)
    (r : nat) (t : table) (mask : value) :
  h !! r = Some t → valid_mask (State h l) mask →
  _input_bounding_boxes_intersect (Ref r) mask (State h l) =
    (Ok (boxes_overlap (total_bounds t) (mask_bounds (State h l) mask)),
     State h (l ++ [CallTotalBounds; mask_bounds_event mask])).
Proof.
  intros Hr Hm. unfold _input_bounding_boxes_intersect.
  py_run total_bounds_of_run.
  py_run _get_mask_bounding_box_run.
  unfold ret. rewrite <- app_assoc. reflexivity.
Qed.

Lemma resolved_mask_is_Some (s : state) (mask : value) :
  valid_mask s mask → is_Some (resolved_mask s mask).
Proof.
  intros [(m & tm & -> & Hm)|(g & -> & Hp)]%valid_mask_inv; cbn.
  - rewrite Hm. eauto.
  - eauto.
Qed.

Lemma _create_mask_polygon_run (h : list table) (l : list event)
    (mask : value) (poly : BaseGeometry) :
  valid_mask (State h l) mask → resolved_mask (State h l) mask = Some poly →
  _create_mask_polygon mask (State h l) =
    (Ok (Shape poly), State h (l ++ mask_union_events mask)).
Proof.
  intros Hm Hp. unfold _create_mask_polygon.
  py_pure. fold (is_collection (State h l) mask).
  apply valid_mask_inv in Hm as [(m & tm & -> & Hm)|(g & -> & Hg)].
  - rewrite (is_collection_ref _ _ _ Hm).
    rewrite (unary_union_of_run m tm (State h l) Hm).
    cbn in Hp, Hm. rewrite Hm in Hp. injection Hp as <-. reflexivity.
  - rewrite is_collection_shape. cbn in Hp. injection Hp as <-.
    cbn. rewrite app_nil_r. reflexivity.
Qed.

Ltac py_run_by lem tac :=
  rewrite ?bind_assoc;
  erewrite bind_ok by (eapply lem; cbn [heap log]; first [eassumption | tac]);
  cbn [heap log].

Ltac lookup_old :=
  rewrite ?lookup_app_l by (rewrite ?length_app, ?length_insert; cbn; lia).

Lemma insert_middle {A : Type} (l k : list A) (x y : A) :
  <[length l := y]> (l ++ x :: k) = l ++ y :: k.
Proof.
  rewrite insert_app_r_alt by lia. by rewrite Nat.sub_diag.
Qed.

(** ** The clipping step *)

Lemma mapM_omap {A B : Type} (f : A → option B) (l : list A) :
  (∀ x, x ∈ l → is_Some (f x)) → mapM f l = Some (omap f l).
Proof.
  induction l as [|x l IH]; intros Hl; [reflexivity|].
  destruct (Hl x) as [y Hy]; [left|].
  cbn. rewrite Hy. cbn. rewrite IH; [reflexivity|].
  intros z Hz. apply Hl. by right.
Qed.

Lemma candidates_elem (t : table) (poly : BaseGeometry) (i : nat) :
  i ∈ candidates t poly ↔
  ∃ r, rows t !! i = Some r ∧ intersects (geometry r) poly = true.
Proof.
  unfold candidates. rewrite (sindex_query_spec _ poly).
  unfold intersecting_positions.
  rewrite list_elem_of_filter, elem_of_seq, length_fmap, list_lookup_fmap.
  split.
  - intros [Hi _]. destruct (rows t !! i) as [r|]; [|discriminate]. eauto.
  - intros (r & Hr & Hi). rewrite Hr. split; [done|].
    apply lookup_lt_Some in Hr. lia.
Qed.

Lemma iloc_candidates (t : table) (poly : BaseGeometry) :
  iloc t (candidates t poly) = Some (selected t poly).
Proof.
  unfold iloc, selected, selected_rows. rewrite mapM_omap; [reflexivity|].
  intros i (r & Hr & _)%candidates_elem. eauto.
Qed.

Lemma clip_objects_result (t : table) (poly : BaseGeometry) :
  clip_objects t poly !! 1 = Some (clipped_table t poly).
Proof. unfold clip_objects. destruct (cls t); reflexivity. Qed.

Lemma _clip_gdf_with_polygon_run (h : list table) (l : list event)
    (r : nat) (t : table) (poly : BaseGeometry) :
  h !! r = Some t →
  _clip_gdf_with_polygon (Ref r) (Shape poly) (State h l) =
    (Ok (Ref (S (length h))),
     State (<[r := with_sindex t]> h ++ clip_objects t poly)
           (l ++ [CallSindexQuery; CallIntersection])).
Proof.
  intros Hr. pose proof (lookup_lt_Some _ _ _ Hr) as Hlt.
  unfold _clip_gdf_with_polygon.
  py_run sindex_query_of_run.
  set (h1 := <[r := with_sindex t]> h).
  assert (Hr1 : h1 !! r = Some (with_sindex t))
    by (by apply list_lookup_insert_eq).
  assert (Hlen : length h1 = length h) by apply length_insert.
  py_run_by iloc_of_run ltac:(apply (iloc_candidates t poly)).
  py_pure.
  assert (Hsub : (h1 ++ [selected t poly]) !! length h1 = Some (selected t poly))
    by apply lookup_snoc.
  rewrite (type_of_ref _ _ (State _ _) Hsub).
  unfold clip_objects, clipped_table. cbn [cls selected with_rows].
  destruct (cls t) eqn:Hcls.
  - rewrite bool_decide_eq_true_2 by compute_done.
    py_run copy_of_run.
    py_run_by geometry_name_of_run ltac:(lookup_old; exact Hr1).
    py_run_by intersection_of_run ltac:(lookup_old; exact Hsub).
    erewrite bind_ok.
    2:{ eapply setitem_geometry_run; cbn [heap].
        - lookup_old. apply lookup_snoc.
        - apply lookup_snoc.
        - reflexivity. }
    unfold ret. cbn [heap log].
    rewrite <- (app_assoc (h1 ++ [selected t poly])). cbn [app].
    rewrite insert_middle, <- !app_assoc, length_app, Hlen, Nat.add_1_r.
    reflexivity.
  - rewrite bool_decide_eq_false_2 by compute_done.
    rewrite (intersection_of_run _ _ poly (State _ _) Hsub). cbn [heap log].
    rewrite <- !app_assoc, length_app, Hlen, Nat.add_1_r. reflexivity.
Qed.

(** ** Type keeping and reconciliation *)

Lemma _keeping_geometry_type_is_possible_run (h : list table) (l : list event)
    (r : nat) (t : table) :
  h !! r = Some t →
  _keeping_geometry_type_is_possible (Ref r) (State h l) =
    (Ok (keeping_possible t), State h (l ++ keeping_warnings t)).
Proof.
  intros Hr.
  unfold _keeping_geometry_type_is_possible, _contains_geometrycollection,
    _get_number_of_unique_geometry_types, keeping_possible, keeping_warnings.
  py_run geom_type_of_run. py_pure. fold (has_collection t).
  destruct (has_collection t).
  - reflexivity.
  - py_run geom_type_of_run. py_pure. fold (is_mixed t).
    destruct (is_mixed t); [reflexivity|].
    unfold ret. rewrite app_nil_r. reflexivity.
Qed.

Lemma _keep_only_original_geom_type_run (h : list table) (l : list event)
    (c : nat) (tc : table) (original_type : geom_kind) :
  h !! c = Some tc →
  ∃ c', _keep_only_original_geom_type (Ref c) original_type (State h l) =
          (Ok (Ref c'),
           State (h ++ keep_objects tc original_type) (l ++ keep_events tc)) ∧
        (h ++ keep_objects tc original_type) !! c' = Some (reconciled tc original_type) ∧
        (c' = c ∨ length h ≤ c').
Proof.
  intros Hc.
  unfold _keep_only_original_geom_type, _get_number_of_unique_geometry_types.
  py_run geom_type_of_run. py_run geom_type_of_run. py_pure.
  fold (has_collection tc). fold (is_mixed tc).
  unfold keep_objects, keep_events, reconciled, needs_reconciliation, filtered, exploded.
  destruct (has_collection tc) eqn:Hgc; cbn [orb].
  - py_run explode_of_run.
    destruct (isin original_type _LINE_TYPES) eqn:Hline; cbn [orb].
    + rewrite (loc_isin_of_run _ _ _ (State _ _) (lookup_snoc h (explode tc))).
      cbn [heap log]. eexists. split; [|split].
      * rewrite <- app_assoc. reflexivity.
      * rewrite (app_assoc h [_] [_]). apply lookup_snoc.
      * right. rewrite length_app. lia.
    + destruct (isin original_type _POLYGON_TYPES) eqn:Hpoly.
      * rewrite (loc_isin_of_run _ _ _ (State _ _) (lookup_snoc h (explode tc))).
        cbn [heap log]. eexists. split; [|split].
        -- rewrite <- app_assoc. reflexivity.
        -- rewrite (app_assoc h [_] [_]). apply lookup_snoc.
        -- right. rewrite length_app. lia.
      * unfold ret. eexists. split; [|split].
        -- reflexivity.
        -- apply lookup_snoc.
        -- right. lia.
  - destruct (is_mixed tc) eqn:Hmix; cbn [app].
    + py_pure.
      destruct (isin original_type _LINE_TYPES) eqn:Hline; cbn [orb].
      * rewrite (loc_isin_of_run _ _ _ (State _ _) Hc). cbn [heap log].
        eexists. split; [|split].
        -- rewrite app_nil_r. reflexivity.
        -- apply lookup_snoc.
        -- right. lia.
      * destruct (isin original_type _POLYGON_TYPES) eqn:Hpoly.
        -- rewrite (loc_isin_of_run _ _ _ (State _ _) Hc). cbn [heap log].
           eexists. split; [|split].
           ++ rewrite app_nil_r. reflexivity.
           ++ apply lookup_snoc.
           ++ right. lia.
        -- unfold ret. exists c. rewrite !app_nil_r. eauto.
    + unfold ret. exists c. rewrite !app_nil_r. eauto.
Qed.

(** ** Restoring the initial order *)

(** *** The assignment of the helper column *)

Lemma series_at_lookup (s : list (Z * Z)) (i : nat) (k v : Z) :
  NoDup s.*1 → s !! i = Some (k, v) → series_at s k = CInt v.
Proof.
  intros Hnd Hi. unfold series_at.
  destruct (list_find_elem_of (λ p : Z * Z, p.1 = k) s (k, v)
              (list_elem_of_lookup_2 _ _ _ Hi) eq_refl) as [[j [k' v']] Hf].
  rewrite Hf. apply list_find_Some in Hf as (Hj & Hk & _). cbn in Hk. subst k'.
  assert (j = i) as ->; [|by rewrite Hi in Hj; injection Hj as ->].
  eapply NoDup_lookup; [exact Hnd| |]; rewrite list_lookup_fmap.
  - by rewrite Hj.
  - by rewrite Hi.
Qed.

Lemma series_at_own_index (s : list (Z * Z)) :
  NoDup s.*1 → series_at s <$> s.*1 = CInt <$> s.*2.
Proof.
  intros Hnd. apply list_eq. intros i. rewrite !list_lookup_fmap.
  destruct (s !! i) as [[k v]|] eqn:Hi; [|done].
  cbn. by rewrite (series_at_lookup s i k v Hnd Hi).
Qed.

Lemma aligned_unique (t : table) (s : list (Z * Z)) :
  NoDup s.*1 → aligned t s = Some ((λ r, series_at s (label r)) <$> rows t).
Proof.
  intros Hnd. unfold aligned.
  destruct (decide (s.*1 = label <$> rows t)) as [Heq|Hne].
  - rewrite bool_decide_eq_true_2 by done. f_equal.
    rewrite <- (series_at_own_index s Hnd), Heq, <- list_fmap_compose. done.
  - rewrite bool_decide_eq_false_2 by done.
    by rewrite bool_decide_eq_true_2.
Qed.

Lemma set_values_by_label (t : table) (col : string) (s : list (Z * Z)) :
  set_values t col ((λ r, series_at s (label r)) <$> rows t) = assign_by_label t col s.
Proof.
  unfold set_values, assign_by_label. f_equal.
  by rewrite zip_with_fmap_r, zip_with_diag.
Qed.

Lemma set_column_unique (t : table) (col : string) (s : list (Z * Z)) :
  NoDup s.*1 → set_column t col s = Some (assign_by_label (adopt_index t s) col s).
Proof.
  intros Hnd. unfold set_column.
  rewrite (aligned_unique _ s Hnd). cbn. by rewrite set_values_by_label.
Qed.

Lemma order_series_index (t : table) : (order_series t).*1 = label <$> rows t.
Proof.
  unfold order_series. apply fst_zip.
  by rewrite !length_fmap, length_seq.
Qed.

Lemma set_column_ranked (t tc : table) :
  NoDup (label <$> rows t) →
  set_column (framed tc) "_order" (order_series t) = Some (ranked t tc).
Proof.
  intros Hnd. apply set_column_unique. by rewrite order_series_index.
Qed.

Lemma adopt_index_nonempty (t : table) (s : list (Z * Z)) :
  rows t ≠ [] → adopt_index t s = t.
Proof. unfold adopt_index. by destruct (rows t). Qed.

Lemma name_framed (tc : table) :
  (cls tc = GeoDataFrame → name tc ≠ Some "_order") → name (framed tc) ≠ Some "_order".
Proof. unfold framed. destruct (cls tc); [auto|done]. Qed.

Lemma name_sort_ranked (t tc : table) :
  name (sort_values (ranked t tc) "_order") = name (framed tc).
Proof.
  unfold ranked, adopt_index. cbn.
  by destruct (rows (framed tc)), (order_series t).
Qed.

Lemma _recreate_initial_order_run (h : list table) (l : list event)
    (r c : nat) (t tc : table) :
  h !! r = Some t → h !! c = Some tc →
  NoDup (label <$> rows t) →
  (cls tc = GeoDataFrame → name tc ≠ Some "_order") →
  _recreate_initial_order (Ref r) (Ref c) (State h l) =
    (Ok (Ref (restore_ref h tc)), State (restore_heap h c t tc) l).
Proof.
  intros Hr Hc Hnd Hname. pose proof (lookup_lt_Some _ _ _ Hc) as Hlt.
  pose proof (set_column_ranked t tc Hnd) as Hset.
  pose proof (name_sort_ranked t tc) as Hsorted.
  apply name_framed in Hname.
  unfold _recreate_initial_order, restore_ref, restore_heap, restored.
  py_run order_series_of_run. py_pure.
  rewrite (type_of_ref _ _ (State _ _) Hc).
  unfold framed in Hset, Hname, Hsorted.
  destruct (cls tc) eqn:Hcls.
  - rewrite bool_decide_eq_true_2 by compute_done.
    py_run_by setitem_run ltac:(done).
    py_run_by sort_values_of_run ltac:(by apply list_lookup_insert_eq).
    rewrite (drop_of_run _ _ _ (State _ _) (lookup_snoc _ _))
      by (cbn [heap]; congruence).
    cbn [heap log].
    rewrite <- app_assoc, length_app, length_insert, Nat.add_1_r. reflexivity.
  - rewrite bool_decide_eq_false_2 by compute_done.
    py_run GeoDataFrame_of_geometry_run.
    py_run_by setitem_run ltac:(first [apply lookup_snoc | done]).
    rewrite insert_middle.
    py_run_by sort_values_of_run ltac:(apply lookup_snoc).
    rewrite (geometry_attr_run _ _ (State _ _) (lookup_snoc _ _)). cbn [heap log].
    rewrite <- !app_assoc, !length_app. cbn [length app].
    replace (length h + (1 + 1)) with (S (S (length h))) by lia. reflexivity.
Qed.

Lemma restore_heap_result (h : list table) (c : nat) (t tc : table) :
  restore_heap h c t tc !! restore_ref h tc = Some (restored t tc).
Proof.
  unfold restore_heap, restore_ref. destruct (cls tc).
  - rewrite lookup_app_r by (rewrite length_insert; lia).
    rewrite length_insert. by replace (S (length h) - length h) with 1 by lia.
  - rewrite lookup_app_r by lia.
    by replace (S (S (length h)) - length h) with 2 by lia.
Qed.

(** ** The whole pipeline *)

Lemma clip_disjoint_run (h : list table) (l : list event)
    (r : nat) (t : table) (mask : value) (keep_geom_type : bool) :
  h !! r = Some t → valid_mask (State h l) mask →
  overlap (State h l) t mask = false →
  clip (Ref r) mask keep_geom_type (State h l) =
    (Ok (Ref (length h)),
     State (h ++ [with_rows t []]) (l ++ front_events (State h l) t mask)).
Proof.
  intros Hr Hm Hov. unfold clip, front_events.
  py_run _validate_inputs_run.
  py_run_by _input_bounding_boxes_intersect_run
    ltac:(rewrite (type_of_heap_irrel _ _ l); exact Hm).
  change (mask_bounds (State h _) mask) with (mask_bounds (State h l) mask).
  fold (overlap (State h l) t mask). rewrite Hov. cbn [negb].
  unfold _empty_from_gdf.
  rewrite (iloc_head_of_run r t 0 (State _ _) Hr). cbn [heap log take].
  rewrite <- app_assoc. reflexivity.
Qed.

Lemma clip_front_run (h : list table) (l : list event)
    (r : nat) (t : table) (mask : value) (keep_geom_type : bool)
    (poly : BaseGeometry) :
  h !! r = Some t → valid_mask (State h l) mask →
  overlap (State h l) t mask = true →
  resolved_mask (State h l) mask = Some poly →
  clip (Ref r) mask keep_geom_type (State h l) =
    (let gdf := Ref r in
     let clipped_gdf := Ref (S (length h)) in
     if bool_decide (rows (clipped_table t poly) = []) then _empty_from_gdf gdf
     else
       bind (if keep_geom_type then _keeping_geometry_type_is_possible gdf
             else ret false)
         (λ keeping_geometry_type_is_possible,
           bind (if keeping_geometry_type_is_possible then
                   bind (geom_type_of gdf) (λ ts,
                     bind (iloc0 ts) (λ original_type,
                       _keep_only_original_geom_type clipped_gdf original_type))
                 else ret clipped_gdf)
             (λ clipped_gdf, _recreate_initial_order gdf clipped_gdf)))
      (State (<[r := with_sindex t]> h ++ clip_objects t poly)
             (l ++ clipping_events (State h l) t mask)).
Proof.
  intros Hr Hm Hov Hpoly. unfold clip, clipping_events, front_events.
  py_run _validate_inputs_run.
  py_run_by _input_bounding_boxes_intersect_run
    ltac:(rewrite (type_of_heap_irrel _ _ l); exact Hm).
  change (mask_bounds (State h _) mask) with (mask_bounds (State h l) mask).
  fold (overlap (State h l) t mask). rewrite Hov. cbn [negb].
  py_run_by _create_mask_polygon_run
    ltac:(first [ rewrite (type_of_heap_irrel _ _ l); exact Hm | exact Hpoly ]).
  py_run _clip_gdf_with_polygon_run.
  py_run_by empty_of_run
    ltac:(rewrite lookup_app_r by (rewrite length_insert; lia);
          rewrite length_insert;
          replace (S (length h) - length h) with 1 by lia;
          apply clip_objects_result).
  rewrite <- !app_assoc. reflexivity.
Qed.

(** ** What the pipeline leaves of the store it was given *)

Lemma same_data_refl (t : table) : same_data t t.
Proof. by repeat split. Qed.

Lemma same_data_sindex (t : table) : same_data t (with_sindex t).
Proof. by repeat split. Qed.

Lemma preserves_refl (h : list table) : preserves h h.
Proof. intros i u Hi. exists u. split; [done|apply same_data_refl]. Qed.

Lemma preserves_app (h h' k : list table) :
  preserves h h' → preserves h (h' ++ k).
Proof.
  intros Hp i u Hi. destruct (Hp i u Hi) as (u' & Hu' & Hd).
  exists u'. split; [|done]. by apply lookup_app_l_Some.
Qed.

Lemma preserves_sindex (h : list table) (r : nat) (t : table) :
  h !! r = Some t → preserves h (<[r := with_sindex t]> h).
Proof.
  intros Hr i u Hi. destruct (decide (i = r)) as [->|Hne].
  - exists (with_sindex t). split.
    + apply list_lookup_insert_eq. by eapply lookup_lt_Some.
    + rewrite Hr in Hi. injection Hi as <-. apply same_data_sindex.
  - exists u. split; [|apply same_data_refl].
    by rewrite list_lookup_insert_ne.
Qed.

Lemma preserves_insert_fresh (h h' : list table) (c : nat) (x : table) :
  length h ≤ c → preserves h h' → preserves h (<[c := x]> h').
Proof.
  intros Hc Hp i u Hi. destruct (Hp i u Hi) as (u' & Hu' & Hd).
  exists u'. split; [|done].
  rewrite list_lookup_insert_ne; [done|].
  apply lookup_lt_Some in Hi. lia.
Qed.

Lemma preserves_restore_heap (h h' : list table) (c : nat) (t tc : table) :
  length h ≤ c → preserves h h' → preserves h (restore_heap h' c t tc).
Proof.
  intros Hc Hp. unfold restore_heap. destruct (cls tc).
  - by apply preserves_app, preserves_insert_fresh.
  - by apply preserves_app.
Qed.

Lemma clipped_rows_nonempty (t : table) (poly : BaseGeometry) :
  rows (clipped_table t poly) ≠ [] → rows t ≠ [].
Proof.
  intros Hne Hnil. apply Hne.
  assert (Hs : selected_rows t poly = []).
  { unfold selected_rows. destruct (candidates t poly) as [|i js] eqn:Hc; [done|].
    assert (Hi : i ∈ candidates t poly) by (rewrite Hc; left).
    apply candidates_elem in Hi as (x & Hx & _). by rewrite Hnil in Hx. }
  unfold clipped_table, selected. destruct (cls t); cbn; by rewrite Hs.
Qed.

Lemma name_kept (t : table) (poly : BaseGeometry) (keep_geom_type : bool) :
  cls (kept t poly keep_geom_type) = cls t ∧
  (cls t = GeoDataFrame → name (kept t poly keep_geom_type) = name t).
Proof.
  unfold kept, reconciled, filtered, exploded, clipped_table.
  destruct (cls t) eqn:E;
    repeat (match goal with |- context [if ?b then _ else _] => destruct b end);
    cbn; rewrite ?E; (split; [done|first [done|by intros [=]]]).
Qed.

(** On accepted arguments whose bounding boxes overlap and of which some
    row meets the mask, [clip] comes down to [_recreate_initial_order] on
    the collection [kept], which is an object created during the call. *)
Lemma clip_keep_run (h : list table) (l : list event)
    (r : nat) (t : table) (mask : value) (keep_geom_type : bool)
    (poly : BaseGeometry) :
  h !! r = Some t → valid_mask (State h l) mask →
  overlap (State h l) t mask = true →
  resolved_mask (State h l) mask = Some poly →
  rows (clipped_table t poly) ≠ [] →
  ∃ c h2,
    clip (Ref r) mask keep_geom_type (State h l) =
      _recreate_initial_order (Ref r) (Ref c)
        (State h2 (l ++ clipping_events (State h l) t mask ++
                        keeping_events t poly keep_geom_type)) ∧
    h2 !! r = Some (with_sindex t) ∧
    h2 !! c = Some (kept t poly keep_geom_type) ∧
    length h ≤ c ∧ length h ≤ length h2 ∧ preserves h h2.
Proof.
  intros Hr Hm Hov Hpoly Hne.
  pose proof (lookup_lt_Some _ _ _ Hr) as Hlt.
  rewrite (clip_front_run _ _ _ _ _ _ _ Hr Hm Hov Hpoly). cbv zeta.
  rewrite bool_decide_eq_false_2 by done.
  set (h1 := <[r := with_sindex t]> h ++ clip_objects t poly).
  set (l1 := l ++ clipping_events (State h l) t mask).
  assert (Hr1 : h1 !! r = Some (with_sindex t)).
  { unfold h1. rewrite lookup_app_l by (rewrite length_insert; lia).
    by apply list_lookup_insert_eq. }
  assert (Hc1 : h1 !! S (length h) = Some (clipped_table t poly)).
  { unfold h1. rewrite lookup_app_r by (rewrite length_insert; lia).
    rewrite length_insert. replace (S (length h) - length h) with 1 by lia.
    apply clip_objects_result. }
  assert (Hp1 : preserves h h1).
  { unfold h1. by apply preserves_app, preserves_sindex. }
  assert (Hlen1 : length h ≤ length h1).
  { unfold h1. rewrite length_app, length_insert. lia. }
  unfold kept, keeping_events. rewrite app_assoc. fold l1.
  destruct keep_geom_type; cbn [andb].
  - py_run _keeping_geometry_type_is_possible_run.
    change (keeping_possible (with_sindex t)) with (keeping_possible t).
    change (keeping_warnings (with_sindex t)) with (keeping_warnings t).
    destruct (keeping_possible t) eqn:Hkp.
    + py_run geom_type_of_run.
      change (geom_types (with_sindex t)) with (geom_types t).
      assert (Hhd : geom_types t = original_type t :: tail (geom_types t)).
      { pose proof (clipped_rows_nonempty _ _ Hne) as Hrows.
        unfold original_type, geom_types. by destruct (rows t). }
      rewrite Hhd. cbn [iloc0]. rewrite ?bind_assoc, bind_ret.
      destruct (_keep_only_original_geom_type_run h1 (l1 ++ keeping_warnings t)
                  _ _ (original_type t) Hc1) as (c' & Hrun & Hc' & Hfresh).
      py_run Hrun.
      exists c', (h1 ++ keep_objects (clipped_table t poly) (original_type t)).
      split; [by rewrite <- app_assoc|].
      split; [by apply lookup_app_l_Some|]. split; [done|].
      split; [destruct Hfresh as [->|?]; lia|].
      split; [rewrite length_app; lia|by apply preserves_app].
    + py_pure. exists (S (length h)), h1.
      split; [by rewrite app_nil_r|]. repeat split; (done || lia).
  - py_pure. py_pure. exists (S (length h)), h1.
    split; [by rewrite app_nil_r|]. repeat split; (done || lia).
Qed.

Lemma clip_main_run (h : list table) (l : list event)
    (r : nat) (t : table) (mask : value) (keep_geom_type : bool)
    (poly : BaseGeometry) :
  h !! r = Some t → valid_mask (State h l) mask →
  overlap (State h l) t mask = true →
  resolved_mask (State h l) mask = Some poly →
  rows (clipped_table t poly) ≠ [] →
  NoDup (label <$> rows t) →
  (cls t = GeoDataFrame → name t ≠ Some "_order") →
  ∃ n h',
    clip (Ref r) mask keep_geom_type (State h l) =
      (Ok (Ref n),
       State h' (l ++ clipping_events (State h l) t mask ++
                      keeping_events t poly keep_geom_type)) ∧
    h' !! n = Some (restored t (kept t poly keep_geom_type)) ∧
    length h ≤ n ∧ preserves h h'.
Proof.
  intros Hr Hm Hov Hpoly Hne Hnd Hname.
  destruct (clip_keep_run h l r t mask keep_geom_type poly Hr Hm Hov Hpoly Hne)
    as (c & h2 & -> & Hr2 & Hc2 & Hc & Hlen & Hp).
  destruct (name_kept t poly keep_geom_type) as [Hcls Hkname].
  rewrite (_recreate_initial_order_run h2 _ r c (with_sindex t)
             (kept t poly keep_geom_type) Hr2 Hc2 Hnd).
  2:{ rewrite Hcls. intros Hf. rewrite (Hkname Hf). by apply Hname. }
  do 2 eexists. split; [reflexivity|]. split; [|split].
  - apply (restore_heap_result _ c (with_sindex t)).
  - unfold restore_ref. destruct (cls (kept _ _ _)); lia.
  - by apply preserves_restore_heap.
Qed.

Lemma clip_no_rows_run (h : list table) (l : list event)
    (r : nat) (t : table) (mask : value) (keep_geom_type : bool)
    (poly : BaseGeometry) :
  h !! r = Some t → valid_mask (State h l) mask →
  overlap (State h l) t mask = true →
  resolved_mask (State h l) mask = Some poly →
  rows (clipped_table t poly) = [] →
  ∃ n h',
    clip (Ref r) mask keep_geom_type (State h l) =
      (Ok (Ref n), State h' (l ++ clipping_events (State h l) t mask)) ∧
    h' !! n = Some (with_rows t []) ∧
    length h ≤ n ∧ preserves h h'.
Proof.
  intros Hr Hm Hov Hpoly Hnil.
  pose proof (lookup_lt_Some _ _ _ Hr) as Hlt.
  rewrite (clip_front_run _ _ _ _ _ _ _ Hr Hm Hov Hpoly). cbv zeta.
  rewrite bool_decide_eq_true_2 by done. unfold _empty_from_gdf.
  erewrite iloc_head_of_run.
  2:{ cbn [heap]. rewrite lookup_app_l by (rewrite length_insert; lia).
      by apply list_lookup_insert_eq. }
  cbn [heap log take]. do 2 eexists. split; [reflexivity|]. split; [|split].
  - apply lookup_snoc.
  - rewrite length_app, length_insert. lia.
  - by apply preserves_app, preserves_app, preserves_sindex.
Qed.

(** On accepted arguments, for a collection with unique index labels whose
    geometry column is not named as the helper column, [clip] returns: it
    yields a reference created during the call, to the collection
    [clip_table], and every object that was in the store before is still
    there with the same data. *)
Lemma clip_run (h : list table) (l : list event)
    (r : nat) (t : table) (mask : value) (keep_geom_type : bool) :
  h !! r = Some t → valid_mask (State h l) mask →
  NoDup (label <$> rows t) →
  (cls t = GeoDataFrame → name t ≠ Some "_order") →
  ∃ n h' evs,
    clip (Ref r) mask keep_geom_type (State h l) =
      (Ok (Ref n), State h' (l ++ evs)) ∧
    h' !! n = Some (clip_table (State h l) t mask keep_geom_type) ∧
    length h ≤ n ∧ preserves h h'.
Proof.
  intros Hr Hm Hnd Hname. unfold clip_table.
  destruct (resolved_mask_is_Some _ _ Hm) as [poly Hpoly]. rewrite Hpoly.
  destruct (overlap (State h l) t mask) eqn:Hov; cbn [andb].
  - destruct (decide (rows (clipped_table t poly) = [])) as [Hnil|Hne].
    + rewrite bool_decide_eq_true_2 by done. cbn [negb].
      destruct (clip_no_rows_run h l r t mask keep_geom_type poly)
        as (n & h' & Hrun & ?); eauto 10.
    + rewrite bool_decide_eq_false_2 by done. cbn [negb].
      destruct (clip_main_run h l r t mask keep_geom_type poly)
        as (n & h' & Hrun & ?); eauto 10.
  - rewrite (clip_disjoint_run h l r t mask keep_geom_type Hr Hm Hov).
    do 3 eexists. split; [reflexivity|]. split; [apply lookup_snoc|].
    split; [lia|]. apply preserves_app, preserves_refl.
Qed.

(** *** Every way [clip] can end *)

Lemma name_set_column (t t' : table) (col : string) (s : list (Z * Z)) :
  set_column t col s = Some t' → name t' = name t ∧ cls t' = cls t.
Proof.
  unfold set_column. intros (vs & _ & ->)%fmap_Some.
  unfold set_values, adopt_index. cbn. by destruct (rows t), s.
Qed.

Lemma set_column_None (t : table) (col : string) (s : list (Z * Z)) :
  set_column t col s = None → ¬ NoDup s.*1.
Proof.
  intros Hset Hnd. by rewrite (set_column_unique t col s Hnd) in Hset.
Qed.

(** How [_recreate_initial_order] can end.  The store changes only at the
    clipped collection and by the objects that are added; ValueError is
    raised only when an index label of the original collection occurs
    twice. *)
Lemma _recreate_initial_order_outcome (h : list table) (l : list event)
    (r c : nat) (t tc : table) :
  h !! r = Some t → h !! c = Some tc →
  ∃ res h',
    _recreate_initial_order (Ref r) (Ref c) (State h l) = (res, State h' l) ∧
    (∀ i u, h !! i = Some u → i ≠ c → h' !! i = Some u) ∧
    match res with
    | Ok v => ∃ n, v = Ref n ∧ length h ≤ n ∧ is_Some (h' !! n)
    | Raise e => ∃ msg, e = ValueError msg ∧ ¬ NoDup (label <$> rows t)
    | Unmodelled => cls tc = GeoDataFrame ∧ name tc = Some "_order"
    end.
Proof.
  intros Hr Hc. pose proof (lookup_lt_Some _ _ _ Hc) as Hlt.
  unfold _recreate_initial_order.
  py_run order_series_of_run. py_pure.
  rewrite (type_of_ref _ _ (State _ _) Hc).
  destruct (cls tc) eqn:Hcls.
  - rewrite bool_decide_eq_true_2 by compute_done.
    destruct (decide (name tc = Some "_order")) as [Hname|Hname].
    { erewrite bind_unmodelled by (by eapply setitem_unmodelled).
      do 2 eexists. split; [reflexivity|]. split; [done|]. done. }
    destruct (set_column tc "_order" (order_series t)) as [tk|] eqn:Hset.
    + destruct (name_set_column _ _ _ _ Hset) as [Hnk _].
      py_run_by setitem_run ltac:(done).
      py_run_by sort_values_of_run ltac:(by apply list_lookup_insert_eq).
      rewrite (drop_of_run _ _ _ (State _ _) (lookup_snoc _ _))
        by (cbn [heap name sort_values with_rows]; congruence).
      cbn [heap log]. do 2 eexists. split; [reflexivity|]. split.
      * intros i u Hi Hne. rewrite <- app_assoc.
        apply lookup_app_l_Some. by rewrite list_lookup_insert_ne.
      * eexists. split; [reflexivity|].
        split; [rewrite length_app, length_insert; lia|].
        rewrite lookup_snoc. eauto.
    + erewrite bind_raise by (by eapply setitem_raise).
      do 2 eexists. split; [reflexivity|]. split; [done|].
      eexists. split; [reflexivity|].
      rewrite <- order_series_index. by eapply set_column_None.
  - rewrite bool_decide_eq_false_2 by compute_done.
    py_run GeoDataFrame_of_geometry_run.
    destruct (set_column (frame_of_series tc) "_order" (order_series t))
      as [tk|] eqn:Hset.
    + py_run_by setitem_run ltac:(first [apply lookup_snoc | done]).
      rewrite insert_middle.
      py_run_by sort_values_of_run ltac:(apply lookup_snoc).
      rewrite (geometry_attr_run _ _ (State _ _) (lookup_snoc _ _)).
      cbn [heap log]. do 2 eexists. split; [reflexivity|]. split.
      * intros i u Hi Hne. rewrite <- !app_assoc. by apply lookup_app_l_Some.
      * eexists. split; [reflexivity|].
        split; [rewrite !length_app; lia|].
        rewrite lookup_snoc. eauto.
    + erewrite bind_raise
        by (eapply setitem_raise; [apply lookup_snoc|done|exact Hset]).
      cbn [heap log]. do 2 eexists. split; [reflexivity|]. split.
      * intros i u Hi Hne. by apply lookup_app_l_Some.
      * eexists. split; [reflexivity|].
        rewrite <- order_series_index. by eapply set_column_None.
Qed.

Lemma preserves_but_fresh (h h2 h' : list table) (c : nat) :
  preserves h h2 → length h ≤ c →
  (∀ i u, h2 !! i = Some u → i ≠ c → h' !! i = Some u) →
  preserves h h'.
Proof.
  intros Hp Hc Hsame i u Hi. destruct (Hp i u Hi) as (u' & Hu' & Hd).
  exists u'. split; [|done]. apply Hsame; [done|].
  apply lookup_lt_Some in Hi. lia.
Qed.

(** How [clip] can end on accepted arguments.  Whatever the end, every
    object that was in the store before is still there with the same data. *)
Lemma clip_outcome (h : list table) (l : list event)
    (r : nat) (t : table) (mask : value) (keep_geom_type : bool) :
  h !! r = Some t → valid_mask (State h l) mask →
  ∃ res h' evs,
    clip (Ref r) mask keep_geom_type (State h l) = (res, State h' (l ++ evs)) ∧
    preserves h h' ∧
    match res with
    | Ok v => ∃ n, v = Ref n ∧ length h ≤ n ∧ is_Some (h' !! n)
    | Raise e => ∃ msg, e = ValueError msg ∧ ¬ NoDup (label <$> rows t)
    | Unmodelled => cls t = GeoDataFrame ∧ name t = Some "_order"
    end.
Proof.
  intros Hr Hm.
  destruct (resolved_mask_is_Some _ _ Hm) as [poly Hpoly].
  destruct (overlap (State h l) t mask) eqn:Hov.
  - destruct (decide (rows (clipped_table t poly) = [])) as [Hnil|Hne].
    + destruct (clip_no_rows_run h l r t mask keep_geom_type poly)
        as (n & h' & -> & Hn & Hlen & Hp); [done..|].
      do 3 eexists. split; [reflexivity|]. split; [done|]. eauto 10.
    + destruct (clip_keep_run h l r t mask keep_geom_type poly Hr Hm Hov Hpoly Hne)
        as (c & h2 & -> & Hr2 & Hc2 & Hc & Hlen & Hp).
      destruct (_recreate_initial_order_outcome h2
                  (l ++ clipping_events (State h l) t mask ++
                        keeping_events t poly keep_geom_type)
                  r c _ _ Hr2 Hc2) as (res & h' & -> & Hsame & Hres).
      do 3 eexists. split; [reflexivity|].
      split; [by apply (preserves_but_fresh h h2 h' c)|].
      destruct (name_kept t poly keep_geom_type) as [Hcls Hkname].
      destruct res as [v|e|].
      * destruct Hres as (n & -> & Hn & Hin). exists n. split; [done|].
        split; [lia|done].
      * done.
      * destruct Hres as [Hf Hn]. rewrite Hcls in Hf.
        split; [done|]. by rewrite <- (Hkname Hf).
  - rewrite (clip_disjoint_run h l r t mask keep_geom_type Hr Hm Hov).
    do 3 eexists. split; [reflexivity|].
    split; [apply preserves_app, preserves_refl|].
    eexists. split; [reflexivity|]. split; [lia|].
    rewrite lookup_snoc. eauto.
Qed.

(** ** The stable sort by the helper column *)

Lemma key_le_refl (a : option Z) : key_le a a = true.
Proof. destruct a; cbn; [by apply bool_decide_eq_true|done]. Qed.

Lemma key_le_trans (a b c : option Z) :
  key_le a b = true → key_le b c = true → key_le a c = true.
Proof.
  destruct a, b, c; cbn; try done.
  rewrite !bool_decide_eq_true. lia.
Qed.

Lemma key_le_total (a b : option Z) : key_le a b = false → key_le b a = true.
Proof.
  destruct a, b; cbn; try done.
  rewrite bool_decide_eq_false, bool_decide_eq_true. lia.
Qed.

Lemma key_le_antisym (a b : option Z) :
  key_le a b = true → key_le b a = true → a = b.
Proof.
  destruct a, b; cbn; try done.
  rewrite !bool_decide_eq_true. intros. f_equal. lia.
Qed.

Lemma insert_by_perm (col : string) (x : row) (l : list row) :
  insert_by col x l ≡ₚ x :: l.
Proof.
  induction l as [|y l IH]; cbn; [done|].
  destruct (key_le _ _); [done|]. rewrite IH. apply Permutation_swap.
Qed.

Lemma sort_rows_perm (col : string) (l : list row) : sort_rows col l ≡ₚ l.
Proof.
  induction l as [|x l IH]; cbn; [done|].
  rewrite insert_by_perm. by f_equiv.
Qed.

Lemma insert_by_sorted (col : string) (x : row) (l : list row) :
  StronglySorted (key_rel col) l → StronglySorted (key_rel col) (insert_by col x l).
Proof.
  induction l as [|y l IH]; cbn; intros Hs.
  - repeat constructor.
  - apply StronglySorted_cons in Hs as [Hy Hs].
    destruct (key_le (sort_key col x) (sort_key col y)) eqn:Hxy.
    + apply StronglySorted_cons. split.
      * constructor; [done|].
        eapply Forall_impl; [exact Hy|].
        intros z Hz. by eapply key_le_trans.
      * by apply StronglySorted_cons.
    + apply StronglySorted_cons. split; [|by apply IH].
      rewrite (insert_by_perm col x l). constructor; [|done].
      by apply key_le_total.
Qed.

Lemma sort_rows_sorted (col : string) (l : list row) :
  StronglySorted (key_rel col) (sort_rows col l).
Proof.
  induction l as [|x l IH]; cbn; [constructor|]. by apply insert_by_sorted.
Qed.

Lemma StronglySorted_lookup_lt {A : Type} (R : relation A) (l : list A)
    (a b : nat) (x y : A) :
  StronglySorted R l → l !! a = Some x → l !! b = Some y → a < b → R x y.
Proof.
  intros Hs. revert a b. induction Hs as [|z l Hs IH Hz]; intros a b Ha Hb Hlt.
  - by rewrite lookup_nil in Ha.
  - destruct b as [|b]; [lia|]. cbn in Hb. destruct a as [|a]; cbn in Ha.
    + injection Ha as ->. rewrite Forall_forall in Hz. apply Hz.
      by eapply list_elem_of_lookup_2.
    + eapply IH; eauto. lia.
Qed.

(** Rows that agree on the sort key keep their relative order: the rows
    selected by a predicate that fixes the key come out in input order. *)
Lemma insert_by_stable (col : string) (P : row → Prop) `{!∀ x, Decision (P x)}
    (x : row) (l : list row) :
  (∀ y, y ∈ l → P x → P y → sort_key col x = sort_key col y) →
  filter P (insert_by col x l) = filter P (x :: l).
Proof.
  induction l as [|y l IH]; intros Hk; cbn [insert_by]; [done|].
  destruct (key_le (sort_key col x) (sort_key col y)) eqn:Hxy; [done|].
  rewrite filter_cons, IH by (intros z Hz; apply Hk; by right).
  rewrite !filter_cons.
  destruct (decide (P x)) as [Hx|Hx], (decide (P y)) as [Hy|Hy]; try done.
  rewrite (Hk y) in Hxy by (done || left). by rewrite key_le_refl in Hxy.
Qed.

Lemma sort_rows_stable (col : string) (P : row → Prop) `{!∀ x, Decision (P x)}
    (l : list row) :
  (∀ x y, x ∈ l → y ∈ l → P x → P y → sort_key col x = sort_key col y) →
  filter P (sort_rows col l) = filter P l.
Proof.
  induction l as [|x l IH]; intros Hk; cbn [sort_rows foldr]; [done|].
  fold (sort_rows col l). rewrite insert_by_stable.
  - rewrite !filter_cons, IH; [done|].
    intros y z Hy Hz. apply Hk; by right.
  - intros y Hy. rewrite sort_rows_perm in Hy. apply Hk; [left|by right].
Qed.

(** ** The rows of the intermediate and final collections *)

Lemma filter_fmap_comm {A B : Type} (f : A → B) (P : B → Prop) (Q : A → Prop)
    `{!∀ y, Decision (P y)} `{!∀ x, Decision (Q x)} (l : list A) :
  (∀ x, P (f x) ↔ Q x) → filter P (f <$> l) = f <$> filter Q l.
Proof.
  intros HPQ. induction l as [|x l IH]; [done|].
  rewrite fmap_cons, !filter_cons, IH.
  destruct (decide (P (f x))) as [HP|HP], (decide (Q x)) as [HQ|HQ];
    try done; by apply HPQ in HP || apply HPQ in HQ.
Qed.

Lemma filter_bind_comm {A B : Type} (f : A → list B) (P : B → Prop) (Q : A → Prop)
    `{!∀ y, Decision (P y)} `{!∀ x, Decision (Q x)} (l : list A) :
  (∀ x y, y ∈ f x → (P y ↔ Q x)) → filter P (l ≫= f) = filter Q l ≫= f.
Proof.
  intros HPQ. induction l as [|x l IH]; [done|].
  rewrite bind_cons, filter_app, filter_cons, IH.
  destruct (decide (Q x)) as [HQ|HQ].
  - rewrite bind_cons. f_equal.
    clear IH. specialize (HPQ x). induction (f x) as [|y k IHk]; [done|].
    rewrite filter_cons_True by (apply HPQ; [left|done]).
    f_equal. apply IHk. intros z Hz. apply HPQ. by right.
  - rewrite <- (app_nil_l (filter Q l ≫= f)) at 2. f_equal.
    clear IH. specialize (HPQ x). induction (f x) as [|y k IHk]; [done|].
    rewrite filter_cons_False.
    + apply IHk. intros z Hz. apply HPQ. by right.
    + intros HP. apply HQ, (HPQ y); [left|done].
Qed.

Lemma rows_clipped_table (t : table) (poly : BaseGeometry) :
  rows (clipped_table t poly) = clip_row (cls t) poly <$> selected_rows t poly.
Proof.
  unfold clipped_table, selected. destruct (cls t); cbn; [|done].
  rewrite zip_with_fmap_r, zip_with_diag. done.
Qed.

Lemma cls_clipped_table (t : table) (poly : BaseGeometry) :
  cls (clipped_table t poly) = cls t.
Proof. unfold clipped_table. by destruct (cls t) eqn:E. Qed.

Lemma elem_of_selected_rows (t : table) (poly : BaseGeometry) (x : row) :
  x ∈ selected_rows t poly ↔ x ∈ rows t ∧ intersects (geometry x) poly = true.
Proof.
  unfold selected_rows. rewrite list_elem_of_omap. split.
  - intros (i & Hi & Hx). apply candidates_elem in Hi as (y & Hy & Hint).
    rewrite Hy in Hx. injection Hx as <-.
    split; [by eapply list_elem_of_lookup_2|done].
  - intros [(i & Hi)%list_elem_of_lookup_1 Hint]. exists i. split; [|done].
    apply candidates_elem. eauto.
Qed.

Lemma NoDup_candidates (t : table) (poly : BaseGeometry) :
  NoDup (candidates t poly).
Proof.
  unfold candidates. rewrite (sindex_query_spec _ poly).
  apply NoDup_filter, NoDup_seq.
Qed.

Lemma NoDup_selected_labels (t : table) (poly : BaseGeometry) :
  NoDup (label <$> rows t) → NoDup (label <$> selected_rows t poly).
Proof.
  intros Hnd. unfold selected_rows.
  assert (Hin : ∀ i, i ∈ candidates t poly → is_Some (rows t !! i)).
  { intros i (x & Hx & _)%candidates_elem. eauto. }
  pose proof (NoDup_candidates t poly) as Hc.
  induction (candidates t poly) as [|i js IH]; [constructor|].
  apply NoDup_cons in Hc as [Hi Hjs].
  destruct (Hin i) as [x Hx]; [left|].
  cbn. rewrite Hx. cbn. apply NoDup_cons. split.
  - intros (y & Hl & (j & Hj & Hy)%list_elem_of_omap)%list_elem_of_fmap.
    apply Hi. replace i with j; [done|].
    eapply NoDup_lookup; [exact Hnd| |]; rewrite list_lookup_fmap.
    + by rewrite Hy.
    + rewrite Hx. cbn. congruence.
  - apply IH; [|done]. intros j Hj. apply Hin. by right.
Qed.

(** The rows of an original row's label among the selected rows. *)
Lemma filter_label_selected (t : table) (poly : BaseGeometry) (o : row) :
  NoDup (label <$> rows t) → o ∈ rows t →
  filter (λ x, label x = label o) (selected_rows t poly) =
    if intersects (geometry o) poly then [o] else [].
Proof.
  intros Hnd Ho.
  assert (Heq : ∀ x, x ∈ selected_rows t poly → label x = label o → x = o).
  { intros x [Hx _]%elem_of_selected_rows Hl.
    apply list_elem_of_lookup_1 in Hx as [i Hi].
    apply list_elem_of_lookup_1 in Ho as [j Hj].
    assert (i = j) as ->; [|congruence].
    eapply NoDup_lookup; [exact Hnd| |]; rewrite list_lookup_fmap.
    - by rewrite Hi.
    - rewrite Hj. cbn. congruence. }
  pose proof (NoDup_selected_labels t poly Hnd) as Hs.
  pose proof (elem_of_selected_rows t poly o) as Ho'.
  induction (selected_rows t poly) as [|x l IH].
  - destruct (intersects (geometry o) poly); [|done].
    exfalso. eapply not_elem_of_nil, Ho'. done.
  - rewrite fmap_cons in Hs. apply NoDup_cons in Hs as [Hx Hl].
    rewrite filter_cons. destruct (decide (label x = label o)) as [Hlx|Hlx].
    + assert (x = o) as -> by (apply Heq; [left|done]).
      assert (Hint : intersects (geometry o) poly = true)
        by (apply Ho'; left).
      rewrite Hint. f_equal.
      destruct (filter (λ x, label x = label o) l) as [|y k] eqn:Hf; [done|].
      exfalso. apply Hx.
      assert (Hy : y ∈ filter (λ x, label x = label o) l) by (rewrite Hf; left).
      apply list_elem_of_filter in Hy as [Hy1 Hy2].
      apply list_elem_of_fmap. exists y. by split.
    + apply IH; [|done|].
      * intros y Hy. apply Heq. by right.
      * rewrite <- Ho'. split; [by right|].
        intros [->|?]%elem_of_cons; done.
Qed.

Lemma cls_reconciled (tc : table) (ty : geom_kind) : cls (reconciled tc ty) = cls tc.
Proof.
  unfold reconciled, filtered, exploded.
  repeat (match goal with |- context [if ?b then _ else _] => destruct b end);
    reflexivity.
Qed.

Lemma cls_kept (t : table) (poly : BaseGeometry) (keep_geom_type : bool) :
  cls (kept t poly keep_geom_type) = cls t.
Proof.
  unfold kept. destruct (_ && _); [rewrite cls_reconciled|];
    apply cls_clipped_table.
Qed.

Lemma rows_exploded (tc : table) :
  rows (exploded tc) = if has_collection tc then rows tc ≫= explode_row else rows tc.
Proof. unfold exploded. by destruct (has_collection tc). Qed.

Lemma rows_filtered (tc : table) (ty : geom_kind) :
  rows (filtered tc ty) =
    if isin ty _LINE_TYPES
    then filter (λ r, isin (geom_type (geometry r)) _LINE_TYPES = true) (rows (exploded tc))
    else if isin ty _POLYGON_TYPES
    then filter (λ r, isin (geom_type (geometry r)) _POLYGON_TYPES = true) (rows (exploded tc))
    else rows (exploded tc).
Proof.
  unfold filtered. destruct (isin ty _LINE_TYPES); [done|].
  by destruct (isin ty _POLYGON_TYPES).
Qed.

Lemma elem_of_exploded (tc : table) (x : row) :
  x ∈ rows (exploded tc) →
  ∃ y, y ∈ rows tc ∧ label x = label y ∧ attrs x = attrs y ∧
       (geometry x = geometry y ∨
        (has_collection tc = true ∧ geometry x ∈ parts (geometry y))).
Proof.
  rewrite rows_exploded. destruct (has_collection tc).
  - intros (y & Hx & Hy)%list_elem_of_bind. exists y. split; [done|].
    unfold explode_row in Hx.
    apply list_elem_of_fmap in Hx as (g & -> & Hg). cbn. eauto.
  - intros Hx. exists x. eauto.
Qed.

Lemma elem_of_reconciled (tc : table) (ty : geom_kind) (x : row) :
  x ∈ rows (reconciled tc ty) →
  ∃ y, y ∈ rows tc ∧ label x = label y ∧ attrs x = attrs y ∧
       (geometry x = geometry y ∨ geometry x ∈ parts (geometry y)).
Proof.
  unfold reconciled. destruct (needs_reconciliation tc).
  - rewrite rows_filtered. intros Hx.
    assert (Hx' : x ∈ rows (exploded tc)).
    { destruct (isin ty _LINE_TYPES);
        [by apply list_elem_of_filter in Hx as [_ ?]|].
      destruct (isin ty _POLYGON_TYPES);
        [by apply list_elem_of_filter in Hx as [_ ?]|done]. }
    apply elem_of_exploded in Hx' as (y & ? & ? & ? & [?|[_ ?]]); eauto 10.
  - intros Hx. exists x. eauto.
Qed.

Lemma elem_of_kept (t : table) (poly : BaseGeometry) (keep_geom_type : bool) (x : row) :
  x ∈ rows (kept t poly keep_geom_type) →
  ∃ y, y ∈ rows (clipped_table t poly) ∧ label x = label y ∧ attrs x = attrs y ∧
       (geometry x = geometry y ∨
        (keep_geom_type = true ∧ geometry x ∈ parts (geometry y))).
Proof.
  unfold kept. destruct keep_geom_type; cbn [andb].
  - destruct (keeping_possible t).
    + intros (y & ? & ? & ? & [?|?])%elem_of_reconciled; eauto 10.
    + intros Hx. exists x. eauto.
  - intros Hx. exists x. eauto.
Qed.

Lemma rows_restored (t tc : table) :
  rows (restored t tc) = unrank (cls tc) <$> sort_rows "_order" (ranked_rows t tc).
Proof. unfold restored, ranked, ranked_rows, unrank. by destruct (cls tc). Qed.

Lemma sort_key_ranked (t tc : table) (x : row) :
  x ∈ ranked_rows t tc → sort_key "_order" x = rank_of t (label x).
Proof.
  unfold ranked_rows. intros (y & -> & _)%list_elem_of_fmap.
  unfold sort_key, rank_of, rank_row. cbn. rewrite lookup_insert_eq.
  by destruct (series_at _ _).
Qed.

Lemma rows_framed (tc : table) :
  rows (framed tc) = match cls tc with
                     | GeoDataFrame => rows tc
                     | GeoSeries => bare <$> rows tc
                     end.
Proof. unfold framed. by destruct (cls tc). Qed.

(** A clipped collection that has rows keeps them when the helper column
    is assigned. *)
Lemma ranked_rows_nonempty (t tc : table) :
  rows tc ≠ [] →
  ranked_rows t tc = rank_row t <$> match cls tc with
                                    | GeoDataFrame => rows tc
                                    | GeoSeries => bare <$> rows tc
                                    end.
Proof.
  intros Hne. unfold ranked_rows. rewrite adopt_index_nonempty, rows_framed; [done|].
  rewrite rows_framed. destruct (cls tc); [done|]. by intros ?%fmap_nil_inv.
Qed.

Lemma elem_of_ranked_rows (t tc : table) (x : row) :
  rows tc ≠ [] → x ∈ ranked_rows t tc →
  ∃ z, z ∈ rows tc ∧ label x = label z ∧ geometry x = geometry z ∧
       delete "_order" (attrs x) =
         match cls tc with
         | GeoDataFrame => delete "_order" (attrs z)
         | GeoSeries => ∅
         end.
Proof.
  intros Hne. rewrite (ranked_rows_nonempty t tc Hne).
  intros (y & -> & Hy)%list_elem_of_fmap.
  unfold rank_row. cbn. rewrite delete_insert_eq. destruct (cls tc).
  - exists y. eauto.
  - apply list_elem_of_fmap in Hy as (z & -> & Hz). exists z. cbn.
    rewrite delete_empty. eauto.
Qed.

Lemma elem_of_restored (t tc : table) (x : row) :
  rows tc ≠ [] → x ∈ rows (restored t tc) →
  ∃ z, z ∈ rows tc ∧ label x = label z ∧ geometry x = geometry z ∧
       attrs x = match cls tc with
                 | GeoDataFrame => delete "_order" (attrs z)
                 | GeoSeries => ∅
                 end.
Proof.
  intros Hne. rewrite rows_restored. intros (y & -> & Hy)%list_elem_of_fmap.
  rewrite sort_rows_perm in Hy.
  apply elem_of_ranked_rows in Hy as (z & Hz & Hl & Hg & Ha); [|done].
  exists z. split; [done|]. unfold unrank.
  destruct (cls tc); cbn; eauto.
Qed.

Lemma label_unrank (c : pandas_class) (x : row) : label (unrank c x) = label x.
Proof. by destruct c. Qed.

Lemma geometry_unrank (c : pandas_class) (x : row) : geometry (unrank c x) = geometry x.
Proof. by destruct c. Qed.

(** The output is sorted by the rank of the labels. *)
Lemma restored_sorted (t tc : table) (a b : nat) (ra rb : row) :
  rows (restored t tc) !! a = Some ra → rows (restored t tc) !! b = Some rb →
  a < b → key_le (rank_of t (label ra)) (rank_of t (label rb)) = true.
Proof.
  rewrite rows_restored, !list_lookup_fmap. intros Ha Hb Hlt.
  destruct (sort_rows "_order" (ranked_rows t tc) !! a) as [xa|] eqn:Hxa; [|done].
  destruct (sort_rows "_order" (ranked_rows t tc) !! b) as [xb|] eqn:Hxb; [|done].
  cbn in Ha, Hb. injection Ha as <-. injection Hb as <-.
  rewrite !label_unrank.
  rewrite <- (sort_key_ranked t tc xa), <- (sort_key_ranked t tc xb).
  - exact (StronglySorted_lookup_lt _ _ _ _ _ _ (sort_rows_sorted _ _) Hxa Hxb Hlt).
  - rewrite <- (sort_rows_perm "_order"). by eapply list_elem_of_lookup_2.
  - rewrite <- (sort_rows_perm "_order"). by eapply list_elem_of_lookup_2.
Qed.

(** The output rows of one label are the clipped rows of that label, in the
    order they had before sorting. *)
Lemma filter_label_restored (t tc : table) (L : Z) :
  rows tc ≠ [] →
  geometry <$> filter (λ x, label x = L) (rows (restored t tc)) =
  geometry <$> filter (λ x, label x = L) (rows tc).
Proof.
  intros Hne. rewrite rows_restored.
  rewrite (filter_fmap_comm _ _ (λ x, label x = L))
    by (intros x; by rewrite label_unrank).
  rewrite sort_rows_stable.
  2:{ intros x y Hx Hy Hlx Hly.
      rewrite (sort_key_ranked t tc x), (sort_key_ranked t tc y) by done.
      congruence. }
  rewrite (ranked_rows_nonempty t tc Hne).
  rewrite (filter_fmap_comm _ _ (λ x, label x = L)) by done.
  rewrite <- !list_fmap_compose. destruct (cls tc).
  - by apply list_fmap_ext.
  - rewrite (filter_fmap_comm _ _ (λ x, label x = L)) by done.
    rewrite <- !list_fmap_compose. by apply list_fmap_ext.
Qed.

Lemma rank_of_label (t : table) (i : nat) (o : row) :
  NoDup (label <$> rows t) → rows t !! i = Some o →
  rank_of t (label o) = Some (Z.of_nat i).
Proof.
  intros Hnd Hi. unfold rank_of, series_at, order_series.
  assert (Hz : zip (label <$> rows t) (Z.of_nat <$> seq 0 (length (rows t))) !! i
               = Some (label o, Z.of_nat i)).
  { apply lookup_zip_with_Some. exists (label o), (Z.of_nat i).
    pose proof (lookup_lt_Some _ _ _ Hi).
    rewrite !list_lookup_fmap, Hi, lookup_seq_lt by done. done. }
  destruct (list_find_elem_of (λ p : Z * Z, p.1 = label o) _ _
              (list_elem_of_lookup_2 _ _ _ Hz) eq_refl) as [[j [l v]] Hf].
  rewrite Hf. apply list_find_Some in Hf as (Hj & Hl & _). cbn in Hl. subst l.
  apply lookup_zip_with_Some in Hj as (l' & v' & [= <- <-] & Hj1 & Hj2).
  assert (j = i) as ->.
  { eapply NoDup_lookup; [exact Hnd|exact Hj1|]. by rewrite list_lookup_fmap, Hi. }
  rewrite list_lookup_fmap in Hj2.
  rewrite lookup_seq_lt in Hj2 by (by eapply lookup_lt_Some). by injection Hj2 as <-.
Qed.

(** ** Rejected arguments *)

Lemma clip_invalid_run (s : state) (gdf mask : value) (keep_geom_type : bool) :
  ¬ valid_gdf s gdf ∨ ¬ valid_mask s mask →
  ∃ msg, clip gdf mask keep_geom_type s = (Raise (TypeError msg), s).
Proof.
  intros Hinv. unfold clip, _validate_inputs.
  destruct (decide (valid_gdf s gdf)) as [Hg|Hg].
  - destruct Hinv as [?|Hm]; [done|].
    eexists. apply bind_raise.
    erewrite bind_ok.
    2:{ unfold _validate_input_gdf. erewrite bind_ok by reflexivity.
        rewrite (bool_decide_eq_true_2 _ Hg). reflexivity. }
    apply bind_raise. unfold _validate_input_mask.
    erewrite bind_ok by reflexivity.
    rewrite (bool_decide_eq_false_2 _ Hm). reflexivity.
  - eexists. apply bind_raise, bind_raise. unfold _validate_input_gdf.
    erewrite bind_ok by reflexivity.
    rewrite (bool_decide_eq_false_2 _ Hg). reflexivity.
Qed.

(** ** Bounding boxes *)

Lemma boxes_overlap_nan_l (b : bbox) : boxes_overlap nan_box b = false.
Proof. unfold boxes_overlap. cbn. by destruct (minx b). Qed.

Lemma boxes_overlap_nan_r (b : bbox) : boxes_overlap b nan_box = false.
Proof. reflexivity. Qed.

Lemma total_bounds_empty (t : table) : rows t = [] → total_bounds t = nan_box.
Proof. unfold total_bounds. by intros ->. Qed.

(** On boxes of finite numbers the test is the closed-interval overlap of
    the two boxes on both axes. *)
Lemma boxes_overlap_closed (cx0 cy0 cx1 cy1 mx0 my0 mx1 my1 : Q) :
  boxes_overlap (BBox (Num cx0) (Num cy0) (Num cx1) (Num cy1))
                (BBox (Num mx0) (Num my0) (Num mx1) (Num my1)) = true ↔
  (mx0 <= cx1)%Q ∧ (cx0 <= mx1)%Q ∧ (my0 <= cy1)%Q ∧ (cy0 <= my1)%Q.
Proof.
  unfold boxes_overlap. cbn. rewrite !andb_true_iff, !Qle_bool_iff. tauto.
Qed.

Lemma crs_warnings_cases (s : state) (t : table) (mask : value) :
  crs_warnings s t mask = [] ∨
  crs_warnings s t mask = [Warn crs_mismatch_message] ∧
    ∃ m tm, mask = Ref m ∧ heap s !! m = Some tm ∧ crs t ≠ crs tm.
Proof.
  unfold crs_warnings. destruct mask as [m| |]; eauto.
  destruct (heap s !! m) as [tm|] eqn:Hm; eauto.
  destruct (decide (crs t = crs tm)) as [Heq|Hne].
  - rewrite bool_decide_eq_true_2 by done. eauto.
  - rewrite bool_decide_eq_false_2 by done. right. eauto 10.
Qed.

Lemma same_schema_with_rows (t : table) (rs : list row) :
  same_schema (with_rows t rs) t.
Proof. by repeat split. Qed.

(** ** The properties of the module *)

(** C7. When the input is not a GeoDataFrame or GeoSeries, or the mask is
    not a GeoDataFrame, GeoSeries, Polygon or MultiPolygon, [clip] raises
    TypeError and the state is the one it started from: nothing was logged
    (no bounding-box test, no mask resolution, no spatial query, no
    intersection) and the store is untouched. *)
Theorem clip_invalid_argument_type (s : state) (gdf mask : value)
    (keep_geom_type : bool) :
  ¬ valid_gdf s gdf ∨ ¬ valid_mask s mask →
  ∃ msg, clip gdf mask keep_geom_type s = (Raise (TypeError msg), s).
Proof. apply clip_invalid_run. Qed.

(** C8. [clip] never mutates what it is given: whatever the arguments,
    every object that was in the store before the call (the input and the
    mask among them) is still there afterwards with the same class, name,
    CRS, columns and rows; and when [clip] returns, it returns a reference
    that did not exist before the call. *)
Theorem clip_never_mutates_inputs (h : list table) (l : list event)
    (gdf mask : value) (keep_geom_type : bool) :
  preserves h (heap (clip gdf mask keep_geom_type (State h l)).2) ∧
  ∀ v, (clip gdf mask keep_geom_type (State h l)).1 = Ok v →
       ∃ n, v = Ref n ∧ length h ≤ n ∧
            is_Some (heap (clip gdf mask keep_geom_type (State h l)).2 !! n).
Proof.
  destruct (decide (valid_gdf (State h l) gdf)) as [Hg|Hg];
    [destruct (decide (valid_mask (State h l) mask)) as [Hm|Hm]|].
  - apply valid_gdf_inv in Hg as (r & t & -> & Hr).
    destruct (clip_outcome h l r t mask keep_geom_type Hr Hm)
      as (res & h' & evs & -> & Hp & Hres).
    cbn. split; [done|]. by intros v ->.
  - destruct (clip_invalid_run (State h l) gdf mask keep_geom_type) as [msg ->];
      [by right|].
    cbn. split; [apply preserves_refl|done].
  - destruct (clip_invalid_run (State h l) gdf mask keep_geom_type) as [msg ->];
      [by left|].
    cbn. split; [apply preserves_refl|done].
Qed.

(** C9. On an accepted input with zero rows and any accepted mask, [clip]
    raises no error and returns an empty collection with the schema of the
    input. *)
Theorem clip_empty_input (h : list table) (l : list event) (r : nat) (t : table)
    (mask : value) (keep_geom_type : bool) :
  h !! r = Some t → rows t = [] → valid_mask (State h l) mask →
  ∃ n s' out,
    clip (Ref r) mask keep_geom_type (State h l) = (Ok (Ref n), s') ∧
    heap s' !! n = Some out ∧ rows out = [] ∧ same_schema out t.
Proof.
  intros Hr Hnil Hm.
  rewrite (clip_disjoint_run h l r t mask keep_geom_type Hr Hm).
  - do 3 eexists. split; [reflexivity|]. split; [apply lookup_snoc|].
    split; [done|apply same_schema_with_rows].
  - unfold overlap. rewrite (total_bounds_empty t Hnil).
    apply boxes_overlap_nan_l.
Qed.

(** C10. [_keep_only_original_geom_type] is the identity on a clean clipped
    collection: when it holds no GeometryCollection and at most one
    geometry family, the function returns the very reference it was given
    and leaves the state unchanged, whatever the original type; hence
    applying it twice is the same as applying it once. *)
Theorem keep_only_original_geom_type_clean (h : list table) (l : list event)
    (c : nat) (tc : table) (original_type : geom_kind) :
  h !! c = Some tc →
  any_eq (geom_types tc) GeometryCollection = false →
  count_families (geom_types tc) ≤ 1 →
  _keep_only_original_geom_type (Ref c) original_type (State h l) =
    (Ok (Ref c), State h l) ∧
  bind (_keep_only_original_geom_type (Ref c) original_type)
       (λ v, _keep_only_original_geom_type v original_type) (State h l) =
    _keep_only_original_geom_type (Ref c) original_type (State h l).
Proof.
  intros Hc Hgc Hcount.
  assert (Hrun : _keep_only_original_geom_type (Ref c) original_type (State h l) =
                 (Ok (Ref c), State h l)).
  { unfold _keep_only_original_geom_type, _get_number_of_unique_geometry_types.
    py_run geom_type_of_run. py_run geom_type_of_run. py_pure.
    rewrite Hgc, bool_decide_eq_false_2 by lia. reflexivity. }
  split; [exact Hrun|]. by rewrite (bind_ok _ _ _ _ _ Hrun).
Qed.



(** C3 (amended). When the total bounds of an accepted input and mask do
    not overlap, [clip] returns an empty collection with the schema of the
    input and raises no exception; the only engine calls are the two
    bounding-box reads (no mask resolution, no spatial query, no
    intersection); and the only warning that can be emitted is the
    CRS-mismatch warning of input validation, which is emitted exactly when
    the mask is a collection whose CRS differs from that of the input. *)
Theorem clip_disjoint_bounds (h : list table) (l : list event) (r : nat)
    (t : table) (mask : value) (keep_geom_type : bool) :
  h !! r = Some t → valid_mask (State h l) mask →
  boxes_overlap (total_bounds t) (mask_bounds (State h l) mask) = false →
  ∃ n s' out,
    clip (Ref r) mask keep_geom_type (State h l) = (Ok (Ref n), s') ∧
    heap s' !! n = Some out ∧ rows out = [] ∧ same_schema out t ∧
    log s' = l ++ crs_warnings (State h l) t mask ++
                  [CallTotalBounds; mask_bounds_event mask] ∧
    (crs_warnings (State h l) t mask = [] ∨
     crs_warnings (State h l) t mask = [Warn crs_mismatch_message] ∧
       ∃ m tm, mask = Ref m ∧ h !! m = Some tm ∧ crs t ≠ crs tm).
Proof.
  intros Hr Hm Hov.
  rewrite (clip_disjoint_run h l r t mask keep_geom_type Hr Hm Hov).
  do 3 eexists. split; [reflexivity|]. split; [apply lookup_snoc|].
  split; [done|]. split; [apply same_schema_with_rows|].
  split; [reflexivity|]. apply (crs_warnings_cases (State h l)).
Qed.

(** C6 (amended). When the mask is a collection with zero features, [clip]
    raises no error: the total bounds of the mask are undefined, the
    bounding-box test is false, and [clip] returns an empty collection with
    the schema of the input without ever resolving the mask. *)
Theorem clip_empty_mask_collection (h : list table) (l : list event)
    (r m : nat) (t tm : table) (keep_geom_type : bool) :
  h !! r = Some t → h !! m = Some tm → rows tm = [] →
  ∃ n s' out,
    clip (Ref r) (Ref m) keep_geom_type (State h l) = (Ok (Ref n), s') ∧
    heap s' !! n = Some out ∧ rows out = [] ∧ same_schema out t ∧
    log s' = l ++ crs_warnings (State h l) t (Ref m) ++
                  [CallTotalBounds; CallTotalBounds].
Proof.
  intros Hr Hm Hnil.
  assert (Hv : valid_mask (State h l) (Ref m)) by (apply valid_mask_inv; eauto).
  rewrite (clip_disjoint_run h l r t (Ref m) keep_geom_type Hr Hv).
  - do 3 eexists. split; [reflexivity|]. split; [apply lookup_snoc|].
    split; [done|]. split; [apply same_schema_with_rows|reflexivity].
  - unfold overlap, mask_bounds. cbn [heap]. rewrite Hm. cbn.
    rewrite (total_bounds_empty tm Hnil). apply boxes_overlap_nan_r.
Qed.


(** ** The candidates as a rearrangement of the intersecting rows *)

Lemma omap_ext_elem {A B : Type} (f g : A → option B) (l : list A) :
  (∀ x, x ∈ l → f x = g x) → omap f l = omap g l.
Proof.
  induction l as [|x l IH]; intros Hfg; [done|].
  cbn. rewrite (Hfg x) by left. rewrite IH; [done|].
  intros y Hy. apply Hfg. by right.
Qed.

Lemma omap_lookup_filter_seq {A : Type} (P : A → Prop) (Q : nat → Prop)
    `{!∀ x, Decision (P x)} `{!∀ i, Decision (Q i)} (l : list A) :
  (∀ i x, l !! i = Some x → (Q i ↔ P x)) →
  omap (λ i, l !! i) (filter Q (seq 0 (length l))) = filter P l.
Proof.
  induction l as [|x l IH] using rev_ind; intros HQ; [done|].
  rewrite length_app, Nat.add_1_r, seq_S, !filter_app, omap_app. cbn [Nat.add].
  f_equal.
  - rewrite <- IH.
    + apply omap_ext_elem. intros i [_ Hi%elem_of_seq]%list_elem_of_filter.
      apply lookup_app_l. lia.
    + intros i y Hi. apply HQ. by apply lookup_app_l_Some.
  - specialize (HQ (length l) x (lookup_snoc l x)).
    rewrite !filter_cons, !filter_nil.
    destruct (decide (Q (length l))) as [Hq|Hq], (decide (P x)) as [Hp|Hp];
      try done; try (by apply HQ in Hq); try (by apply HQ in Hp).
    cbn. by rewrite lookup_snoc.
Qed.

Lemma selected_rows_perm (t : table) (poly : BaseGeometry) :
  selected_rows t poly ≡ₚ
  filter (λ x, intersects (geometry x) poly = true) (rows t).
Proof.
  unfold selected_rows, candidates.
  rewrite (sindex_query_spec _ poly). unfold intersecting_positions.
  rewrite length_fmap.
  rewrite (omap_lookup_filter_seq
             (λ x, intersects (geometry x) poly = true)
             (λ i, from_option (λ g, intersects g poly) false
                     ((geometry <$> rows t) !! i) = true));
    [done|].
  intros i x Hi. by rewrite list_lookup_fmap, Hi.
Qed.

Lemma any_eq_perm (xs ys : list geom_kind) (k : geom_kind) :
  xs ≡ₚ ys → any_eq xs k = any_eq ys k.
Proof.
  intros Hp. unfold any_eq. apply eq_true_iff_eq.
  rewrite !existsb_exists. setoid_rewrite <- list_elem_of_In.
  by setoid_rewrite Hp.
Qed.

Lemma any_isin_perm (xs ys : list geom_kind) (ks : list geom_kind) :
  xs ≡ₚ ys → any_isin xs ks = any_isin ys ks.
Proof.
  intros Hp. unfold any_isin. apply eq_true_iff_eq.
  rewrite !existsb_exists. setoid_rewrite <- list_elem_of_In.
  by setoid_rewrite Hp.
Qed.

Lemma count_families_perm (xs ys : list geom_kind) :
  xs ≡ₚ ys → count_families xs = count_families ys.
Proof.
  intros Hp. unfold count_families, _GEOMETRY_TYPES. cbn.
  by rewrite !(any_isin_perm xs ys).
Qed.

Lemma geom_types_clipped_perm (t : table) (poly : BaseGeometry) :
  geom_types (clipped_table t poly) ≡ₚ raw_types t poly.
Proof.
  unfold geom_types, raw_types. rewrite rows_clipped_table.
  rewrite <- list_fmap_compose, <- selected_rows_perm.
  erewrite list_fmap_ext; [reflexivity|]. intros _ x _. by destruct (cls t).
Qed.

Lemma needs_reconciliation_raw (t : table) (poly : BaseGeometry) :
  needs_reconciliation (clipped_table t poly) = true ↔
  any_eq (raw_types t poly) GeometryCollection = true ∨
  1 < count_families (raw_types t poly).
Proof.
  unfold needs_reconciliation, has_collection, is_mixed.
  rewrite (any_eq_perm _ _ _ (geom_types_clipped_perm t poly)).
  rewrite (count_families_perm _ _ (geom_types_clipped_perm t poly)).
  by rewrite orb_true_iff, bool_decide_eq_true.
Qed.

(** ** The surviving rows of one original row *)

Lemma sublist_fmap_filter {A B : Type} (f : A → B) (Q : A → Prop)
    `{!∀ x, Decision (Q x)} (l : list A) :
  f <$> filter Q l `sublist_of` f <$> l.
Proof.
  induction l as [|x l IH]; [done|].
  rewrite filter_cons. destruct (decide (Q x)); cbn.
  - by apply sublist_skip.
  - by apply sublist_cons.
Qed.

Lemma filter_comm {A : Type} (P Q : A → Prop)
    `{!∀ x, Decision (P x)} `{!∀ x, Decision (Q x)} (l : list A) :
  filter P (filter Q l) = filter Q (filter P l).
Proof.
  rewrite !list_filter_filter. apply list_filter_iff. tauto.
Qed.

Lemma filter_label_clipped (t : table) (poly : BaseGeometry) (o : row) :
  NoDup (label <$> rows t) → o ∈ rows t →
  filter (λ x, label x = label o) (rows (clipped_table t poly)) =
    if intersects (geometry o) poly then [clip_row (cls t) poly o] else [].
Proof.
  intros Hnd Ho. rewrite rows_clipped_table.
  rewrite (filter_fmap_comm _ _ (λ x, label x = label o))
    by (intros x; by destruct (cls t)).
  rewrite (filter_label_selected t poly o Hnd Ho).
  by destruct (intersects (geometry o) poly).
Qed.

Lemma geometry_clip_row (c : pandas_class) (poly : BaseGeometry) (o : row) :
  geometry (clip_row c poly o) = intersection (geometry o) poly.
Proof. by destruct c. Qed.

Lemma filter_label_exploded (tc : table) (L : Z) :
  filter (λ x, label x = L) (rows (exploded tc)) =
    if has_collection tc
    then filter (λ x, label x = L) (rows tc) ≫= explode_row
    else filter (λ x, label x = L) (rows tc).
Proof.
  rewrite rows_exploded. destruct (has_collection tc); [|done].
  apply filter_bind_comm. intros x y Hy.
  unfold explode_row in Hy. by apply list_elem_of_fmap in Hy as (g & -> & _).
Qed.

Lemma geometry_explode_row (x : row) :
  geometry <$> explode_row x = parts (geometry x).
Proof.
  unfold explode_row. rewrite <- list_fmap_compose.
  rewrite <- (list_fmap_id (parts (geometry x))) at 2. by apply list_fmap_ext.
Qed.

(** The geometries of the rows of one original row that reach the sort
    are, in order, a subsequence of its intersection with the mask or of
    the parts that intersection explodes into. *)
Lemma kept_label_geoms (t : table) (poly : BaseGeometry) (keep_geom_type : bool)
    (o : row) :
  NoDup (label <$> rows t) → o ∈ rows t →
  geometry <$> filter (λ x, label x = label o) (rows (kept t poly keep_geom_type))
    `sublist_of` [intersection (geometry o) poly] ∨
  geometry <$> filter (λ x, label x = label o) (rows (kept t poly keep_geom_type))
    `sublist_of` parts (intersection (geometry o) poly).
Proof.
  intros Hnd Ho.
  pose proof (filter_label_clipped t poly o Hnd Ho) as Hc.
  assert (Hraw : geometry <$> filter (λ x, label x = label o)
                                (rows (clipped_table t poly))
                 `sublist_of` [intersection (geometry o) poly]).
  { rewrite Hc. destruct (intersects (geometry o) poly); cbn.
    - by rewrite geometry_clip_row.
    - apply sublist_nil_l. }
  assert (Hexp : geometry <$> filter (λ x, label x = label o)
                                (rows (exploded (clipped_table t poly)))
                 `sublist_of` [intersection (geometry o) poly] ∨
                 geometry <$> filter (λ x, label x = label o)
                                (rows (exploded (clipped_table t poly)))
                 `sublist_of` parts (intersection (geometry o) poly)).
  { rewrite filter_label_exploded. destruct (has_collection _); [|by left].
    right. rewrite Hc. destruct (intersects (geometry o) poly); cbn.
    - rewrite app_nil_r, geometry_explode_row, geometry_clip_row. done.
    - apply sublist_nil_l. }
  unfold kept. destruct (keep_geom_type && keeping_possible t); [|by left].
  unfold reconciled. destruct (needs_reconciliation _); [|by left].
  rewrite rows_filtered.
  destruct (isin _ _LINE_TYPES); [|destruct (isin _ _POLYGON_TYPES)];
    try done;
    rewrite filter_comm;
    (destruct Hexp as [Hexp|Hexp]; [left|right];
     (etrans; [apply sublist_fmap_filter|exact Hexp])).
Qed.

(** ** Polygon-only collections *)

Lemma existsb_false_elem {A : Type} (f : A → bool) (l : list A) :
  (∀ x, x ∈ l → f x = false) → existsb f l = false.
Proof.
  induction l as [|x l IH]; intros Hf; [done|].
  cbn. rewrite (Hf x) by left. apply IH. intros y Hy. apply Hf. by right.
Qed.

Lemma polygons_keeping_possible (t : table) :
  (∀ k, k ∈ geom_types t → isin k _POLYGON_TYPES = true) →
  keeping_possible t = true.
Proof.
  intros Hp. unfold keeping_possible, has_collection, is_mixed.
  assert (Hgc : any_eq (geom_types t) GeometryCollection = false).
  { apply existsb_false_elem. intros k Hk. specialize (Hp k Hk). by destruct k. }
  assert (Hpt : any_isin (geom_types t) _POINT_TYPES = false).
  { apply existsb_false_elem. intros k Hk. specialize (Hp k Hk). by destruct k. }
  assert (Hln : any_isin (geom_types t) _LINE_TYPES = false).
  { apply existsb_false_elem. intros k Hk. specialize (Hp k Hk). by destruct k. }
  unfold count_families, _GEOMETRY_TYPES.
  cbn [fmap list_fmap sum_list sum_list_with]. rewrite Hgc, Hpt, Hln.
  rewrite bool_decide_eq_false_2; [done|].
  destruct (any_isin (geom_types t) _POLYGON_TYPES); cbn; lia.
Qed.

Lemma polygons_original_type (t : table) :
  (∀ k, k ∈ geom_types t → isin k _POLYGON_TYPES = true) → rows t ≠ [] →
  isin (original_type t) _LINE_TYPES = false ∧
  isin (original_type t) _POLYGON_TYPES = true.
Proof.
  intros Hp Hne. unfold original_type.
  assert (Hk : ∃ k, head (geom_types t) = Some k ∧ k ∈ geom_types t).
  { unfold geom_types. destruct (rows t) as [|x k]; [done|].
    cbn. eexists. split; [done|left]. }
  destruct Hk as (k & -> & Hk). specialize (Hp k Hk). cbn. by destruct k.
Qed.

Lemma needs_reconciliation_nil (tc : table) :
  rows tc = [] → needs_reconciliation tc = false.
Proof.
  intros Hnil. unfold needs_reconciliation, has_collection, is_mixed, geom_types.
  by rewrite Hnil.
Qed.

Lemma kept_nil (t : table) (poly : BaseGeometry) (keep_geom_type : bool) :
  rows (clipped_table t poly) = [] → rows (kept t poly keep_geom_type) = [].
Proof.
  intros Hnil. unfold kept, reconciled.
  rewrite (needs_reconciliation_nil _ Hnil). by destruct (_ && _).
Qed.

(** The rows of the result of [clip] when the pipeline runs to its end. *)
Lemma rows_clip_table (s : state) (t : table) (mask : value) (keep_geom_type : bool)
    (poly : BaseGeometry) :
  resolved_mask s mask = Some poly →
  rows (clip_table s t mask keep_geom_type) = [] ∨
  rows (clipped_table t poly) ≠ [] ∧ overlap s t mask = true ∧
  clip_table s t mask keep_geom_type = restored t (kept t poly keep_geom_type).
Proof.
  intros Hpoly. unfold clip_table. rewrite Hpoly.
  destruct (overlap s t mask); [|by left].
  destruct (decide (rows (clipped_table t poly) = [])) as [Hnil|Hne].
  - rewrite bool_decide_eq_true_2 by done. by left.
  - rewrite bool_decide_eq_false_2 by done. by right.
Qed.

(** C4 (amended). For a collection with unique index labels that holds only
    Polygon-family geometries and whose geometry column is not named
    "_order", [clip] with keep_geom_type on returns, and its result holds
    only Polygon-family geometries whenever the raw intersection result
    contains a GeometryCollection or more than one geometry family and the
    type filter leaves at least one row.
    Reconciliation itself, whenever the clipped collection contains a
    GeometryCollection or more than one family, explodes the rows if there
    is a GeometryCollection and then keeps exactly the Line-family rows for a
    Line-family original type, exactly the Polygon-family rows for a
    Polygon-family original type, and every row otherwise. *)
Theorem clip_keep_geom_type_polygons (h : list table) (l : list event) (r : nat)
    (t : table) (mask : value) (poly : BaseGeometry) :
  h !! r = Some t → valid_mask (State h l) mask →
  resolved_mask (State h l) mask = Some poly →
  NoDup (label <$> rows t) →
  (cls t = GeoDataFrame → name t ≠ Some "_order") →
  (∀ k, k ∈ geom_types t → isin k _POLYGON_TYPES = true) →
  (∃ n s' out,
     clip (Ref r) mask true (State h l) = (Ok (Ref n), s') ∧
     heap s' !! n = Some out ∧
     (any_eq (raw_types t poly) GeometryCollection = true ∨
        1 < count_families (raw_types t poly) →
      rows (kept t poly true) ≠ [] →
      ∀ x, x ∈ rows out → isin (geom_type (geometry x)) _POLYGON_TYPES = true)) ∧
  (∀ (h0 : list table) (l0 : list event) (c : nat) (tc : table)
     (original_type : geom_kind),
     h0 !! c = Some tc →
     any_eq (geom_types tc) GeometryCollection = true ∨
       1 < count_families (geom_types tc) →
     ∃ c' s' out,
       _keep_only_original_geom_type (Ref c) original_type (State h0 l0) =
         (Ok (Ref c'), s') ∧
       heap s' !! c' = Some out ∧
       rows out =
         let post := if any_eq (geom_types tc) GeometryCollection
                     then rows tc ≫= explode_row else rows tc in
         if isin original_type _LINE_TYPES
         then filter (λ x, isin (geom_type (geometry x)) _LINE_TYPES = true) post
         else if isin original_type _POLYGON_TYPES
         then filter (λ x, isin (geom_type (geometry x)) _POLYGON_TYPES = true) post
         else post).
Proof.
  intros Hr Hm Hpoly Hnd Hname Hp. split.
  - destruct (clip_run h l r t mask true Hr Hm Hnd Hname)
      as (n & h' & evs & Hrun & Hn & _).
    exists n, (State h' (l ++ evs)), (clip_table (State h l) t mask true).
    split; [done|]. split; [done|].
    intros Hraw%needs_reconciliation_raw Hleft x.
    destruct (rows_clip_table (State h l) t mask true poly Hpoly)
      as [->|(Hne & _ & ->)]; [by intros ?%not_elem_of_nil|].
    intros (z & Hz & _ & -> & _)%elem_of_restored; [|done].
    unfold kept in Hz. rewrite (polygons_keeping_possible t Hp) in Hz.
    cbn [andb] in Hz. unfold reconciled in Hz. rewrite Hraw, rows_filtered in Hz.
    destruct (polygons_original_type t Hp (clipped_rows_nonempty _ _ Hne))
      as [Hline Hpolygon].
    rewrite Hline, Hpolygon in Hz.
    by apply list_elem_of_filter in Hz as [? _].
  - intros h0 l0 c tc ty Hc Hneeds.
    destruct (_keep_only_original_geom_type_run h0 l0 c tc ty Hc)
      as (c' & Hrun & Hc' & _).
    do 3 eexists. split; [exact Hrun|]. split; [exact Hc'|].
    assert (Hn : needs_reconciliation tc = true).
    { unfold needs_reconciliation, has_collection, is_mixed.
      by rewrite orb_true_iff, bool_decide_eq_true. }
    unfold reconciled. rewrite Hn, rows_filtered, rows_exploded. done.
Qed.

(** C1 (amended). On accepted arguments, for a collection with unique index
    labels whose geometry column is not named "_order", [clip] returns;
    and unless type reconciliation has removed every row of the clipping
    result, every row of the result arises from an original row whose
    geometry intersects the resolved mask polygon: it has that row's index
    label; its geometry is the exact intersection of that row's geometry
    with the mask polygon or, with keep_geom_type on only, one of the parts
    that intersection is exploded into; and its attribute values are those
    of that row for every column other than the helper column "_order" (a
    bare geometry sequence has no attributes). *)
Theorem clip_rows_arise_from_intersection (h : list table) (l : list event)
    (r : nat) (t : table) (mask : value) (keep_geom_type : bool)
    (poly : BaseGeometry) :
  h !! r = Some t → valid_mask (State h l) mask →
  resolved_mask (State h l) mask = Some poly →
  NoDup (label <$> rows t) →
  (cls t = GeoDataFrame → name t ≠ Some "_order") →
  (rows (kept t poly keep_geom_type) = [] → rows (clipped_table t poly) = []) →
  ∃ n s' out,
    clip (Ref r) mask keep_geom_type (State h l) = (Ok (Ref n), s') ∧
    heap s' !! n = Some out ∧
    ∀ x, x ∈ rows out →
      ∃ o, o ∈ rows t ∧ intersects (geometry o) poly = true ∧
           label x = label o ∧
           (geometry x = intersection (geometry o) poly ∨
            (keep_geom_type = true ∧
             geometry x ∈ parts (intersection (geometry o) poly))) ∧
           attrs x = match cls t with
                     | GeoDataFrame => delete "_order" (attrs o)
                     | GeoSeries => ∅
                     end ∧
           (cls t = GeoDataFrame → attrs o !! "_order" = None → attrs x = attrs o).
Proof.
  intros Hr Hm Hpoly Hnd Hname Hleft.
  destruct (clip_run h l r t mask keep_geom_type Hr Hm Hnd Hname)
    as (n & h' & evs & Hrun & Hn & _).
  exists n, (State h' (l ++ evs)), (clip_table (State h l) t mask keep_geom_type).
  split; [done|]. split; [done|]. intros x.
  destruct (rows_clip_table (State h l) t mask keep_geom_type poly Hpoly)
    as [->|(Hne & _ & ->)]; [by intros ?%not_elem_of_nil|].
  intros (z & Hz & Hlz & Hgz & Haz)%elem_of_restored; [|by intros ?%Hleft].
  rewrite cls_kept in Haz.
  apply elem_of_kept in Hz as (y & Hy & Hly & Hay & Hgy).
  rewrite rows_clipped_table in Hy.
  apply list_elem_of_fmap in Hy as (o & -> & [Ho Hint]%elem_of_selected_rows).
  rewrite geometry_clip_row in Hgy.
  exists o. split; [done|]. split; [done|].
  split; [rewrite Hlz, Hly; by destruct (cls t)|].
  split; [by rewrite Hgz|].
  assert (Hattrs : attrs x = match cls t with
                             | GeoDataFrame => delete "_order" (attrs o)
                             | GeoSeries => ∅
                             end).
  { rewrite Haz, Hay. by destruct (cls t). }
  split; [done|]. intros Hcls Hnone. rewrite Hattrs, Hcls. by apply delete_id.
Qed.

(** C2 (amended). On a collection whose index labels are unique and whose
    geometry column is not named "_order", the output of [clip] is in the
    order of the input: an output row that carries the label of the
    original row at position [i] precedes every output row that carries the
    label of the original row at a later position [j].  Unless type
    reconciliation has removed every row of the clipping result, the
    output rows of one original row carry, in order, a subsequence of that
    row's intersection with the mask or of the parts it was exploded into;
    and when the bounding boxes overlap they are, in the same order, the
    rows of that label that reached the order restoration: none is lost,
    none is added, and the explosion order is kept. *)
Theorem clip_preserves_order (h : list table) (l : list event) (r : nat)
    (t : table) (mask : value) (keep_geom_type : bool) (poly : BaseGeometry) :
  h !! r = Some t → valid_mask (State h l) mask →
  resolved_mask (State h l) mask = Some poly →
  NoDup (label <$> rows t) →
  (cls t = GeoDataFrame → name t ≠ Some "_order") →
  ∃ n s' out,
    clip (Ref r) mask keep_geom_type (State h l) = (Ok (Ref n), s') ∧
    heap s' !! n = Some out ∧
    (∀ i j oi oj a b ra rb,
       rows t !! i = Some oi → rows t !! j = Some oj → i < j →
       rows out !! a = Some ra → rows out !! b = Some rb →
       label ra = label oi → label rb = label oj → a < b) ∧
    ((rows (kept t poly keep_geom_type) = [] → rows (clipped_table t poly) = []) →
     (∀ o, o ∈ rows t →
        geometry <$> filter (λ x, label x = label o) (rows out)
          `sublist_of` [intersection (geometry o) poly] ∨
        geometry <$> filter (λ x, label x = label o) (rows out)
          `sublist_of` parts (intersection (geometry o) poly)) ∧
     (boxes_overlap (total_bounds t) (mask_bounds (State h l) mask) = true →
      ∀ L, geometry <$> filter (λ x, label x = L) (rows out) =
           geometry <$> filter (λ x, label x = L)
                          (rows (kept t poly keep_geom_type)))).
Proof.
  intros Hr Hm Hpoly Hnd Hname.
  destruct (clip_run h l r t mask keep_geom_type Hr Hm Hnd Hname)
    as (n & h' & evs & Hrun & Hn & _).
  exists n, (State h' (l ++ evs)), (clip_table (State h l) t mask keep_geom_type).
  split; [done|]. split; [done|].
  destruct (rows_clip_table (State h l) t mask keep_geom_type poly Hpoly)
    as [Hnil|(Hne & Hov & ->)].
  - rewrite Hnil. split.
    + intros i j oi oj a b ra rb _ _ _ Ha. by rewrite lookup_nil in Ha.
    + intros Hleft. split.
      * intros o _. left. apply sublist_nil_l.
      * intros Hov L. unfold clip_table in Hnil. fold (overlap (State h l) t mask) in Hov.
        rewrite Hpoly, Hov in Hnil. cbn [andb] in Hnil.
        destruct (decide (rows (clipped_table t poly) = [])) as [Hc|Hc].
        -- by rewrite (kept_nil _ _ _ Hc).
        -- rewrite bool_decide_eq_false_2 in Hnil by done. cbn [negb] in Hnil.
           rewrite <- (filter_label_restored t (kept t poly keep_geom_type) L)
             by (by intros ?%Hleft).
           by rewrite Hnil.
  - split.
    + intros i j oi oj a b ra rb Hi Hj Hij Ha Hb Hla Hlb.
      destruct (decide (a < b)) as [|Hge]; [done|]. exfalso.
      pose proof (rank_of_label t i oi Hnd Hi) as Hri.
      pose proof (rank_of_label t j oj Hnd Hj) as Hrj.
      destruct (decide (a = b)) as [->|Hneq].
      * rewrite Ha in Hb. injection Hb as ->.
        assert (i = j); [|lia].
        eapply NoDup_lookup; [exact Hnd| |]; rewrite list_lookup_fmap.
        -- by rewrite Hi.
        -- rewrite Hj. cbn. congruence.
      * assert (Hlt : b < a) by lia.
        pose proof (restored_sorted _ _ _ _ _ _ Hb Ha Hlt) as Hs.
        rewrite Hla, Hlb, Hri, Hrj in Hs. cbn in Hs.
        apply bool_decide_eq_true in Hs. lia.
    + intros Hleft.
      assert (Hkept : rows (kept t poly keep_geom_type) ≠ []) by (by intros ?%Hleft).
      split.
      * intros o Ho. rewrite filter_label_restored by done.
        by apply kept_label_geoms.
      * intros _ L. by apply filter_label_restored.
Qed.

(** ** Further properties of the module *)

Lemma StronglySorted_of_lookup {A : Type} (R : relation A) (l : list A) :
  (∀ i j x y, l !! i = Some x → l !! j = Some y → i < j → R x y) →
  StronglySorted R l.
Proof.
  induction l as [|a l IH]; intros Hl; constructor.
  - apply IH. intros i j x y Hi Hj Hij. apply (Hl (S i) (S j)); [done..|lia].
  - apply Forall_forall. intros y [j Hj]%list_elem_of_lookup_1.
    apply (Hl 0 (S j)); [done..|lia].
Qed.

Lemma StronglySorted_filter_keep {A : Type} (R : relation A) (P : A → Prop)
    `{!∀ x, Decision (P x)} (l : list A) :
  StronglySorted R l → StronglySorted R (filter P l).
Proof.
  induction 1 as [|a l Hs IH Ha]; [constructor|].
  rewrite filter_cons. destruct (decide (P a)); [|done].
  constructor; [done|].
  rewrite Forall_forall in Ha. apply Forall_forall.
  intros y [_ Hy]%list_elem_of_filter. by apply Ha.
Qed.

Lemma StronglySorted_fmap_keep {A B : Type} (R : relation B) (f : A → B)
    (l : list A) :
  StronglySorted (λ a b, R (f a) (f b)) l → StronglySorted R (f <$> l).
Proof.
  induction 1 as [|a l Hs IH Ha]; [constructor|].
  rewrite fmap_cons. constructor; [done|]. by apply Forall_fmap.
Qed.

Lemma StronglySorted_weaken {A : Type} (R R' : relation A) (l : list A) :
  (∀ a b, R a b → R' a b) → StronglySorted R l → StronglySorted R' l.
Proof.
  intros HR. induction 1 as [|a l Hs IH Ha]; constructor; [done|].
  eapply Forall_impl; [exact Ha|]. intros b. apply HR.
Qed.

(** The original rows are in the order of their ranks. *)
Lemma rows_sorted_by_rank (t : table) :
  NoDup (label <$> rows t) →
  StronglySorted (λ a b, key_le (rank_of t (label a)) (rank_of t (label b)) = true)
                 (rows t).
Proof.
  intros Hnd. apply StronglySorted_of_lookup. intros i j x y Hi Hj Hij.
  rewrite (rank_of_label t i x Hnd Hi), (rank_of_label t j y Hnd Hj).
  cbn. apply bool_decide_eq_true. lia.
Qed.

Lemma rank_of_label_inj (t : table) (x y : row) :
  NoDup (label <$> rows t) → x ∈ rows t → y ∈ rows t →
  rank_of t (label x) = rank_of t (label y) → x = y.
Proof.
  intros Hnd [i Hi]%list_elem_of_lookup_1 [j Hj]%list_elem_of_lookup_1.
  rewrite (rank_of_label t i x Hnd Hi), (rank_of_label t j y Hnd Hj).
  intros [= Hij]. apply Nat2Z.inj in Hij as ->. congruence.
Qed.

Lemma restored_clipped_rows (t : table) (poly : BaseGeometry) :
  NoDup (label <$> rows t) → rows (clipped_table t poly) ≠ [] →
  rows (restored t (clipped_table t poly)) =
    clipped_row_of (cls t) poly <$>
      filter (λ x, intersects (geometry x) poly = true) (rows t).
Proof.
  intros Hnd Hne. rewrite rows_restored, cls_clipped_table.
  set (pre := λ o : row, rank_row t
                (match cls t with
                 | GeoDataFrame => clip_row (cls t) poly o
                 | GeoSeries => bare (clip_row (cls t) poly o)
                 end)).
  assert (Hranked : ranked_rows t (clipped_table t poly) = pre <$> selected_rows t poly).
  { rewrite (ranked_rows_nonempty _ _ Hne), cls_clipped_table, rows_clipped_table.
    destruct (cls t) eqn:Hcls; rewrite <- ?list_fmap_compose;
      apply list_fmap_ext; intros _ x _; unfold pre; by rewrite ?Hcls. }
  assert (Hkey : ∀ o, sort_key "_order" (pre o) = rank_of t (label o)).
  { intros o. unfold pre, sort_key, rank_row, rank_of. cbn.
    rewrite lookup_insert_eq.
    replace (label (match cls t with
                    | GeoDataFrame => clip_row (cls t) poly o
                    | GeoSeries => bare (clip_row (cls t) poly o)
                    end)) with (label o) by (by destruct (cls t)).
    by destruct (series_at _ _). }
  assert (Hsort : sort_rows "_order" (ranked_rows t (clipped_table t poly)) =
                  pre <$> filter (λ x, intersects (geometry x) poly = true) (rows t)).
  { apply (StronglySorted_unique_strong (key_rel "_order")).
    - intros x1 x2 Hx1 Hx2 H12 H21.
      rewrite sort_rows_perm, Hranked in Hx1.
      apply list_elem_of_fmap in Hx1 as (o1 & -> & [Ho1 _]%elem_of_selected_rows).
      apply list_elem_of_fmap in Hx2 as (o2 & -> & [_ Ho2]%list_elem_of_filter).
      unfold key_rel in H12, H21. rewrite !Hkey in H12, H21.
      f_equal. apply (rank_of_label_inj t); [done..|].
      by apply key_le_antisym.
    - apply sort_rows_sorted.
    - apply StronglySorted_fmap_keep, StronglySorted_filter_keep.
      eapply StronglySorted_weaken; [|exact (rows_sorted_by_rank t Hnd)].
      intros a b Hab. unfold key_rel. by rewrite !Hkey.
    - rewrite sort_rows_perm, Hranked. by rewrite selected_rows_perm. }
  rewrite Hsort, <- list_fmap_compose. apply list_fmap_ext. intros _ o _.
  unfold pre, clipped_row_of, unrank, rank_row, strip_order, bare, clip_row. cbn.
  destruct (cls t); cbn; [|done]. by rewrite delete_insert_eq.
Qed.

(** X1. With keep_geom_type off, on a collection with unique index labels
    whose geometry column is not named "_order" and whose bounding box
    overlaps that of the mask, [clip] returns exactly the rows whose
    geometry intersects the mask polygon, in the order of the input, each
    with its geometry replaced by its intersection with the mask polygon
    and its attributes kept (but for a column named "_order"; a series has
    none). *)
Theorem clip_returns_intersecting_rows (h : list table) (l : list event) (r : nat)
    (t : table) (mask : value) (poly : BaseGeometry) :
  h !! r = Some t → valid_mask (State h l) mask →
  resolved_mask (State h l) mask = Some poly →
  boxes_overlap (total_bounds t) (mask_bounds (State h l) mask) = true →
  NoDup (label <$> rows t) →
  (cls t = GeoDataFrame → name t ≠ Some "_order") →
  ∃ n s' out,
    clip (Ref r) mask false (State h l) = (Ok (Ref n), s') ∧
    heap s' !! n = Some out ∧
    rows out =
      (λ o, Row (label o) (intersection (geometry o) poly)
                (match cls t with
                 | GeoDataFrame => delete "_order" (attrs o)
                 | GeoSeries => ∅
                 end)) <$>
        filter (λ x, intersects (geometry x) poly = true) (rows t).
Proof.
  intros Hr Hm Hpoly Hov Hnd Hname.
  destruct (clip_run h l r t mask false Hr Hm Hnd Hname)
    as (n & h' & evs & Hrun & Hn & _).
  exists n, (State h' (l ++ evs)), (clip_table (State h l) t mask false).
  split; [done|]. split; [done|].
  unfold clip_table, overlap. rewrite Hpoly, Hov. cbn [andb].
  destruct (decide (rows (clipped_table t poly) = [])) as [Hnil|Hne].
  - rewrite bool_decide_eq_true_2 by done. cbn.
    rewrite rows_clipped_table in Hnil. apply fmap_nil_inv in Hnil.
    pose proof (selected_rows_perm t poly) as Hp. rewrite Hnil in Hp.
    apply Permutation_nil in Hp. by rewrite Hp.
  - rewrite bool_decide_eq_false_2 by done. cbn [negb].
    unfold kept. cbn [andb]. by rewrite (restored_clipped_rows t poly Hnd Hne).
Qed.

Lemma schema_clipped_table (t : table) (poly : BaseGeometry) :
  crs (clipped_table t poly) = crs t ∧
  (cls t = GeoDataFrame →
   columns (clipped_table t poly) = columns t ∧ name (clipped_table t poly) = name t).
Proof.
  unfold clipped_table. destruct (cls t); [done|]. split; [done|]. by intros [=].
Qed.

Lemma schema_reconciled (tc : table) (ty : geom_kind) :
  same_schema (reconciled tc ty) tc.
Proof.
  unfold reconciled, filtered, exploded.
  repeat (match goal with |- context [if ?b then _ else _] => destruct b end);
    by repeat split.
Qed.

Lemma schema_kept (t : table) (poly : BaseGeometry) (keep_geom_type : bool) :
  same_schema (kept t poly keep_geom_type) (clipped_table t poly).
Proof.
  unfold kept. destruct (_ && _); [apply schema_reconciled|by repeat split].
Qed.

Lemma schema_adopt_index (t : table) (s : list (Z * Z)) :
  same_schema (adopt_index t s) t.
Proof. unfold adopt_index. by destruct (rows t), s. Qed.

Lemma schema_restored (t tc : table) :
  cls (restored t tc) = cls tc ∧ crs (restored t tc) = crs tc ∧
  (cls tc = GeoDataFrame → "_order" ∉ columns tc →
   columns (restored t tc) = columns tc ∧ name (restored t tc) = name tc).
Proof.
  destruct (schema_adopt_index (framed tc) (order_series t)) as (Hc & Hn & Hcrs & Hcols).
  unfold restored, ranked, assign_by_label. unfold framed in *.
  destruct (cls tc) eqn:Hcls; cbn; rewrite ?Hc, ?Hn, ?Hcrs, ?Hcols, ?Hcls; cbn;
    [|split; [done|]; split; [done|]; by intros [=]].
  split; [done|]. split; [done|]. intros _ Hnot. split; [|done].
  rewrite bool_decide_eq_false_2 by done.
  rewrite filter_app, filter_cons_False, filter_nil, app_nil_r by (by intros []).
  clear -Hnot. induction (columns tc) as [|c cs IH]; [done|].
  rewrite filter_cons_True by (intros ->; apply Hnot; left).
  f_equal. apply IH. intros Hin. apply Hnot. by right.
Qed.

(** X2. On a collection with unique index labels whose geometry column is
    not named "_order", [clip] returns the kind of collection it was given:
    the result of clipping a GeoDataFrame is a GeoDataFrame and that of a
    GeoSeries is a GeoSeries, in the CRS of the input; and a GeoDataFrame
    that has no attribute column named "_order" either keeps its columns
    and the name of its geometry column. *)
Theorem clip_result_has_input_shape (h : list table) (l : list event) (r : nat)
    (t : table) (mask : value) (keep_geom_type : bool) :
  h !! r = Some t → valid_mask (State h l) mask →
  NoDup (label <$> rows t) →
  (cls t = GeoDataFrame → name t ≠ Some "_order") →
  ∃ n s' out,
    clip (Ref r) mask keep_geom_type (State h l) = (Ok (Ref n), s') ∧
    heap s' !! n = Some out ∧
    cls out = cls t ∧ crs out = crs t ∧
    (cls t = GeoDataFrame → "_order" ∉ columns t →
     columns out = columns t ∧ name out = name t).
Proof.
  intros Hr Hm Hnd Hname.
  destruct (clip_run h l r t mask keep_geom_type Hr Hm Hnd Hname)
    as (n & h' & evs & Hrun & Hn & _).
  exists n, (State h' (l ++ evs)), (clip_table (State h l) t mask keep_geom_type).
  split; [done|]. split; [done|].
  unfold clip_table. destruct (resolved_mask _ _) as [poly|]; [|done].
  destruct (_ && _); [|done].
  destruct (schema_restored t (kept t poly keep_geom_type)) as (Hc & Hcrs & Hcols).
  destruct (schema_kept t poly keep_geom_type) as (Hkc & Hkn & Hkcrs & Hkcols).
  destruct (schema_clipped_table t poly) as (Hccrs & Hccols).
  rewrite Hc, Hcrs, Hkc, Hkcrs, Hccrs, cls_clipped_table.
  split; [done|]. split; [done|]. intros Hframe Hnot.
  destruct (Hccols Hframe) as [Hcc Hcn].
  rewrite Hkc, cls_clipped_table, Hkcols, Hcc in Hcols.
  destruct (Hcols Hframe Hnot) as [-> ->]. by rewrite Hkn, Hcn.
Qed.

(** X3. [_clip_gdf_with_polygon] returns a new collection of the class of
    its input that holds, up to the order chosen by the spatial index, the
    rows of the input whose geometry intersects the polygon, each with its
    geometry replaced by the intersection (a GeoSeries result carries no
    attributes); it queries the index once, computes the intersections
    once, and leaves the data of every existing object as it was. *)
Theorem clip_gdf_with_polygon_subset (h : list table) (l : list event) (r : nat)
    (t : table) (poly : BaseGeometry) :
  h !! r = Some t →
  ∃ n s' out,
    _clip_gdf_with_polygon (Ref r) (Shape poly) (State h l) = (Ok (Ref n), s') ∧
    heap s' !! n = Some out ∧ length h ≤ n ∧ cls out = cls t ∧
    rows out ≡ₚ
      (λ o, Row (label o) (intersection (geometry o) poly)
                (match cls t with
                 | GeoDataFrame => attrs o
                 | GeoSeries => ∅
                 end)) <$>
        filter (λ x, intersects (geometry x) poly = true) (rows t) ∧
    preserves h (heap s') ∧
    log s' = l ++ [CallSindexQuery; CallIntersection].
Proof.
  intros Hr. pose proof (lookup_lt_Some _ _ _ Hr) as Hlt.
  rewrite (_clip_gdf_with_polygon_run h l r t poly Hr).
  do 3 eexists. split; [reflexivity|]. cbn [heap log].
  split.
  { rewrite lookup_app_r by (rewrite length_insert; lia).
    rewrite length_insert. replace (S (length h) - length h) with 1 by lia.
    apply clip_objects_result. }
  split; [lia|]. split; [apply cls_clipped_table|]. split.
  - rewrite rows_clipped_table, (selected_rows_perm t poly).
    erewrite list_fmap_ext; [reflexivity|]. intros _ o _. by destruct (cls t).
  - split; [|reflexivity]. by apply preserves_app, preserves_sindex.
Qed.

(** X4. [_keeping_geometry_type_is_possible] never raises and never touches
    the store.  It answers True, silently, exactly when the collection
    holds no GeometryCollection and at most one geometry family; otherwise
    it answers False and emits exactly one warning, the one about
    GeometryCollections taking precedence over the one about mixed types. *)
Theorem keeping_geometry_type_is_possible_spec (h : list table) (l : list event)
    (r : nat) (t : table) :
  h !! r = Some t →
  ∃ b w,
    _keeping_geometry_type_is_possible (Ref r) (State h l) = (Ok b, State h (l ++ w)) ∧
    (b = true ↔ any_eq (geom_types t) GeometryCollection = false ∧
                count_families (geom_types t) ≤ 1) ∧
    (b = true → w = []) ∧
    (any_eq (geom_types t) GeometryCollection = true →
     w = [Warn geometrycollection_message]) ∧
    (any_eq (geom_types t) GeometryCollection = false →
     1 < count_families (geom_types t) → w = [Warn mixed_type_message]).
Proof.
  intros Hr. rewrite (_keeping_geometry_type_is_possible_run h l r t Hr).
  do 2 eexists. split; [reflexivity|].
  unfold keeping_possible, keeping_warnings, has_collection, is_mixed.
  destruct (any_eq (geom_types t) GeometryCollection); cbn [negb andb].
  - split; [split; [done|by intros [? _]]|]. by repeat split.
  - destruct (decide (1 < count_families (geom_types t))) as [Hc|Hc].
    + rewrite bool_decide_eq_true_2 by done. cbn [negb andb].
      split; [split; [done|intros [_ ?]; lia]|]. by repeat split.
    + rewrite bool_decide_eq_false_2 by done. cbn [negb andb].
      split; [split; [intros _; split; [done|lia]|done]|].
      split; [done|]. split; [done|]. intros _ ?. lia.
Qed.

(** X5. Validation accepts exactly the accepted arguments.  It checks the
    input before the mask and names the argument it rejects and the type
    it found: a call whose input is not a collection fails with the message
    about 'gdf' whatever the mask is; a call with a collection as input and
    an unacceptable mask fails with the message about 'mask'; in both
    failures the state is left as it was.  A call with an accepted input
    and an accepted mask passes; it changes no object and emits at most the
    CRS-mismatch warning.  A bare geometry is an accepted mask exactly when
    it is a Polygon or a MultiPolygon. *)
Theorem validate_inputs_names_the_argument (s : state) (gdf mask : value) :
  (¬ valid_gdf s gdf →
   _validate_inputs gdf mask s =
     (Raise (TypeError ("'gdf' should be GeoDataFrame or GeoSeries, got " +:+
                        type_text s gdf)), s)) ∧
  (valid_gdf s gdf → ¬ valid_mask s mask →
   _validate_inputs gdf mask s =
     (Raise (TypeError
               ("'mask' should be GeoDataFrame, GeoSeries or(Multi)Polygon, got " +:+
                type_text s mask)), s)) ∧
  (valid_gdf s gdf → valid_mask s mask →
   ∃ w, _validate_inputs gdf mask s = (Ok (), State (heap s) (log s ++ w)) ∧
        (w = [] ∨ w = [Warn crs_mismatch_message])) ∧
  (∀ g, valid_mask s (Shape g) ↔
        geom_type g = Polygon ∨ geom_type g = MultiPolygon).
Proof.
  split; [|split; [|split]].
  - intros Hg. unfold _validate_inputs. apply bind_raise.
    unfold _validate_input_gdf. erewrite bind_ok by reflexivity.
    by rewrite (bool_decide_eq_false_2 _ Hg).
  - intros Hg Hm. unfold _validate_inputs.
    erewrite bind_ok.
    2:{ unfold _validate_input_gdf. erewrite bind_ok by reflexivity.
        rewrite (bool_decide_eq_true_2 _ Hg). reflexivity. }
    apply bind_raise. unfold _validate_input_mask.
    erewrite bind_ok by reflexivity.
    by rewrite (bool_decide_eq_false_2 _ Hm).
  - intros (r & t & -> & Hr)%valid_gdf_inv Hm. destruct s as [h l].
    rewrite (_validate_inputs_run h l r t mask Hr Hm).
    eexists. split; [reflexivity|].
    destruct (crs_warnings_cases (State h l) t mask) as [->|[-> _]]; eauto.
  - intros g. unfold valid_mask, type_of. split.
    + destruct (geom_type g); intros Hin; eauto;
        exfalso; apply (bool_decide_pack _) in Hin; vm_compute in Hin; exact Hin.
    + intros [->| ->]; compute_done.
Qed.

(** A collection whose geometries all belong to one family holds no
    GeometryCollection and counts at most one family. *)
Lemma family_only_clean (ts : list geom_kind) (fam : list geom_kind) :
  fam ∈ _GEOMETRY_TYPES → (∀ k, k ∈ ts → isin k fam = true) →
  any_eq ts GeometryCollection = false ∧
  bool_decide (1 < count_families ts) = false.
Proof.
  intros Hfam Hin.
  assert (Hgc : any_eq ts GeometryCollection = false).
  { apply existsb_false_elem. intros k Hk. specialize (Hin k Hk).
    unfold _GEOMETRY_TYPES in Hfam.
    repeat (apply elem_of_cons in Hfam as [->|Hfam]); [by destruct k..|].
    by apply elem_of_nil in Hfam. }
  split; [done|]. apply bool_decide_eq_false.
  assert (Hother : ∀ fam', (∀ k, isin k fam = true → isin k fam' = false) →
                           any_isin ts fam' = false).
  { intros fam' Hdisj. apply existsb_false_elem. intros k Hk.
    by apply Hdisj, Hin. }
  unfold count_families. unfold _GEOMETRY_TYPES in *.
  cbn [fmap list_fmap sum_list sum_list_with].
  repeat (apply elem_of_cons in Hfam as [->|Hfam]);
    [| | |by apply elem_of_nil in Hfam].
  - rewrite (Hother _LINE_TYPES), (Hother _POLYGON_TYPES)
      by (intros k; by destruct k).
    destruct (any_isin ts _POINT_TYPES); cbn; lia.
  - rewrite (Hother _POINT_TYPES), (Hother _POLYGON_TYPES)
      by (intros k; by destruct k).
    destruct (any_isin ts _LINE_TYPES); cbn; lia.
  - rewrite (Hother _POINT_TYPES), (Hother _LINE_TYPES)
      by (intros k; by destruct k).
    destruct (any_isin ts _POLYGON_TYPES); cbn; lia.
Qed.

Lemma geom_types_loc_isin (t : table) (fam : list geom_kind) (k : geom_kind) :
  k ∈ geom_types (loc_isin t fam) → isin k fam = true.
Proof.
  unfold geom_types, loc_isin. cbn.
  by intros (x & -> & [? _]%list_elem_of_filter)%list_elem_of_fmap.
Qed.

Lemma keep_clean_run (h : list table) (l : list event) (c : nat) (tc : table)
    (ty : geom_kind) :
  h !! c = Some tc → has_collection tc = false → is_mixed tc = false →
  _keep_only_original_geom_type (Ref c) ty (State h l) = (Ok (Ref c), State h l).
Proof.
  intros Hc Hgc Hmix.
  unfold _keep_only_original_geom_type, _get_number_of_unique_geometry_types.
  py_run geom_type_of_run. py_run geom_type_of_run. py_pure.
  fold (has_collection tc). fold (is_mixed tc). by rewrite Hgc, Hmix.
Qed.

Lemma reconciled_clean (tc : table) (ty : geom_kind) :
  isin ty _LINE_TYPES = true ∨ isin ty _POLYGON_TYPES = true →
  has_collection (reconciled tc ty) = false ∧ is_mixed (reconciled tc ty) = false.
Proof.
  intros Hty. unfold reconciled.
  destruct (needs_reconciliation tc) eqn:Hneeds.
  - unfold filtered, has_collection, is_mixed.
    destruct (isin ty _LINE_TYPES) eqn:Hline.
    + apply (family_only_clean _ _LINE_TYPES); [compute_done|].
      apply geom_types_loc_isin.
    + destruct Hty as [?|Hpoly]; [done|]. rewrite Hpoly.
      apply (family_only_clean _ _POLYGON_TYPES); [compute_done|].
      apply geom_types_loc_isin.
  - unfold needs_reconciliation in Hneeds. by apply orb_false_iff in Hneeds.
Qed.

(** X6. For a Line-family or Polygon-family original type,
    [_keep_only_original_geom_type] is idempotent on every collection: what
    it returns holds no GeometryCollection and at most one family, so
    applying it again returns the same reference and changes nothing. *)
Theorem keep_only_original_geom_type_idempotent (h : list table) (l : list event)
    (c : nat) (tc : table) (original_type : geom_kind) :
  h !! c = Some tc →
  isin original_type _LINE_TYPES = true ∨ isin original_type _POLYGON_TYPES = true →
  ∃ c' s',
    _keep_only_original_geom_type (Ref c) original_type (State h l) = (Ok (Ref c'), s') ∧
    _keep_only_original_geom_type (Ref c') original_type s' = (Ok (Ref c'), s').
Proof.
  intros Hc Hty.
  destruct (_keep_only_original_geom_type_run h l c tc original_type Hc)
    as (c' & Hrun & Hc' & _).
  do 2 eexists. split; [exact Hrun|].
  destruct (reconciled_clean tc original_type Hty) as [Hgc Hmix].
  by apply (keep_clean_run _ _ c' (reconciled tc original_type)).
Qed.

Lemma lines_original_type (t : table) :
  (∀ k, k ∈ geom_types t → isin k _LINE_TYPES = true) → rows t ≠ [] →
  isin (original_type t) _LINE_TYPES = true.
Proof.
  intros Hp Hne. unfold original_type.
  assert (Hk : ∃ k, head (geom_types t) = Some k ∧ k ∈ geom_types t).
  { unfold geom_types. destruct (rows t) as [|x k]; [done|].
    cbn. eexists. split; [done|left]. }
  destruct Hk as (k & -> & Hk). by apply Hp.
Qed.

(** X7. For a collection with unique index labels that holds only
    Line-family geometries and whose geometry column is not named "_order",
    [clip] with keep_geom_type on returns only Line-family geometries
    whenever the raw intersection result contains a GeometryCollection or
    more than one geometry family and the type filter leaves at least one
    row. *)
Theorem clip_keep_geom_type_lines (h : list table) (l : list event) (r : nat)
    (t : table) (mask : value) (poly : BaseGeometry) :
  h !! r = Some t → valid_mask (State h l) mask →
  resolved_mask (State h l) mask = Some poly →
  NoDup (label <$> rows t) →
  (cls t = GeoDataFrame → name t ≠ Some "_order") →
  (∀ k, k ∈ geom_types t → isin k _LINE_TYPES = true) →
  any_eq (raw_types t poly) GeometryCollection = true ∨
    1 < count_families (raw_types t poly) →
  rows (kept t poly true) ≠ [] →
  ∃ n s' out,
    clip (Ref r) mask true (State h l) = (Ok (Ref n), s') ∧
    heap s' !! n = Some out ∧
    ∀ x, x ∈ rows out → isin (geom_type (geometry x)) _LINE_TYPES = true.
Proof.
  intros Hr Hm Hpoly Hnd Hname Hp Hraw%needs_reconciliation_raw Hleft.
  destruct (clip_run h l r t mask true Hr Hm Hnd Hname)
    as (n & h' & evs & Hrun & Hn & _).
  exists n, (State h' (l ++ evs)), (clip_table (State h l) t mask true).
  split; [done|]. split; [done|]. intros x.
  destruct (rows_clip_table (State h l) t mask true poly Hpoly)
    as [->|(Hne & _ & ->)]; [by intros ?%not_elem_of_nil|].
  intros (z & Hz & _ & -> & _)%elem_of_restored; [|done].
  destruct (family_only_clean (geom_types t) _LINE_TYPES) as [Hgc Hmix];
    [compute_done|done|].
  unfold kept, keeping_possible, has_collection, is_mixed in Hz.
  rewrite Hgc, Hmix in Hz. cbn [andb negb] in Hz.
  unfold reconciled in Hz. rewrite Hraw, rows_filtered in Hz.
  rewrite (lines_original_type t Hp (clipped_rows_nonempty _ _ Hne)) in Hz.
  by apply list_elem_of_filter in Hz as [? _].
Qed.

Lemma restored_labels_geoms (t tc : table) :
  rows tc ≠ [] →
  (λ x, (label x, geometry x)) <$> rows (restored t tc) ≡ₚ
  (λ x, (label x, geometry x)) <$> rows tc.
Proof.
  intros Hne. rewrite rows_restored, <- list_fmap_compose, sort_rows_perm.
  rewrite (ranked_rows_nonempty t tc Hne).
  destruct (cls tc); rewrite <- !list_fmap_compose;
    (erewrite list_fmap_ext; [reflexivity|]); by intros _ x _.
Qed.

(** X8. On an original collection with unique index labels and a clipped
    collection that has rows and whose geometry column is not named
    "_order", [_recreate_initial_order] returns a new collection of the
    class of the clipped collection that holds the same labelled
    geometries (no row is lost or added), sorted by the rank of their
    labels in the original collection, and logs nothing.  A clipped
    GeoSeries is left as it was, together with every other object; a
    clipped GeoDataFrame is changed in place: after the call it carries the
    helper column "_order", with its labels and geometries unchanged. *)
Theorem recreate_initial_order_effects (h : list table) (l : list event)
    (r c : nat) (t tc : table) :
  h !! r = Some t → h !! c = Some tc →
  NoDup (label <$> rows t) → rows tc ≠ [] →
  (cls tc = GeoDataFrame → name tc ≠ Some "_order") →
  ∃ n s' out,
    _recreate_initial_order (Ref r) (Ref c) (State h l) = (Ok (Ref n), s') ∧
    heap s' !! n = Some out ∧ length h ≤ n ∧ log s' = l ∧
    cls out = cls tc ∧
    (λ x, (label x, geometry x)) <$> rows out ≡ₚ
      (λ x, (label x, geometry x)) <$> rows tc ∧
    (∀ a b ra rb, rows out !! a = Some ra → rows out !! b = Some rb → a < b →
       key_le (rank_of t (label ra)) (rank_of t (label rb)) = true) ∧
    (∀ i u, h !! i = Some u → i ≠ c ∨ cls tc = GeoSeries → heap s' !! i = Some u) ∧
    (cls tc = GeoDataFrame →
     ∃ tc', heap s' !! c = Some tc' ∧ "_order" ∈ columns tc' ∧
            (λ x, (label x, geometry x)) <$> rows tc' =
              (λ x, (label x, geometry x)) <$> rows tc).
Proof.
  intros Hr Hc Hnd Hne Hname. pose proof (lookup_lt_Some _ _ _ Hc) as Hlt.
  rewrite (_recreate_initial_order_run h l r c t tc Hr Hc Hnd Hname).
  do 3 eexists. split; [reflexivity|]. cbn [heap log].
  split; [apply restore_heap_result|].
  split; [unfold restore_ref; destruct (cls tc); lia|].
  split; [done|].
  split; [by destruct (schema_restored t tc)|].
  split; [by apply restored_labels_geoms|].
  split; [apply restored_sorted|].
  unfold restore_heap. split.
  - intros i u Hi Hneq. destruct (cls tc) eqn:Hcls.
    + destruct Hneq as [Hneq|?]; [|done].
      apply lookup_app_l_Some. by rewrite list_lookup_insert_ne.
    + by apply lookup_app_l_Some.
  - intros Hcls. rewrite Hcls. exists (ranked t tc). split.
    + apply lookup_app_l_Some. by apply list_lookup_insert_eq.
    + unfold ranked, framed. rewrite Hcls, adopt_index_nonempty by done.
      cbn. split.
      * destruct (decide ("_order" ∈ columns tc)) as [Hin|Hnin].
        -- by rewrite bool_decide_eq_true_2.
        -- rewrite bool_decide_eq_false_2 by done. apply elem_of_app. right. left.
      * rewrite <- list_fmap_compose. by apply list_fmap_ext.
Qed.

(** X9. keep_geom_type makes no difference when the raw intersection result
    is clean: on a collection with unique index labels whose geometry
    column is not named "_order", if the raw result contains no
    GeometryCollection and at most one geometry family, [clip] returns the
    same collection with the flag on and off. *)
Theorem clip_keep_geom_type_irrelevant_on_clean (h : list table) (l : list event)
    (r : nat) (t : table) (mask : value) (poly : BaseGeometry) :
  h !! r = Some t → valid_mask (State h l) mask →
  resolved_mask (State h l) mask = Some poly →
  NoDup (label <$> rows t) →
  (cls t = GeoDataFrame → name t ≠ Some "_order") →
  any_eq (raw_types t poly) GeometryCollection = false →
  count_families (raw_types t poly) ≤ 1 →
  ∃ n1 s1 n0 s0 out,
    clip (Ref r) mask true (State h l) = (Ok (Ref n1), s1) ∧
    clip (Ref r) mask false (State h l) = (Ok (Ref n0), s0) ∧
    heap s1 !! n1 = Some out ∧ heap s0 !! n0 = Some out.
Proof.
  intros Hr Hm Hpoly Hnd Hname Hgc Hcount.
  destruct (clip_run h l r t mask true Hr Hm Hnd Hname)
    as (n1 & h1 & e1 & Hrun1 & Hn1 & _).
  destruct (clip_run h l r t mask false Hr Hm Hnd Hname)
    as (n0 & h0 & e0 & Hrun0 & Hn0 & _).
  exists n1, (State h1 (l ++ e1)), n0, (State h0 (l ++ e0)),
         (clip_table (State h l) t mask false).
  split; [done|]. split; [done|]. split; [|done].
  cbn [heap]. rewrite Hn1. f_equal.
  unfold clip_table. rewrite Hpoly. destruct (_ && _); [|done]. f_equal.
  unfold kept. cbn [andb]. destruct (keeping_possible t); [|done].
  unfold reconciled.
  assert (Hclean : needs_reconciliation (clipped_table t poly) = false).
  { apply not_true_iff_false. rewrite needs_reconciliation_raw.
    intros [Hx|Hx]; [congruence|lia]. }
  by rewrite Hclean.
Qed.

(** X10. The bounding-box test does not depend on which box is the input's
    and which the mask's, and it is false as soon as one coordinate of
    either box is undefined. *)
Theorem boxes_overlap_symmetric (a b : bbox) :
  boxes_overlap a b = boxes_overlap b a ∧
  (minx a = NaN ∨ miny a = NaN ∨ maxx a = NaN ∨ maxy a = NaN →
   boxes_overlap a b = false ∧ boxes_overlap b a = false).
Proof.
  assert (Hsym : ∀ x y, boxes_overlap x y = boxes_overlap y x).
  { intros x y. unfold boxes_overlap. cbv zeta.
    by rewrite (andb_comm (coord_le (minx y) (maxx x))),
               (andb_comm (coord_le (miny y) (maxy x))). }
  split; [apply Hsym|]. intros Hnan.
  assert (boxes_overlap a b = false); [|by rewrite <- (Hsym a b)].
  unfold boxes_overlap, coord_le. cbv zeta.
  destruct a as [a1 a2 a3 a4], b as [b1 b2 b3 b4]. cbn in *.
  destruct Hnan as [-> | [-> | [-> | ->]]];
    repeat (match goal with |- context [match ?c with Num _ => _ | NaN => _ end] =>
              destruct c end);
    rewrite ?andb_false_r; reflexivity.
Qed.

(** X11. A collection mask acts through the union of its geometries: on a
    collection with unique index labels whose geometry column is not named
    "_order", when the bounding-box test gives the same answer for the mask
    collection and for the union of its geometries, clipping with the
    collection and clipping with that union return the same collection. *)
Theorem clip_collection_mask_is_its_union (h : list table) (l : list event)
    (r m : nat) (t tm : table) (keep_geom_type : bool) :
  h !! r = Some t → h !! m = Some tm →
  NoDup (label <$> rows t) →
  (cls t = GeoDataFrame → name t ≠ Some "_order") →
  valid_mask (State h l) (Shape (unary_union (geometry <$> rows tm))) →
  boxes_overlap (total_bounds t) (total_bounds tm) =
    boxes_overlap (total_bounds t) (bounds (unary_union (geometry <$> rows tm))) →
  ∃ n1 s1 n2 s2 out,
    clip (Ref r) (Ref m) keep_geom_type (State h l) = (Ok (Ref n1), s1) ∧
    clip (Ref r) (Shape (unary_union (geometry <$> rows tm))) keep_geom_type
      (State h l) = (Ok (Ref n2), s2) ∧
    heap s1 !! n1 = Some out ∧ heap s2 !! n2 = Some out.
Proof.
  intros Hr Hm Hnd Hname Hv Hbox.
  assert (Hvm : valid_mask (State h l) (Ref m)) by (apply valid_mask_inv; eauto).
  destruct (clip_run h l r t (Ref m) keep_geom_type Hr Hvm Hnd Hname)
    as (n1 & h1 & e1 & Hrun1 & Hn1 & _).
  destruct (clip_run h l r t _ keep_geom_type Hr Hv Hnd Hname)
    as (n2 & h2 & e2 & Hrun2 & Hn2 & _).
  exists n1, (State h1 (l ++ e1)), n2, (State h2 (l ++ e2)),
         (clip_table (State h l) t (Ref m) keep_geom_type).
  split; [done|]. split; [done|]. split; [done|].
  cbn [heap]. rewrite Hn2. f_equal.
  unfold clip_table, overlap, resolved_mask, mask_bounds. cbn [heap].
  rewrite Hm. cbn. by rewrite Hbox.
Qed.


(** ** When the helper column cannot be aligned *)

Lemma sort_rows_sorted_id (col : string) (l : list row) :
  StronglySorted (key_rel col) l → sort_rows col l = l.
Proof.
  induction 1 as [|x l Hs IH Hx]; [done|].
  cbn [sort_rows foldr]. fold (sort_rows col l). rewrite IH.
  destruct l as [|y k]; [done|].
  cbn [insert_by]. apply Forall_cons in Hx as [Hxy _].
  unfold key_rel in Hxy. by rewrite Hxy.
Qed.

Lemma order_series_nonempty (t : table) : rows t ≠ [] → order_series t ≠ [].
Proof.
  intros Hne Hnil. apply Hne.
  apply (f_equal (fmap fst)) in Hnil. rewrite order_series_index in Hnil.
  by apply fmap_nil_inv in Hnil.
Qed.

(** A clipped collection without rows comes back with one row per row of
    the original collection, in the original order. *)
Lemma rows_restored_hollow (t tc : table) :
  NoDup (label <$> rows t) → rows tc = [] → rows t ≠ [] →
  rows (restored t tc) =
    (λ o, Row (label o) missing
              (match cls tc with
               | GeoDataFrame => delete "_order" (nan_attrs (columns tc))
               | GeoSeries => ∅
               end)) <$> rows t.
Proof.
  intros Hnd Hnil Hne. rewrite rows_restored.
  set (blank := λ o : row, Row (label o) missing (nan_attrs (columns (framed tc)))).
  assert (Hrk : ranked_rows t tc = (λ o, rank_row t (blank o)) <$> rows t).
  { unfold ranked_rows, adopt_index. rewrite rows_framed, Hnil.
    replace (match cls tc with
             | GeoDataFrame => []
             | GeoSeries => bare <$> []
             end) with (@nil row) by (by destruct (cls tc)).
    pose proof (order_series_nonempty t Hne) as Hs.
    destruct (order_series t) as [|p s] eqn:E; [done|]. rewrite <- E.
    cbn [rows].
    trans ((λ k, rank_row t (Row k missing (nan_attrs (columns (framed tc))))) <$>
             (label <$> rows t)).
    - rewrite <- (order_series_index t), <- !list_fmap_compose.
      by apply list_fmap_ext.
    - rewrite <- list_fmap_compose. by apply list_fmap_ext. }
  rewrite Hrk, sort_rows_sorted_id.
  - rewrite <- list_fmap_compose. apply list_fmap_ext. intros _ o _.
    unfold blank, framed, unrank, rank_row, strip_order, bare. cbn.
    destruct (cls tc); cbn; [|done]. by rewrite delete_insert_eq.
  - apply StronglySorted_fmap_keep.
    eapply StronglySorted_weaken; [|exact (rows_sorted_by_rank t Hnd)].
    intros a b Hab. unfold key_rel, sort_key, rank_row, rank_of in *. cbn.
    rewrite !lookup_insert_eq.
    by destruct (series_at _ (label a)), (series_at _ (label b)).
Qed.

(** X13. When the type filter of keep_geom_type removes every row of a
    clipping result that had rows, [clip] does not return an empty
    collection: on a collection with unique index labels whose geometry
    column is not named "_order" it returns one row per row of the input,
    in the order of the input, that carries the label of that row, no
    geometry, and no attribute value. *)
Theorem clip_keep_geom_type_emptied (h : list table) (l : list event) (r : nat)
    (t : table) (mask : value) (poly : BaseGeometry) :
  h !! r = Some t → valid_mask (State h l) mask →
  resolved_mask (State h l) mask = Some poly →
  boxes_overlap (total_bounds t) (mask_bounds (State h l) mask) = true →
  NoDup (label <$> rows t) →
  (cls t = GeoDataFrame → name t ≠ Some "_order") →
  rows (clipped_table t poly) ≠ [] →
  rows (kept t poly true) = [] →
  ∃ n s' out,
    clip (Ref r) mask true (State h l) = (Ok (Ref n), s') ∧
    heap s' !! n = Some out ∧
    rows out = hollow_rows t ∧
    length (rows out) = length (rows t) ∧
    ∀ x, x ∈ rows out → geometry x = missing.
Proof.
  intros Hr Hm Hpoly Hov Hnd Hname Hne Hnil.
  destruct (clip_main_run h l r t mask true poly Hr Hm Hov Hpoly Hne Hnd Hname)
    as (n & h' & -> & Hn & _).
  do 3 eexists. split; [reflexivity|]. split; [exact Hn|].
  assert (Hrows : rows (restored t (kept t poly true)) = hollow_rows t).
  { rewrite (rows_restored_hollow t _ Hnd Hnil (clipped_rows_nonempty _ _ Hne)).
    unfold hollow_rows. apply list_fmap_ext. intros _ o _. f_equal.
    destruct (name_kept t poly true) as [-> _].
    destruct (cls t) eqn:Hcls; [|done].
    destruct (schema_kept t poly true) as (_ & _ & _ & ->).
    destruct (schema_clipped_table t poly) as [_ Hcols].
    by destruct (Hcols Hcls) as [-> _]. }
  rewrite Hrows. split; [done|]. split.
  - unfold hollow_rows. by rewrite length_fmap.
  - unfold hollow_rows. by intros x (o & -> & _)%list_elem_of_fmap.
Qed.

Lemma set_column_differs (t : table) (col : string) (s : list (Z * Z)) :
  rows t ≠ [] → s.*1 ≠ label <$> rows t → ¬ NoDup s.*1 →
  set_column t col s = None.
Proof.
  intros Hne Hidx Hdup. unfold set_column, aligned.
  rewrite adopt_index_nonempty by done.
  by rewrite !bool_decide_eq_false_2.
Qed.

Lemma _recreate_initial_order_raise (h : list table) (l : list event)
    (r c : nat) (t tc : table) :
  h !! r = Some t → h !! c = Some tc →
  (cls tc = GeoDataFrame → name tc ≠ Some "_order") →
  set_column (framed tc) "_order" (order_series t) = None →
  ∃ h', _recreate_initial_order (Ref r) (Ref c) (State h l) =
          (Raise (ValueError duplicate_axis_message), State h' l) ∧
        ∀ i u, h !! i = Some u → h' !! i = Some u.
Proof.
  intros Hr Hc Hname Hset. apply name_framed in Hname.
  unfold _recreate_initial_order.
  py_run order_series_of_run. py_pure.
  rewrite (type_of_ref _ _ (State _ _) Hc).
  unfold framed in Hset, Hname. destruct (cls tc) eqn:Hcls.
  - rewrite bool_decide_eq_true_2 by compute_done.
    erewrite bind_raise by (by eapply setitem_raise). eauto.
  - rewrite bool_decide_eq_false_2 by compute_done.
    py_run GeoDataFrame_of_geometry_run.
    erewrite bind_raise
      by (eapply setitem_raise; [apply lookup_snoc|done|exact Hset]).
    eexists. split; [reflexivity|].
    intros i u Hi. by apply lookup_app_l_Some.
Qed.

(** X14. On a collection of which an index label occurs twice, [clip]
    raises ValueError whenever the rows that reach the order restoration
    do not carry the very index of the input: the helper column cannot be
    aligned.  The objects that were in the store keep their data. *)
Theorem clip_duplicate_labels_raise (h : list table) (l : list event) (r : nat)
    (t : table) (mask : value) (keep_geom_type : bool) (poly : BaseGeometry) :
  h !! r = Some t → valid_mask (State h l) mask →
  resolved_mask (State h l) mask = Some poly →
  boxes_overlap (total_bounds t) (mask_bounds (State h l) mask) = true →
  (cls t = GeoDataFrame → name t ≠ Some "_order") →
  ¬ NoDup (label <$> rows t) →
  rows (kept t poly keep_geom_type) ≠ [] →
  label <$> rows (kept t poly keep_geom_type) ≠ label <$> rows t →
  ∃ msg s',
    clip (Ref r) mask keep_geom_type (State h l) = (Raise (ValueError msg), s') ∧
    preserves h (heap s').
Proof.
  intros Hr Hm Hpoly Hov Hname Hdup Hne Hidx.
  assert (Hc : rows (clipped_table t poly) ≠ [])
    by (intros Hnil; by apply Hne, kept_nil).
  destruct (clip_keep_run h l r t mask keep_geom_type poly Hr Hm Hov Hpoly Hc)
    as (c & h2 & -> & Hr2 & Hc2 & Hfresh & Hlen & Hp).
  destruct (name_kept t poly keep_geom_type) as [Hcls Hkname].
  destruct (_recreate_initial_order_raise h2
              (l ++ clipping_events (State h l) t mask ++
                    keeping_events t poly keep_geom_type)
              r c (with_sindex t) (kept t poly keep_geom_type) Hr2 Hc2)
    as (h' & -> & Hsame).
  - rewrite Hcls. intros Hf. rewrite (Hkname Hf). by apply Hname.
  - assert (Hlab : label <$> rows (framed (kept t poly keep_geom_type)) =
                   label <$> rows (kept t poly keep_geom_type)).
    { rewrite rows_framed. destruct (cls (kept _ _ _)); [done|].
      rewrite <- list_fmap_compose. by apply list_fmap_ext. }
    apply set_column_differs.
    + intros Hnil. apply Hne. rewrite Hnil in Hlab. symmetry in Hlab.
      by apply fmap_nil_inv in Hlab.
    + rewrite order_series_index, Hlab. cbn [rows with_sindex]. congruence.
    + by rewrite order_series_index.
  - do 2 eexists. split; [reflexivity|]. cbn [heap].
    intros i u Hi. destruct (Hp i u Hi) as (u' & Hu' & Hd).
    exists u'. split; [by apply Hsame|done].
Qed.

End ClipProofs.

(** ** The properties on concrete runs *)

Import Boxes Scenarios.
#[local] Existing Instance engine.

(** C7 on a call whose input is a number. *)
Lemma clip_invalid_argument_type_witness :
  (¬ valid_gdf (State [square] []) (Other "<class 'int'>") ∨
   ¬ valid_mask (State [square] []) (Shape neighbour)) ∧
  ∃ msg, clip (Other "<class 'int'>") (Shape neighbour) false (State [square] []) =
           (Raise (TypeError msg), State [square] []).
Proof.
  assert (Hinv : ¬ valid_gdf (State [square] []) (Other "<class 'int'>") ∨
                 ¬ valid_mask (State [square] []) (Shape neighbour))
    by (left; compute_done).
  split; [exact Hinv|].
  exact (clip_invalid_argument_type (State [square] []) (Other "<class 'int'>")
           (Shape neighbour) false Hinv).
Defined.

(** The messages name the argument and the type that was found. *)
Example clip_rejects_a_number :
  (clip (Other "<class 'int'>") (Shape neighbour) false (State [square] [])).1 =
    Raise (TypeError "'gdf' should be GeoDataFrame or GeoSeries, got <class 'int'>") ∧
  (clip (Ref 0) (Shape (rect 0 1 4 1)) false (State [square] [])).1 =
    Raise (TypeError
             ("'mask' should be GeoDataFrame, GeoSeries or(Multi)Polygon, got " +:+
              "<class 'shapely.geometry.linestring.LineString'>")).
Proof. split; vm_compute; reflexivity. Qed.

(** C9 on a frame without rows. *)
Lemma clip_empty_input_witness :
  [no_parcels] !! 0 = Some no_parcels ∧ rows no_parcels = [] ∧
  valid_mask (State [no_parcels] []) (Shape neighbour) ∧
  ∃ n s' out,
    clip (Ref 0) (Shape neighbour) false (State [no_parcels] []) = (Ok (Ref n), s') ∧
    heap s' !! n = Some out ∧ rows out = [] ∧ same_schema out no_parcels.
Proof.
  assert (Hm : valid_mask (State [no_parcels] []) (Shape neighbour)) by compute_done.
  split; [reflexivity|]. split; [reflexivity|]. split; [exact Hm|].
  exact (clip_empty_input [no_parcels] [] 0 no_parcels (Shape neighbour) false
           eq_refl eq_refl Hm).
Defined.

(** C10 on the parcels: no GeometryCollection and one family. *)
Lemma keep_only_original_geom_type_clean_witness :
  [parcels] !! 0 = Some parcels ∧
  any_eq (geom_types parcels) GeometryCollection = false ∧
  count_families (geom_types parcels) ≤ 1 ∧
  _keep_only_original_geom_type (Ref 0) Polygon (State [parcels] []) =
    (Ok (Ref 0), State [parcels] []) ∧
  bind (_keep_only_original_geom_type (Ref 0) Polygon)
       (λ v, _keep_only_original_geom_type v Polygon) (State [parcels] []) =
    _keep_only_original_geom_type (Ref 0) Polygon (State [parcels] []).
Proof.
  assert (Hc : count_families (geom_types parcels) ≤ 1) by compute_done.
  split; [reflexivity|]. split; [reflexivity|]. split; [exact Hc|].
  exact (keep_only_original_geom_type_clean [parcels] [] 0 parcels Polygon
           eq_refl eq_refl Hc).
Defined.

(** C3 on the parcels and a polygon far away. *)
Lemma clip_disjoint_bounds_witness :
  [parcels] !! 0 = Some parcels ∧
  valid_mask (State [parcels] []) (Shape (rect 10 10 11 11)) ∧
  boxes_overlap (total_bounds parcels)
    (mask_bounds (State [parcels] []) (Shape (rect 10 10 11 11))) = false ∧
  ∃ n s' out,
    clip (Ref 0) (Shape (rect 10 10 11 11)) true (State [parcels] []) =
      (Ok (Ref n), s') ∧
    heap s' !! n = Some out ∧ rows out = [] ∧ same_schema out parcels ∧
    log s' = [] ++ crs_warnings (State [parcels] []) parcels (Shape (rect 10 10 11 11)) ++
                   [CallTotalBounds; mask_bounds_event (Shape (rect 10 10 11 11))] ∧
    (crs_warnings (State [parcels] []) parcels (Shape (rect 10 10 11 11)) = [] ∨
     crs_warnings (State [parcels] []) parcels (Shape (rect 10 10 11 11)) =
       [Warn crs_mismatch_message] ∧
       ∃ m tm, Shape (rect 10 10 11 11) = Ref m ∧ [parcels] !! m = Some tm ∧
               crs parcels ≠ crs tm).
Proof.
  assert (Hm : valid_mask (State [parcels] []) (Shape (rect 10 10 11 11)))
    by compute_done.
  split; [reflexivity|]. split; [exact Hm|]. split; [reflexivity|].
  exact (clip_disjoint_bounds [parcels] [] 0 parcels (Shape (rect 10 10 11 11)) true
           eq_refl Hm eq_refl).
Defined.

(** C3 as stated fails: the mask collection is in another CRS, the bounding
    boxes are disjoint, [clip] returns, and a warning is emitted. *)
Lemma clip_disjoint_bounds_crs_warning :
  valid_mask (State [parcels; far_mask] []) (Ref 1) ∧
  boxes_overlap (total_bounds parcels)
    (mask_bounds (State [parcels; far_mask] []) (Ref 1)) = false ∧
  (clip (Ref 0) (Ref 1) false (State [parcels; far_mask] [])).1 = Ok (Ref 2) ∧
  log (clip (Ref 0) (Ref 1) false (State [parcels; far_mask] [])).2 =
    [Warn crs_mismatch_message; CallTotalBounds; CallTotalBounds].
Proof.
  split; [compute_done|]. split; [reflexivity|].
  split; vm_compute; reflexivity.
Qed.

(** C6 on the parcels and a mask series without features. *)
Lemma clip_empty_mask_collection_witness :
  [parcels; no_features] !! 0 = Some parcels ∧
  [parcels; no_features] !! 1 = Some no_features ∧
  rows no_features = [] ∧
  ∃ n s' out,
    clip (Ref 0) (Ref 1) false (State [parcels; no_features] []) = (Ok (Ref n), s') ∧
    heap s' !! n = Some out ∧ rows out = [] ∧ same_schema out parcels ∧
    log s' = [] ++ crs_warnings (State [parcels; no_features] []) parcels (Ref 1) ++
                   [CallTotalBounds; CallTotalBounds].
Proof.
  split; [reflexivity|]. split; [reflexivity|]. split; [reflexivity|].
  exact (clip_empty_mask_collection [parcels; no_features] [] 0 1 parcels
           no_features false eq_refl eq_refl eq_refl).
Defined.

(** C6 as stated fails: with a mask of zero features [clip] raises
    nothing; it returns an empty result and never resolves the mask. *)
Lemma clip_empty_mask_returns :
  rows no_features = [] ∧
  (clip (Ref 0) (Ref 1) false (State [parcels; no_features] [])).1 = Ok (Ref 2) ∧
  geometry <$> result_rows (clip (Ref 0) (Ref 1) false (State [parcels; no_features] []))
    = [] ∧
  log (clip (Ref 0) (Ref 1) false (State [parcels; no_features] [])).2 =
    [Warn crs_mismatch_message; CallTotalBounds; CallTotalBounds].
Proof.
  split; [reflexivity|]. repeat split; vm_compute; reflexivity.
Qed.



(** C4 on the square and the two strips: the raw intersection is a
    GeometryCollection and only the rectangle is kept. *)
Lemma clip_keep_geom_type_polygons_witness :
  [square] !! 0 = Some square ∧
  valid_mask (State [square] []) (Shape two_strips) ∧
  resolved_mask (State [square] []) (Shape two_strips) = Some two_strips ∧
  NoDup (label <$> rows square) ∧
  (cls square = GeoDataFrame → name square ≠ Some "_order"%string) ∧
  (∀ k, k ∈ geom_types square → isin k _POLYGON_TYPES = true) ∧
  ∃ n s' out,
    clip (Ref 0) (Shape two_strips) true (State [square] []) = (Ok (Ref n), s') ∧
    heap s' !! n = Some out ∧
    (any_eq (raw_types square two_strips) GeometryCollection = true ∨
       1 < count_families (raw_types square two_strips) →
     rows (kept square two_strips true) ≠ [] →
     ∀ x, x ∈ rows out → isin (geom_type (geometry x)) _POLYGON_TYPES = true).
Proof.
  assert (Hm : valid_mask (State [square] []) (Shape two_strips)) by compute_done.
  assert (Hnd : NoDup (label <$> rows square)) by compute_done.
  assert (Hname : cls square = GeoDataFrame → name square ≠ Some "_order"%string)
    by (by intros _ [=]).
  assert (Hp : ∀ k, k ∈ geom_types square → isin k _POLYGON_TYPES = true).
  { intros k Hk. vm_compute in Hk. apply list_elem_of_singleton in Hk as ->.
    reflexivity. }
  split; [reflexivity|]. split; [exact Hm|]. split; [reflexivity|].
  split; [exact Hnd|]. split; [exact Hname|]. split; [exact Hp|].
  exact (proj1 (clip_keep_geom_type_polygons [square] [] 0 square (Shape two_strips)
                  two_strips eq_refl Hm eq_refl Hnd Hname Hp)).
Defined.

(** The premises of that run hold: the raw intersection is a
    GeometryCollection and the type filter leaves the rectangle. *)
Example clip_square_two_strips_premises :
  any_eq (raw_types square two_strips) GeometryCollection = true ∧
  geometry <$> rows (kept square two_strips true) = [rect 1 0 2 2].
Proof. split; vm_compute; reflexivity. Qed.

(** C4 as stated fails: the square shares only an edge with the mask, the
    raw intersection is a single LineString, and with keep_geom_type on the
    result still holds that LineString. *)
Lemma clip_keep_geom_type_returns_line :
  geom_types square = [Polygon] ∧
  (clip (Ref 0) (Shape neighbour) true (State [square] [])).1 = Ok (Ref 5) ∧
  (λ x, geom_type (geometry x)) <$>
    result_rows (clip (Ref 0) (Shape neighbour) true (State [square] []))
    = [LineString].
Proof.
  split; [reflexivity|]. split; vm_compute; reflexivity.
Qed.

(** C1 on the parcels and a rectangle that meets two of them. *)
Lemma clip_rows_arise_from_intersection_witness :
  [parcels] !! 0 = Some parcels ∧
  valid_mask (State [parcels] []) (Shape (rect 1 0 3 2)) ∧
  resolved_mask (State [parcels] []) (Shape (rect 1 0 3 2)) = Some (rect 1 0 3 2) ∧
  NoDup (label <$> rows parcels) ∧
  (cls parcels = GeoDataFrame → name parcels ≠ Some "_order"%string) ∧
  (rows (kept parcels (rect 1 0 3 2) false) = [] →
   rows (clipped_table parcels (rect 1 0 3 2)) = []) ∧
  ∃ n s' out,
    clip (Ref 0) (Shape (rect 1 0 3 2)) false (State [parcels] []) = (Ok (Ref n), s') ∧
    heap s' !! n = Some out ∧
    ∀ x, x ∈ rows out →
      ∃ o, o ∈ rows parcels ∧ intersects (geometry o) (rect 1 0 3 2) = true ∧
           label x = label o ∧
           (geometry x = intersection (geometry o) (rect 1 0 3 2) ∨
            (false = true ∧
             geometry x ∈ parts (intersection (geometry o) (rect 1 0 3 2)))) ∧
           attrs x = match cls parcels with
                     | GeoDataFrame => delete "_order"%string (attrs o)
                     | GeoSeries => ∅
                     end ∧
           (cls parcels = GeoDataFrame → attrs o !! "_order"%string = None →
            attrs x = attrs o).
Proof.
  assert (Hm : valid_mask (State [parcels] []) (Shape (rect 1 0 3 2)))
    by compute_done.
  assert (Hnd : NoDup (label <$> rows parcels)) by compute_done.
  assert (Hname : cls parcels = GeoDataFrame → name parcels ≠ Some "_order"%string)
    by (by intros _ [=]).
  assert (Hleft : rows (kept parcels (rect 1 0 3 2) false) = [] →
                  rows (clipped_table parcels (rect 1 0 3 2)) = [])
    by (by intros [=]).
  split; [reflexivity|]. split; [exact Hm|]. split; [reflexivity|].
  split; [exact Hnd|]. split; [exact Hname|]. split; [exact Hleft|].
  exact (clip_rows_arise_from_intersection [parcels] [] 0 parcels
           (Shape (rect 1 0 3 2)) false (rect 1 0 3 2) eq_refl Hm eq_refl
           Hnd Hname Hleft).
Defined.

(** C1 as stated fails: with keep_geom_type on, the intersection of the
    square with the two strips is a collection of a segment and a
    rectangle; the result holds the rectangle alone, which is not the
    intersection of the square with the mask. *)
Lemma clip_explodes_intersection :
  (clip (Ref 0) (Shape two_strips) true (State [square] [])).1 = Ok (Ref 7) ∧
  geometry <$> result_rows (clip (Ref 0) (Shape two_strips) true (State [square] []))
    = [rect 1 0 2 2] ∧
  geometry <$> rows square = [rect 0 0 2 2] ∧
  intersection (rect 0 0 2 2) two_strips = Some [Box 0 0 0 2; Box 1 0 2 2] ∧
  rect 1 0 2 2 ≠ intersection (rect 0 0 2 2) two_strips.
Proof.
  split; [vm_compute; reflexivity|]. split; [vm_compute; reflexivity|].
  split; [reflexivity|]. split; [reflexivity|]. discriminate.
Qed.

(** C2 on the parcels, whose labels are unique. *)
Lemma clip_preserves_order_witness :
  [parcels] !! 0 = Some parcels ∧
  valid_mask (State [parcels] []) (Shape (rect 1 0 3 2)) ∧
  resolved_mask (State [parcels] []) (Shape (rect 1 0 3 2)) = Some (rect 1 0 3 2) ∧
  NoDup (label <$> rows parcels) ∧
  (cls parcels = GeoDataFrame → name parcels ≠ Some "_order"%string) ∧
  ∃ n s' out,
    clip (Ref 0) (Shape (rect 1 0 3 2)) true (State [parcels] []) = (Ok (Ref n), s') ∧
    heap s' !! n = Some out ∧
    (∀ i j oi oj a b ra rb,
       rows parcels !! i = Some oi → rows parcels !! j = Some oj → i < j →
       rows out !! a = Some ra → rows out !! b = Some rb →
       label ra = label oi → label rb = label oj → a < b) ∧
    ((rows (kept parcels (rect 1 0 3 2) true) = [] →
      rows (clipped_table parcels (rect 1 0 3 2)) = []) →
     (∀ o, o ∈ rows parcels →
        geometry <$> filter (λ x, label x = label o) (rows out)
          `sublist_of` [intersection (geometry o) (rect 1 0 3 2)] ∨
        geometry <$> filter (λ x, label x = label o) (rows out)
          `sublist_of` parts (intersection (geometry o) (rect 1 0 3 2))) ∧
     (boxes_overlap (total_bounds parcels)
        (mask_bounds (State [parcels] []) (Shape (rect 1 0 3 2))) = true →
      ∀ L, geometry <$> filter (λ x, label x = L) (rows out) =
           geometry <$> filter (λ x, label x = L)
                          (rows (kept parcels (rect 1 0 3 2) true)))).
Proof.
  assert (Hm : valid_mask (State [parcels] []) (Shape (rect 1 0 3 2)))
    by compute_done.
  assert (Hnd : NoDup (label <$> rows parcels)) by compute_done.
  assert (Hname : cls parcels = GeoDataFrame → name parcels ≠ Some "_order"%string)
    by (by intros _ [=]).
  split; [reflexivity|]. split; [exact Hm|]. split; [reflexivity|].
  split; [exact Hnd|]. split; [exact Hname|].
  exact (clip_preserves_order [parcels] [] 0 parcels (Shape (rect 1 0 3 2)) true
           (rect 1 0 3 2) eq_refl Hm eq_refl Hnd Hname).
Defined.

(** In that run type reconciliation leaves both clipped parcels. *)
Example clip_parcels_kept :
  boxes_overlap (total_bounds parcels)
    (mask_bounds (State [parcels] []) (Shape (rect 1 0 3 2))) = true ∧
  (λ x, (label x, geometry x)) <$> rows (kept parcels (rect 1 0 3 2) true)
    = [(30%Z, rect 1 1 3 2); (10%Z, rect 1 0 2 2)].
Proof. split; vm_compute; reflexivity. Qed.

(** C2 as stated fails: the two rows carry the same index label, both meet
    the mask, the index returns them in reverse, and [clip] returns them
    in that order: the row derived from the second original row precedes
    the row derived from the first. *)
Lemma clip_duplicate_labels_reverse :
  label <$> rows twins = [5%Z; 5%Z] ∧
  geometry <$> rows twins = [rect 0 0 2 2; rect 5 5 6 6] ∧
  intersection (rect 0 0 2 2) (rect 0 0 6 6) = rect 0 0 2 2 ∧
  intersection (rect 5 5 6 6) (rect 0 0 6 6) = rect 5 5 6 6 ∧
  (clip (Ref 0) (Shape (rect 0 0 6 6)) false (State [twins] [])).1 = Ok (Ref 5) ∧
  geometry <$> result_rows (clip (Ref 0) (Shape (rect 0 0 6 6)) false (State [twins] []))
    = [rect 5 5 6 6; rect 0 0 2 2].
Proof.
  split; [reflexivity|]. split; [reflexivity|].
  split; [reflexivity|]. split; [reflexivity|].
  split; vm_compute; reflexivity.
Qed.

(** The order is restored: the index returns the parcels in reverse, and
    the result lists them as the input does, with their attributes. *)
Example clip_parcels_in_input_order :
  sindex_query (geometry <$> rows parcels) (rect 1 0 3 2) = [2; 0] ∧
  (λ x, (label x, geometry x, map_to_list (attrs x))) <$>
    result_rows (clip (Ref 0) (Shape (rect 1 0 3 2)) false (State [parcels] []))
    = [(10%Z, rect 1 0 2 2, [("name"%string, CStr "A")]);
       (30%Z, rect 1 1 3 2, [("name"%string, CStr "C")])].
Proof.
  split; vm_compute; reflexivity.
Qed.

(** A column that is itself named "_order" does not survive: the helper
    column overwrites it and is then dropped. *)
Example clip_drops_order_column :
  (λ x, (label x, map_to_list (attrs x))) <$>
    result_rows
      (clip (Ref 0) (Shape (rect 1 0 3 2)) false
         (State [Table GeoDataFrame (Some "geometry"%string) None ["_order"%string]
                   [Row 0 (rect 0 0 2 2) {[ "_order"%string := CStr "x" ]}] false] []))
    = [(0%Z, [])].
Proof.
  vm_compute. reflexivity.
Qed.

(** A geometry column that is named "_order" is the target of the
    assignment of the helper column: the run leaves the tables of this
    development, after the clipping step. *)
Example clip_geometry_named_order :
  (clip (Ref 0) (Shape (rect 1 0 3 2)) false (State [order_named] [])).1 = Unmodelled ∧
  log (clip (Ref 0) (Shape (rect 1 0 3 2)) false (State [order_named] [])).2 =
    [CallTotalBounds; CallBounds; CallSindexQuery; CallIntersection].
Proof. split; vm_compute; reflexivity. Qed.

(** Two polygons that only touch the mask, with keep_geom_type on: the raw
    intersection holds a point and a segment, the type filter removes
    both, and the result has a row for each polygon, without geometry and
    without attribute values. *)
Example clip_touching_polygons :
  raw_types touching between = [LineString; Point] ∧
  (λ x, (label x, geometry x, map_to_list (attrs x))) <$>
    result_rows (clip (Ref 0) (Shape between) true (State [touching] []))
    = [(0%Z, None, [("name"%string, CNaN)]);
       (1%Z, None, [("name"%string, CNaN)])] ∧
  geometry <$> result_rows (clip (Ref 0) (Shape between) false (State [touching] []))
    = [Some [Box 2 0 2 2]; Some [Box 3 2 3 2]].
Proof. repeat split; vm_compute; reflexivity. Qed.

(** The twins and a mask that meets the first of them only: the clipped
    rows do not carry the index of the input, and pandas refuses to align
    the helper column. *)
Example clip_twins_value_error :
  (clip (Ref 0) (Shape (rect 0 0 3 3)) false (State [twins] [])).1 =
    Raise (ValueError "cannot reindex from a duplicate axis").
Proof. vm_compute. reflexivity. Qed.

(** X1 on the parcels and a rectangle that meets two of them. *)
Lemma clip_returns_intersecting_rows_witness :
  [parcels] !! 0 = Some parcels ∧
  valid_mask (State [parcels] []) (Shape (rect 1 0 3 2)) ∧
  resolved_mask (State [parcels] []) (Shape (rect 1 0 3 2)) = Some (rect 1 0 3 2) ∧
  boxes_overlap (total_bounds parcels)
    (mask_bounds (State [parcels] []) (Shape (rect 1 0 3 2))) = true ∧
  NoDup (label <$> rows parcels) ∧
  (cls parcels = GeoDataFrame → name parcels ≠ Some "_order"%string) ∧
  ∃ n s' out,
    clip (Ref 0) (Shape (rect 1 0 3 2)) false (State [parcels] []) = (Ok (Ref n), s') ∧
    heap s' !! n = Some out ∧
    rows out =
      (λ o, Row (label o) (intersection (geometry o) (rect 1 0 3 2))
                (match cls parcels with
                 | GeoDataFrame => delete "_order"%string (attrs o)
                 | GeoSeries => ∅
                 end)) <$>
        filter (λ x, intersects (geometry x) (rect 1 0 3 2) = true) (rows parcels).
Proof.
  assert (Hm : valid_mask (State [parcels] []) (Shape (rect 1 0 3 2)))
    by compute_done.
  assert (Hnd : NoDup (label <$> rows parcels)) by compute_done.
  assert (Hname : cls parcels = GeoDataFrame → name parcels ≠ Some "_order"%string)
    by (by intros _ [=]).
  split; [reflexivity|]. split; [exact Hm|]. split; [reflexivity|].
  split; [reflexivity|]. split; [exact Hnd|]. split; [exact Hname|].
  exact (clip_returns_intersecting_rows [parcels] [] 0 parcels (Shape (rect 1 0 3 2))
           (rect 1 0 3 2) eq_refl Hm eq_refl eq_refl Hnd Hname).
Defined.

(** X2 on the parcels. *)
Lemma clip_result_has_input_shape_witness :
  [parcels] !! 0 = Some parcels ∧
  valid_mask (State [parcels] []) (Shape (rect 1 0 3 2)) ∧
  NoDup (label <$> rows parcels) ∧
  (cls parcels = GeoDataFrame → name parcels ≠ Some "_order"%string) ∧
  ∃ n s' out,
    clip (Ref 0) (Shape (rect 1 0 3 2)) true (State [parcels] []) = (Ok (Ref n), s') ∧
    heap s' !! n = Some out ∧
    cls out = cls parcels ∧ crs out = crs parcels ∧
    (cls parcels = GeoDataFrame → "_order"%string ∉ columns parcels →
     columns out = columns parcels ∧ name out = name parcels).
Proof.
  assert (Hm : valid_mask (State [parcels] []) (Shape (rect 1 0 3 2)))
    by compute_done.
  assert (Hnd : NoDup (label <$> rows parcels)) by compute_done.
  assert (Hname : cls parcels = GeoDataFrame → name parcels ≠ Some "_order"%string)
    by (by intros _ [=]).
  split; [reflexivity|]. split; [exact Hm|]. split; [exact Hnd|].
  split; [exact Hname|].
  exact (clip_result_has_input_shape [parcels] [] 0 parcels (Shape (rect 1 0 3 2))
           true eq_refl Hm Hnd Hname).
Defined.

(** X3 on the parcels. *)
Lemma clip_gdf_with_polygon_subset_witness :
  [parcels] !! 0 = Some parcels ∧
  ∃ n s' out,
    _clip_gdf_with_polygon (Ref 0) (Shape (rect 1 0 3 2)) (State [parcels] []) =
      (Ok (Ref n), s') ∧
    heap s' !! n = Some out ∧ length [parcels] ≤ n ∧ cls out = cls parcels ∧
    rows out ≡ₚ
      (λ o, Row (label o) (intersection (geometry o) (rect 1 0 3 2))
                (match cls parcels with
                 | GeoDataFrame => attrs o
                 | GeoSeries => ∅
                 end)) <$>
        filter (λ x, intersects (geometry x) (rect 1 0 3 2) = true) (rows parcels) ∧
    preserves [parcels] (heap s') ∧
    log s' = [] ++ [CallSindexQuery; CallIntersection].
Proof.
  split; [reflexivity|].
  exact (clip_gdf_with_polygon_subset [parcels] [] 0 parcels (rect 1 0 3 2) eq_refl).
Defined.

(** X4 on the mixed frame. *)
Lemma keeping_geometry_type_is_possible_spec_witness :
  [mixed] !! 0 = Some mixed ∧
  ∃ b w,
    _keeping_geometry_type_is_possible (Ref 0) (State [mixed] []) =
      (Ok b, State [mixed] ([] ++ w)) ∧
    (b = true ↔ any_eq (geom_types mixed) GeometryCollection = false ∧
                count_families (geom_types mixed) ≤ 1) ∧
    (b = true → w = []) ∧
    (any_eq (geom_types mixed) GeometryCollection = true →
     w = [Warn geometrycollection_message]) ∧
    (any_eq (geom_types mixed) GeometryCollection = false →
     1 < count_families (geom_types mixed) → w = [Warn mixed_type_message]).
Proof.
  split; [reflexivity|].
  exact (keeping_geometry_type_is_possible_spec [mixed] [] 0 mixed eq_refl).
Defined.

(** X6 on the mixed frame, kept as polygons. *)
Lemma keep_only_original_geom_type_idempotent_witness :
  [mixed] !! 0 = Some mixed ∧
  (isin Polygon _LINE_TYPES = true ∨ isin Polygon _POLYGON_TYPES = true) ∧
  ∃ c' s',
    _keep_only_original_geom_type (Ref 0) Polygon (State [mixed] []) = (Ok (Ref c'), s') ∧
    _keep_only_original_geom_type (Ref c') Polygon s' = (Ok (Ref c'), s').
Proof.
  assert (Hty : isin Polygon _LINE_TYPES = true ∨ isin Polygon _POLYGON_TYPES = true)
    by (right; reflexivity).
  split; [reflexivity|]. split; [exact Hty|].
  exact (keep_only_original_geom_type_idempotent [mixed] [] 0 mixed Polygon
           eq_refl Hty).
Defined.

(** X7 on the fences and the two blocks: each fence meets the mask in a
    point and a segment. *)
Lemma clip_keep_geom_type_lines_witness :
  [fences] !! 0 = Some fences ∧
  valid_mask (State [fences] []) (Shape two_blocks) ∧
  resolved_mask (State [fences] []) (Shape two_blocks) = Some two_blocks ∧
  NoDup (label <$> rows fences) ∧
  (cls fences = GeoDataFrame → name fences ≠ Some "_order"%string) ∧
  (∀ k, k ∈ geom_types fences → isin k _LINE_TYPES = true) ∧
  (any_eq (raw_types fences two_blocks) GeometryCollection = true ∨
   1 < count_families (raw_types fences two_blocks)) ∧
  rows (kept fences two_blocks true) ≠ [] ∧
  ∃ n s' out,
    clip (Ref 0) (Shape two_blocks) true (State [fences] []) = (Ok (Ref n), s') ∧
    heap s' !! n = Some out ∧
    ∀ x, x ∈ rows out → isin (geom_type (geometry x)) _LINE_TYPES = true.
Proof.
  assert (Hm : valid_mask (State [fences] []) (Shape two_blocks)) by compute_done.
  assert (Hnd : NoDup (label <$> rows fences)) by compute_done.
  assert (Hname : cls fences = GeoDataFrame → name fences ≠ Some "_order"%string)
    by (by intros _ [=]).
  assert (Hp : ∀ k, k ∈ geom_types fences → isin k _LINE_TYPES = true).
  { intros k Hk. vm_compute in Hk.
    apply elem_of_cons in Hk as [->|Hk]; [reflexivity|].
    apply list_elem_of_singleton in Hk as ->. reflexivity. }
  assert (Hraw : any_eq (raw_types fences two_blocks) GeometryCollection = true ∨
                 1 < count_families (raw_types fences two_blocks))
    by (left; vm_compute; reflexivity).
  assert (Hleft : rows (kept fences two_blocks true) ≠ []) by (by intros [=]).
  split; [reflexivity|]. split; [exact Hm|]. split; [reflexivity|].
  split; [exact Hnd|]. split; [exact Hname|].
  split; [exact Hp|]. split; [exact Hraw|]. split; [exact Hleft|].
  exact (clip_keep_geom_type_lines [fences] [] 0 fences (Shape two_blocks) two_blocks
           eq_refl Hm eq_refl Hnd Hname Hp Hraw Hleft).
Defined.

(** The fences clipped by the two blocks, with keep_geom_type on: the end
    points are dropped and the segments are kept, in input order. *)
Example clip_fences_keeps_segments :
  (λ x, (label x, geometry x)) <$>
    result_rows (clip (Ref 0) (Shape two_blocks) true (State [fences] []))
    = [(0%Z, rect 2 1 4 1); (1%Z, rect 2 0 4 0)].
Proof. vm_compute. reflexivity. Qed.

(** X8 on the parcels as original collection and two of them, clipped and
    in the order of the index, as clipped collection. *)
Lemma recreate_initial_order_effects_witness :
  [parcels; picked] !! 0 = Some parcels ∧ [parcels; picked] !! 1 = Some picked ∧
  NoDup (label <$> rows parcels) ∧ rows picked ≠ [] ∧
  (cls picked = GeoDataFrame → name picked ≠ Some "_order"%string) ∧
  ∃ n s' out,
    _recreate_initial_order (Ref 0) (Ref 1) (State [parcels; picked] []) =
      (Ok (Ref n), s') ∧
    heap s' !! n = Some out ∧ length [parcels; picked] ≤ n ∧ log s' = [] ∧
    cls out = cls picked ∧
    (λ x, (label x, geometry x)) <$> rows out ≡ₚ
      (λ x, (label x, geometry x)) <$> rows picked ∧
    (∀ a b ra rb, rows out !! a = Some ra → rows out !! b = Some rb → a < b →
       key_le (rank_of parcels (label ra)) (rank_of parcels (label rb)) = true) ∧
    (∀ i u, [parcels; picked] !! i = Some u → i ≠ 1 ∨ cls picked = GeoSeries →
            heap s' !! i = Some u) ∧
    (cls picked = GeoDataFrame →
     ∃ tc', heap s' !! 1 = Some tc' ∧ "_order"%string ∈ columns tc' ∧
            (λ x, (label x, geometry x)) <$> rows tc' =
              (λ x, (label x, geometry x)) <$> rows picked).
Proof.
  assert (Hnd : NoDup (label <$> rows parcels)) by compute_done.
  assert (Hne : rows picked ≠ []) by done.
  assert (Hname : cls picked = GeoDataFrame → name picked ≠ Some "_order"%string)
    by (by intros _ [=]).
  split; [reflexivity|]. split; [reflexivity|]. split; [exact Hnd|].
  split; [exact Hne|]. split; [exact Hname|].
  exact (recreate_initial_order_effects [parcels; picked] [] 0 1 parcels picked
           eq_refl eq_refl Hnd Hne Hname).
Defined.

(** The picked parcels come back in the order of the parcels. *)
Example recreate_initial_order_picked :
  label <$> rows picked = [30%Z; 10%Z] ∧
  label <$> result_rows
              (_recreate_initial_order (Ref 0) (Ref 1) (State [parcels; picked] []))
    = [10%Z; 30%Z].
Proof. split; vm_compute; reflexivity. Qed.

(** X9 on the parcels: both intersections are rectangles. *)
Lemma clip_keep_geom_type_irrelevant_on_clean_witness :
  [parcels] !! 0 = Some parcels ∧
  valid_mask (State [parcels] []) (Shape (rect 1 0 3 2)) ∧
  resolved_mask (State [parcels] []) (Shape (rect 1 0 3 2)) = Some (rect 1 0 3 2) ∧
  NoDup (label <$> rows parcels) ∧
  (cls parcels = GeoDataFrame → name parcels ≠ Some "_order"%string) ∧
  any_eq (raw_types parcels (rect 1 0 3 2)) GeometryCollection = false ∧
  count_families (raw_types parcels (rect 1 0 3 2)) ≤ 1 ∧
  ∃ n1 s1 n0 s0 out,
    clip (Ref 0) (Shape (rect 1 0 3 2)) true (State [parcels] []) = (Ok (Ref n1), s1) ∧
    clip (Ref 0) (Shape (rect 1 0 3 2)) false (State [parcels] []) = (Ok (Ref n0), s0) ∧
    heap s1 !! n1 = Some out ∧ heap s0 !! n0 = Some out.
Proof.
  assert (Hm : valid_mask (State [parcels] []) (Shape (rect 1 0 3 2)))
    by compute_done.
  assert (Hnd : NoDup (label <$> rows parcels)) by compute_done.
  assert (Hname : cls parcels = GeoDataFrame → name parcels ≠ Some "_order"%string)
    by (by intros _ [=]).
  assert (Hgc : any_eq (raw_types parcels (rect 1 0 3 2)) GeometryCollection = false)
    by (vm_compute; reflexivity).
  assert (Hc : count_families (raw_types parcels (rect 1 0 3 2)) ≤ 1) by compute_done.
  split; [reflexivity|]. split; [exact Hm|]. split; [reflexivity|].
  split; [exact Hnd|]. split; [exact Hname|].
  split; [exact Hgc|]. split; [exact Hc|].
  exact (clip_keep_geom_type_irrelevant_on_clean [parcels] [] 0 parcels
           (Shape (rect 1 0 3 2)) (rect 1 0 3 2) eq_refl Hm eq_refl Hnd Hname Hgc Hc).
Defined.

(** X11 on the parcels and a mask collection of one rectangle. *)
Lemma clip_collection_mask_is_its_union_witness :
  [parcels; strip_series] !! 0 = Some parcels ∧
  [parcels; strip_series] !! 1 = Some strip_series ∧
  NoDup (label <$> rows parcels) ∧
  (cls parcels = GeoDataFrame → name parcels ≠ Some "_order"%string) ∧
  valid_mask (State [parcels; strip_series] [])
    (Shape (unary_union (geometry <$> rows strip_series))) ∧
  boxes_overlap (total_bounds parcels) (total_bounds strip_series) =
    boxes_overlap (total_bounds parcels)
      (bounds (unary_union (geometry <$> rows strip_series))) ∧
  ∃ n1 s1 n2 s2 out,
    clip (Ref 0) (Ref 1) false (State [parcels; strip_series] []) = (Ok (Ref n1), s1) ∧
    clip (Ref 0) (Shape (unary_union (geometry <$> rows strip_series))) false
      (State [parcels; strip_series] []) = (Ok (Ref n2), s2) ∧
    heap s1 !! n1 = Some out ∧ heap s2 !! n2 = Some out.
Proof.
  assert (Hnd : NoDup (label <$> rows parcels)) by compute_done.
  assert (Hname : cls parcels = GeoDataFrame → name parcels ≠ Some "_order"%string)
    by (by intros _ [=]).
  assert (Hm : valid_mask (State [parcels; strip_series] [])
                 (Shape (unary_union (geometry <$> rows strip_series))))
    by compute_done.
  split; [reflexivity|]. split; [reflexivity|]. split; [exact Hnd|].
  split; [exact Hname|]. split; [exact Hm|]. split; [reflexivity|].
  exact (clip_collection_mask_is_its_union [parcels; strip_series] [] 0 1 parcels
           strip_series false eq_refl eq_refl Hnd Hname Hm eq_refl).
Defined.

(** X13 on the two squares that only touch the mask. *)
Lemma clip_keep_geom_type_emptied_witness :
  [touching] !! 0 = Some touching ∧
  valid_mask (State [touching] []) (Shape between) ∧
  resolved_mask (State [touching] []) (Shape between) = Some between ∧
  boxes_overlap (total_bounds touching)
    (mask_bounds (State [touching] []) (Shape between)) = true ∧
  NoDup (label <$> rows touching) ∧
  (cls touching = GeoDataFrame → name touching ≠ Some "_order"%string) ∧
  rows (clipped_table touching between) ≠ [] ∧
  rows (kept touching between true) = [] ∧
  ∃ n s' out,
    clip (Ref 0) (Shape between) true (State [touching] []) = (Ok (Ref n), s') ∧
    heap s' !! n = Some out ∧
    rows out = hollow_rows touching ∧
    length (rows out) = length (rows touching) ∧
    ∀ x, x ∈ rows out → geometry x = missing.
Proof.
  assert (Hm : valid_mask (State [touching] []) (Shape between)) by compute_done.
  assert (Hnd : NoDup (label <$> rows touching)) by compute_done.
  assert (Hname : cls touching = GeoDataFrame → name touching ≠ Some "_order"%string)
    by (by intros _ [=]).
  assert (Hne : rows (clipped_table touching between) ≠ []) by (by intros [=]).
  assert (Hnil : rows (kept touching between true) = []) by (vm_compute; reflexivity).
  split; [reflexivity|]. split; [exact Hm|]. split; [reflexivity|].
  split; [reflexivity|]. split; [exact Hnd|]. split; [exact Hname|].
  split; [exact Hne|]. split; [exact Hnil|].
  exact (clip_keep_geom_type_emptied [touching] [] 0 touching (Shape between) between
           eq_refl Hm eq_refl eq_refl Hnd Hname Hne Hnil).
Defined.

(** X14 on the twins and a mask that meets the first of them only. *)
Lemma clip_duplicate_labels_raise_witness :
  [twins] !! 0 = Some twins ∧
  valid_mask (State [twins] []) (Shape (rect 0 0 3 3)) ∧
  resolved_mask (State [twins] []) (Shape (rect 0 0 3 3)) = Some (rect 0 0 3 3) ∧
  boxes_overlap (total_bounds twins)
    (mask_bounds (State [twins] []) (Shape (rect 0 0 3 3))) = true ∧
  (cls twins = GeoDataFrame → name twins ≠ Some "_order"%string) ∧
  ¬ NoDup (label <$> rows twins) ∧
  rows (kept twins (rect 0 0 3 3) false) ≠ [] ∧
  label <$> rows (kept twins (rect 0 0 3 3) false) ≠ label <$> rows twins ∧
  ∃ msg s',
    clip (Ref 0) (Shape (rect 0 0 3 3)) false (State [twins] []) =
      (Raise (ValueError msg), s') ∧
    preserves [twins] (heap s').
Proof.
  assert (Hm : valid_mask (State [twins] []) (Shape (rect 0 0 3 3))) by compute_done.
  assert (Hname : cls twins = GeoDataFrame → name twins ≠ Some "_order"%string)
    by (by intros _ [=]).
  assert (Hdup : ¬ NoDup (label <$> rows twins)) by compute_done.
  assert (Hne : rows (kept twins (rect 0 0 3 3) false) ≠ []) by (by intros [=]).
  assert (Hidx : label <$> rows (kept twins (rect 0 0 3 3) false) ≠
                 label <$> rows twins) by (by intros [=]).
  split; [reflexivity|]. split; [exact Hm|]. split; [reflexivity|].
  split; [reflexivity|]. split; [exact Hname|]. split; [exact Hdup|].
  split; [exact Hne|]. split; [exact Hidx|].
  exact (clip_duplicate_labels_raise [twins] [] 0 twins (Shape (rect 0 0 3 3)) false
           (rect 0 0 3 3) eq_refl Hm eq_refl eq_refl Hname Hdup Hne Hidx).
Defined.
